(** * Webhook reconciliation of the captive-portal payment backend

    A shallow embedding of [payment_backend/index.ts]: the expiry
    calculator, the three MongoDB collections with the indexes and
    validators installed at start-up, the upsert helpers, the Paystack
    webhook handler and the payment-initialisation endpoint.

    Conventions.
    - A JavaScript [number] is [Number]: a rational, NaN or an infinity.
      Every comparison the program makes on numbers ([===], [<=], [isNaN])
      is exact, so the rational is the value of the double.
    - A [Date] is its time value: milliseconds since the epoch, or [None]
      for an Invalid Date.  The calendar functions are those of ECMA-262
      (Day, YearFromTime, MonthFromTime, DateFromTime, MakeDay, MakeDate,
      TimeClip, LocalTime, UTC).
    - Built-ins whose result depends on the host ([new Date(v)] on a value,
      [parseFloat], the conversions between strings and numbers, the zone
      offset at an instant) are fields of a [Runtime] record.
    - A request body is the value the body parser delivers, whatever the
      TypeScript annotation of the handler says of it: the annotations are
      erased before the program runs.
    - A document reaches its collection through the serializer of the
      driver, which writes an Invalid Date as time 0 and [undefined] as
      null.
    - Asynchronous code is run to completion in program order: the model
      covers one request at a time, not interleavings of two. *)

From Stdlib Require Import ZArith QArith Qround List String Ascii Bool Lia.
Import ListNotations.

Set Warnings "-register-all".

Local Open Scope string_scope.
Local Open Scope list_scope.
Local Open Scope Z_scope.

(* ================================================================== *)
(** ** JavaScript values *)

Module Js.

Inductive Number : Type :=
| NaN
| Infinity (negative : bool)
| Finite (q : Q).

(** Values that reach the program from a parsed JSON body. *)
Inductive Value : Type :=
| Undefined
| Null
| Bool (b : bool)
| Num (n : Number)
| Str (s : string)
| Arr (items : list Value)
| Obj (fields : list (string * Value)).

Inductive Error : Type :=
| TypeError (message : string)
| MongoServerError (code : Z) (message : string)
| PlainError (message : string).

Definition message (e : Error) : string :=
  match e with
  | TypeError m => m
  | MongoServerError _ m => m
  | PlainError m => m
  end.

Definition code (e : Error) : option Z :=
  match e with
  | MongoServerError c _ => Some c
  | _ => None
  end.

(** [JSON.parse] keeps the last of several members with one name. *)
Fixpoint lookup (k : string) (fs : list (string * Value)) : option Value :=
  match fs with
  | [] => None
  | (k', v) :: rest =>
      match lookup k rest with
      | Some w => Some w
      | None => if String.eqb k k' then Some v else None
      end
  end.

(** [v.k] for the member names the program reads ([event], [data],
    [paid_at], [amount], [reference], [customer], [email]): reading a
    member of [undefined] or [null] throws, a primitive or an array has
    no such member. *)
Definition get (v : Value) (k : string) : Error + Value :=
  match v with
  | Undefined =>
      inl (TypeError ("Cannot read properties of undefined (reading '" ++ k ++ "')")%string)
  | Null =>
      inl (TypeError ("Cannot read properties of null (reading '" ++ k ++ "')")%string)
  | Obj fs => inr (match lookup k fs with Some w => w | None => Undefined end)
  | _ => inr Undefined
  end.

(** [v === k] for a numeric literal [k]. *)
Definition strict_eq_int (v : Value) (k : Z) : bool :=
  match v with
  | Num (Finite q) => Qeq_bool q (inject_Z k)
  | _ => false
  end.

(** [v === s] for a string literal [s]. *)
Definition strict_eq_str (v : Value) (s : string) : bool :=
  match v with
  | Str s' => String.eqb s' s
  | _ => false
  end.

(** [isNaN(n)] and [n <= 0] on a number. *)
Definition isNaN (n : Number) : bool :=
  match n with NaN => true | _ => false end.

Definition le_zero (n : Number) : bool :=
  match n with
  | NaN => false
  | Infinity negative => negative
  | Finite q => Qle_bool q 0
  end.

(** [!n] on a number: zero and NaN are falsy. *)
Definition falsy_number (n : Number) : bool :=
  match n with
  | NaN => true
  | Infinity _ => false
  | Finite q => Qeq_bool q 0
  end.

(** ToBoolean: what [!v] negates. *)
Definition truthy (v : Value) : bool :=
  match v with
  | Undefined | Null => false
  | Bool b => b
  | Num n => negb (falsy_number n)
  | Str s => negb (String.eqb s "")
  | Arr _ | Obj _ => true
  end.

(** An own member [k] of an object. *)
Definition has_own (k : string) (fs : list (string * Value)) : bool :=
  match lookup k fs with
  | Some _ => true
  | None => false
  end.

End Js.

(** [v] is [undefined] or [null]. *)
Definition nullish (v : Js.Value) : bool :=
  match v with
  | Js.Undefined | Js.Null => true
  | _ => false
  end.

(* ================================================================== *)
(** ** Dates (ECMA-262, section "Date Objects") *)

Module JsDate.

Definition Date : Type := option Z.

Definition msPerDay : Z := 86400000.

Definition Day (t : Z) : Z := t / msPerDay.
Definition TimeWithinDay (t : Z) : Z := t mod msPerDay.

Definition IsLeapYear (y : Z) : bool :=
  if negb (y mod 4 =? 0) then false
  else if negb (y mod 100 =? 0) then true
  else (y mod 400 =? 0).

Definition DayFromYear (y : Z) : Z :=
  365 * (y - 1970) + (y - 1969) / 4 - (y - 1901) / 100 + (y - 1601) / 400.

(** The largest [y] with [DayFromYear y <= Day t], by the 400/100/4/1
    year cycles counted from 1 January 1601. *)
Definition YearFromTime (t : Z) : Z :=
  let d := Day t - DayFromYear 1601 in
  let n400 := d / 146097 in
  let r400 := d mod 146097 in
  let n100 := Z.min (r400 / 36524) 3 in
  let r100 := r400 - n100 * 36524 in
  let n4 := r100 / 1461 in
  let r4 := r100 mod 1461 in
  let n1 := Z.min (r4 / 365) 3 in
  1601 + 400 * n400 + 100 * n100 + 4 * n4 + n1.

Definition DayWithinYear (t : Z) : Z := Day t - DayFromYear (YearFromTime t).

Definition InLeapYear (t : Z) : bool := IsLeapYear (YearFromTime t).

(** Number of days of the year before month [m] (0 = January). *)
Definition MonthStart (leap : bool) (m : Z) : Z :=
  let l := if leap then 1 else 0 in
  if m =? 0 then 0
  else if m =? 1 then 31
  else if m =? 2 then 59 + l
  else if m =? 3 then 90 + l
  else if m =? 4 then 120 + l
  else if m =? 5 then 151 + l
  else if m =? 6 then 181 + l
  else if m =? 7 then 212 + l
  else if m =? 8 then 243 + l
  else if m =? 9 then 273 + l
  else if m =? 10 then 304 + l
  else 334 + l.

Definition MonthFromTime (t : Z) : Z :=
  let d := DayWithinYear t in
  let leap := InLeapYear t in
  if d <? MonthStart leap 1 then 0
  else if d <? MonthStart leap 2 then 1
  else if d <? MonthStart leap 3 then 2
  else if d <? MonthStart leap 4 then 3
  else if d <? MonthStart leap 5 then 4
  else if d <? MonthStart leap 6 then 5
  else if d <? MonthStart leap 7 then 6
  else if d <? MonthStart leap 8 then 7
  else if d <? MonthStart leap 9 then 8
  else if d <? MonthStart leap 10 then 9
  else if d <? MonthStart leap 11 then 10
  else 11.

Definition DateFromTime (t : Z) : Z :=
  DayWithinYear t - MonthStart (InLeapYear t) (MonthFromTime t) + 1.

(** [MakeDay(year, month, date)]: the day number of the first of the
    month, plus [date - 1]. *)
Definition MakeDay (year month date : Z) : Z :=
  let ym := year + month / 12 in
  let mn := month mod 12 in
  DayFromYear ym + MonthStart (IsLeapYear ym) mn + date - 1.

Definition MakeDate (day time : Z) : Z := day * msPerDay + time.

Definition maxTime : Z := 8640000000000000.

Definition TimeClip (t : Z) : Date :=
  if Z.abs t >? maxTime then None else Some t.

Section Zone.
(** [LocalTZA(t, isUTC)]: the offset of the host's local time from UTC, in
    milliseconds, in force at the instant [t] ([isUTC] true) or at the
    local time [t] ([isUTC] false).  It changes with [t] where the zone
    has daylight-saving time. *)
Variable LocalTZA : Z -> bool -> Z.

Definition LocalTime (t : Z) : Z := t + LocalTZA t true.
Definition UTC (t : Z) : Z := t - LocalTZA t false.

(** [d.getDate()]; [None] is NaN. *)
Definition getDate (d : Date) : option Z :=
  match d with
  | None => None
  | Some t => Some (DateFromTime (LocalTime t))
  end.

(** The time value [d.setDate(dt)] leaves in [d]. *)
Definition setDate (d : Date) (dt : option Z) : Date :=
  match d, dt with
  | Some t, Some date =>
      let lt := LocalTime t in
      let newDate :=
        MakeDate (MakeDay (YearFromTime lt) (MonthFromTime lt) date)
                 (TimeWithinDay lt) in
      TimeClip (UTC newDate)
  | _, _ => None
  end.
End Zone.

(** [new Date(d)] for a Date [d] copies its time value. *)
Definition copy (d : Date) : Date := d.

(** [t] shifted by [n] whole days. *)
Definition addDays (t n : Z) : Z := t + n * msPerDay.

Definition valid (t : Z) : Prop := Z.abs t <= maxTime.

End JsDate.

(* ================================================================== *)
(** ** Host built-ins *)

Record Runtime : Type := {
  (** zone offset of the process, in milliseconds, at an instant or at a
      local time *)
  LocalTZA : Z -> bool -> Z;
  (** [new Date(v)] for a value [v] taken from a JSON body *)
  newDate : Js.Value -> JsDate.Date;
  (** [parseFloat(s)] *)
  parseFloat : string -> Js.Number;
  (** the number a string converts to ([Number(s)]) *)
  stringToNumber : string -> Js.Number;
  (** the string a number converts to ([String(n)]) *)
  numberToString : Js.Number -> string
}.

(* ================================================================== *)
(** ** Conversion of a value to a number

    What [isNaN(v)] and [v <= 0] make of a value that is no number.  A
    value parsed from JSON has no callable member, so an object converts
    through [Object.prototype.toString], unless a member of its own named
    [toString] hides it and the conversion throws; an array converts
    through [Array.prototype.join]. *)

Section Coercions.
Variable rt : Runtime.

Definition NotPrimitive : Js.Error :=
  Js.TypeError "Cannot convert object to primitive value".

Fixpoint ToString (v : Js.Value) : Js.Error + string :=
  match v with
  | Js.Undefined => inr "undefined"
  | Js.Null => inr "null"
  | Js.Bool b => inr (if b then "true" else "false")
  | Js.Num n => inr (numberToString rt n)
  | Js.Str s => inr s
  | Js.Arr items =>
      (fix join (l : list Js.Value) : Js.Error + string :=
         match l with
         | [] => inr ""
         | x :: rest =>
             match (if nullish x then inr "" else ToString x) with
             | inl e => inl e
             | inr s =>
                 match rest with
                 | [] => inr s
                 | _ :: _ =>
                     match join rest with
                     | inl e => inl e
                     | inr r => inr (s ++ "," ++ r)%string
                     end
                 end
             end
         end) items
  | Js.Obj fs =>
      if Js.has_own "toString" fs then inl NotPrimitive else inr "[object Object]"
  end.

Definition ToNumber (v : Js.Value) : Js.Error + Js.Number :=
  match v with
  | Js.Undefined => inr Js.NaN
  | Js.Null => inr (Js.Finite 0)
  | Js.Bool b => inr (Js.Finite (if b then 1 else 0))
  | Js.Num n => inr n
  | Js.Str s => inr (stringToNumber rt s)
  | Js.Arr _ | Js.Obj _ =>
      match ToString v with
      | inl e => inl e
      | inr s => inr (stringToNumber rt s)
      end
  end.
End Coercions.

(* ================================================================== *)
(** ** Expiry calculator *)

Section ExpiryCalculator.
Variable rt : Runtime.

(** The local [days] of [calculateExpiryDate] once the tests on [amount]
    are through. *)
Definition expiryDays (amount : Js.Value) : Z :=
  if Js.strict_eq_int amount 500 then 1
  else if Js.strict_eq_int amount 11000 then 30
  else if Js.strict_eq_int amount 25000 then 90
  else 1.

(** [calculateExpiryDate(amount, paidDate)].  The default of the second
    parameter is not used: the only caller passes both. *)
Definition calculateExpiryDate (amount : Js.Value) (paidDate : JsDate.Date)
  : JsDate.Date :=
  let days := expiryDays amount in
  let expiryDate := JsDate.copy paidDate in
  JsDate.setDate (LocalTZA rt) expiryDate
    (option_map (fun d => d + days) (JsDate.getDate (LocalTZA rt) expiryDate)).
End ExpiryCalculator.

(* ================================================================== *)
(** ** The e-mail pattern of the collection validators

    [^[a-zA-Z0-9._%+-]+@[a-zA-Z0-9.-]+\.[a-zA-Z]{2,}$], compiled by hand.
    Neither character class contains [@], so the local part is the text
    before the first [@]; the last class contains no dot, so the top-level
    label is the text after the last dot.  [$] also matches before one
    final line feed. *)

Module EmailPattern.

Definition between (lo hi c : ascii) : bool :=
  (N.leb (N_of_ascii lo) (N_of_ascii c) && N.leb (N_of_ascii c) (N_of_ascii hi))%bool.

Definition alpha (c : ascii) : bool :=
  (between "a" "z" c || between "A" "Z" c)%bool.

Definition alnum (c : ascii) : bool :=
  (alpha c || between "0" "9" c)%bool.

Definition chr (x c : ascii) : bool := Ascii.eqb x c.

(** [[a-zA-Z0-9._%+-]] *)
Definition local_char (c : ascii) : bool :=
  (alnum c || chr "." c || chr "_" c || chr "%" c || chr "+" c || chr "-" c)%bool.

(** [[a-zA-Z0-9.-]] *)
Definition domain_char (c : ascii) : bool :=
  (alnum c || chr "." c || chr "-" c)%bool.

(** Text before and after the first occurrence of [x]. *)
Fixpoint split_first (x : ascii) (l : list ascii) : option (list ascii * list ascii) :=
  match l with
  | [] => None
  | c :: rest =>
      if Ascii.eqb c x then Some ([], rest)
      else match split_first x rest with
           | Some (a, b) => Some (c :: a, b)
           | None => None
           end
  end.

(** Text before and after the last occurrence of [x]. *)
Definition split_last (x : ascii) (l : list ascii) : option (list ascii * list ascii) :=
  match split_first x (rev l) with
  | Some (a, b) => Some (rev b, rev a)
  | None => None
  end.

Definition nonempty_all (p : ascii -> bool) (l : list ascii) : bool :=
  (negb (Nat.eqb (List.length l) 0) && forallb p l)%bool.

Definition drop_final_newline (l : list ascii) : list ascii :=
  match rev l with
  | c :: rest => if Ascii.eqb c "010" then rev rest else l
  | [] => l
  end.

Definition matches_exact (l : list ascii) : bool :=
  match split_first "@" l with
  | None => false
  | Some (loc, rest) =>
      match split_last "." rest with
      | None => false
      | Some (dom, tld) =>
          (nonempty_all local_char loc
           && nonempty_all domain_char dom
           && Nat.leb 2 (List.length tld) && forallb alpha tld)%bool
      end
  end.

Definition test (s : string) : bool :=
  let l := list_ascii_of_string s in
  (matches_exact l || matches_exact (drop_final_newline l))%bool.

End EmailPattern.

(* ================================================================== *)
(** ** Documents *)

Module Customer.
Record t : Type := mk {
  email : Js.Value;
  createdAt : JsDate.Date;
  updatedAt : JsDate.Date
}.
End Customer.

(** [Partial<Customer>]: an absent [email] reads as [undefined]. *)
Module PartialCustomer.
Record t : Type := mk {
  email : Js.Value;
  createdAt : option JsDate.Date;
  updatedAt : option JsDate.Date
}.
End PartialCustomer.

Module Transaction.
Record t : Type := mk {
  email : Js.Value;
  paid_on : JsDate.Date;
  expires_on : JsDate.Date;
  service : string;
  amount : Js.Value
}.
End Transaction.

(** The argument of [createTransaction]; only [paid_on] has a fallback in
    the function, the other members are read as they are. *)
Module TransactionData.
Record t : Type := mk {
  email : Js.Value;
  paid_on : option JsDate.Date;
  expires_on : JsDate.Date;
  service : string;
  amount : Js.Value
}.
End TransactionData.

Module ActiveUser.
Record t : Type := mk {
  email : Js.Value;
  paid_on : JsDate.Date;
  expires_on : JsDate.Date;
  service : string
}.
End ActiveUser.

(* ================================================================== *)
(** ** What the driver writes

    The serializer of the driver writes a [Date] as its time value in a
    64-bit integer, and the NaN of an Invalid Date as 0; it writes
    [undefined] as null. *)

Module Bson.

Definition date (d : JsDate.Date) : JsDate.Date :=
  match d with
  | Some t => Some t
  | None => Some 0
  end.

Fixpoint value (v : Js.Value) : Js.Value :=
  match v with
  | Js.Undefined => Js.Null
  | Js.Arr items => Js.Arr (List.map value items)
  | Js.Obj fields => Js.Obj (List.map (fun '(k, x) => (k, value x)) fields)
  | _ => v
  end.

(** Documents and [$set] documents the driver serializes. *)
Class Serial (D : Type) : Type := serialize : D -> D.

End Bson.

(* ================================================================== *)
(** ** Collections: documents, indexes, validator *)

Module Mongo.

Record Index : Type := {
  key : list (string * Z);
  unique : bool
}.

Record Collection (D : Type) : Type := {
  (** the collection exists in the database: it comes to exist with its
      first index or its first document *)
  created : bool;
  docs : list D;
  indexes : list Index;
  validator : option (D -> bool)
}.
Arguments created {D}.
Arguments docs {D}.
Arguments indexes {D}.
Arguments validator {D}.

(** A name no command has created a collection for. *)
Definition empty {D : Type} : Collection D :=
  {| created := false; docs := []; indexes := []; validator := None |}.

(** Documents of the three collections are matched on [email]. *)
Class Keyed (D : Type) : Type := email_of : D -> Js.Value.

(** Equality of two key values, for the values an email member takes in
    the statements below: strings, and numbers, booleans and null.  A
    missing member counts as null.  Embedded documents and arrays, which
    the database compares member by member and indexes element by element,
    are not compared: no two of them count as equal. *)
Definition same_key (a b : Js.Value) : bool :=
  match a, b with
  | Js.Str x, Js.Str y => String.eqb x y
  | Js.Num (Js.Finite x), Js.Num (Js.Finite y) => Qeq_bool x y
  | Js.Num Js.NaN, Js.Num Js.NaN => true
  | Js.Num (Js.Infinity x), Js.Num (Js.Infinity y) => Bool.eqb x y
  | Js.Bool x, Js.Bool y => Bool.eqb x y
  | (Js.Undefined | Js.Null), (Js.Undefined | Js.Null) => true
  | _, _ => false
  end.

Definition is_email_key (i : Index) : bool :=
  match key i with
  | [(f, _)] => String.eqb f "email"
  | _ => false
  end.

Definition unique_email {D : Type} (c : Collection D) : bool :=
  existsb (fun i => (unique i && is_email_key i)%bool) (indexes c).

Definition accepts {D : Type} (c : Collection D) (d : D) : bool :=
  match validator c with
  | Some ok => ok d
  | None => true
  end.

Definition has_email {D : Type} `{Keyed D} (e : Js.Value) (c : Collection D) : bool :=
  existsb (fun d => same_key (email_of d) e) (docs c).

(** [createIndex] creates the collection when it is not there. *)
Definition createIndex {D : Type} (k : list (string * Z)) (u : bool)
    (c : Collection D) : Collection D :=
  {| created := true;
     docs := docs c;
     indexes := indexes c ++ [{| key := k; unique := u |}];
     validator := validator c |}.

Definition DocumentValidationFailure : Js.Error :=
  Js.MongoServerError 121 "Document failed validation".

Definition DuplicateKey : Js.Error :=
  Js.MongoServerError 11000 "E11000 duplicate key error collection".

Definition NamespaceNotFound : Js.Error :=
  Js.MongoServerError 26 "ns does not exist".

(** [collMod] with a validator: it changes a collection that exists and
    fails on a name that has none. *)
Definition collMod {D : Type} (v : D -> bool) (c : Collection D)
  : Js.Error + Collection D :=
  if created c
  then inr {| created := true; docs := docs c; indexes := indexes c;
              validator := Some v |}
  else inl NamespaceNotFound.

(** The collection with the documents [l]: a collection that has been
    written to exists. *)
Definition with_docs {D : Type} (l : list D) (c : Collection D) : Collection D :=
  {| created := true; docs := l; indexes := indexes c; validator := validator c |}.

(** [insertOne]: the validator is consulted first, then the unique index. *)
Definition insert {D : Type} `{Keyed D} (d : D) (c : Collection D)
  : Js.Error + Collection D :=
  if negb (accepts c d) then inl DocumentValidationFailure
  else if (unique_email c && has_email (email_of d) c)%bool then inl DuplicateKey
  else inr (with_docs (docs c ++ [d]) c).

(** First document with the given [email]. *)
Definition find {D : Type} `{Keyed D} (e : Js.Value) (c : Collection D) : option D :=
  List.find (fun d => same_key (email_of d) e) (docs c).

(** Replace the first document with the given [email] by its image. *)
Fixpoint replace_first {D : Type} `{Keyed D} (e : Js.Value) (f : D -> D) (l : list D)
  : list D :=
  match l with
  | [] => []
  | d :: rest =>
      if same_key (email_of d) e then f d :: rest
      else d :: replace_first e f rest
  end.

(** [updateOne({email: e}, {$set: ...})] where the update [f] leaves
    [email] alone: the changed document must pass the validator. *)
Definition update {D : Type} `{Keyed D} (e : Js.Value) (f : D -> D) (c : Collection D)
  : Js.Error + Collection D :=
  match find e c with
  | None => inr c
  | Some d =>
      if negb (accepts c (f d)) then inl DocumentValidationFailure
      else inr (with_docs (replace_first e f (docs c)) c)
  end.

End Mongo.

#[global] Instance Keyed_Customer : Mongo.Keyed Customer.t := Customer.email.
#[global] Instance Keyed_Transaction : Mongo.Keyed Transaction.t := Transaction.email.
#[global] Instance Keyed_ActiveUser : Mongo.Keyed ActiveUser.t := ActiveUser.email.

#[global] Instance Serial_Customer : Bson.Serial Customer.t :=
  fun c =>
    {| Customer.email := Bson.value (Customer.email c);
       Customer.createdAt := Bson.date (Customer.createdAt c);
       Customer.updatedAt := Bson.date (Customer.updatedAt c) |}.

#[global] Instance Serial_Transaction : Bson.Serial Transaction.t :=
  fun t =>
    {| Transaction.email := Bson.value (Transaction.email t);
       Transaction.paid_on := Bson.date (Transaction.paid_on t);
       Transaction.expires_on := Bson.date (Transaction.expires_on t);
       Transaction.service := Transaction.service t;
       Transaction.amount := Bson.value (Transaction.amount t) |}.

#[global] Instance Serial_ActiveUser : Bson.Serial ActiveUser.t :=
  fun a =>
    {| ActiveUser.email := Bson.value (ActiveUser.email a);
       ActiveUser.paid_on := Bson.date (ActiveUser.paid_on a);
       ActiveUser.expires_on := Bson.date (ActiveUser.expires_on a);
       ActiveUser.service := ActiveUser.service a |}.

(* ================================================================== *)
(** ** Validators installed by [createValidationRules] *)

Definition valid_email (v : Js.Value) : bool :=
  match v with
  | Js.Str s => EmailPattern.test s
  | _ => false
  end.

(** [bsonType: "number", minimum: 0] *)
Definition valid_amount (v : Js.Value) : bool :=
  match v with
  | Js.Num (Js.Finite q) => Qle_bool 0 q
  | Js.Num (Js.Infinity negative) => negb negative
  | _ => false
  end.

Definition customer_schema (c : Customer.t) : bool :=
  valid_email (Customer.email c).

Definition transaction_schema (t : Transaction.t) : bool :=
  (valid_email (Transaction.email t) && valid_amount (Transaction.amount t))%bool.

Definition active_schema (a : ActiveUser.t) : bool :=
  valid_email (ActiveUser.email a).

(* ================================================================== *)
(** ** The world the server runs in *)

Inductive Level : Type := Info | Err.

(** One [console.log] or [console.error] call: the literal text and the
    values printed with it. *)
Record LogLine : Type := {
  level : Level;
  text : string;
  args : list Js.Value
}.

(** One outbound request to the payment gateway. *)
Record GatewayCall : Type := {
  endpoint : string;
  method : string;
  payload : Js.Value
}.

Record World : Type := {
  customers : Mongo.Collection Customer.t;
  transactions : Mongo.Collection Transaction.t;
  active : Mongo.Collection ActiveUser.t;
  (** the reading of [new Date()] *)
  clock : Z;
  (** what the database does with the coming commands, first command
      first: [Some e] makes the command fail with [e] and change nothing;
      [None], or an exhausted list, lets it run *)
  faults : list (option Js.Error);
  (** what the gateway answers to the coming requests: the body of a 2xx
      response, or the message of a failure *)
  replies : list (string + Js.Value);
  (** requests sent to the gateway, oldest first *)
  calls : list GatewayCall;
  console : list LogLine;
  (** rejections of promises nobody awaits *)
  unhandled : list Js.Error
}.

Definition set_customers (c : Mongo.Collection Customer.t) (w : World) : World :=
  {| customers := c; transactions := transactions w; active := active w;
     clock := clock w; faults := faults w; replies := replies w;
     calls := calls w; console := console w; unhandled := unhandled w |}.

Definition set_transactions (c : Mongo.Collection Transaction.t) (w : World) : World :=
  {| customers := customers w; transactions := c; active := active w;
     clock := clock w; faults := faults w; replies := replies w;
     calls := calls w; console := console w; unhandled := unhandled w |}.

Definition set_active (c : Mongo.Collection ActiveUser.t) (w : World) : World :=
  {| customers := customers w; transactions := transactions w; active := c;
     clock := clock w; faults := faults w; replies := replies w;
     calls := calls w; console := console w; unhandled := unhandled w |}.

Definition set_clock (t : Z) (w : World) : World :=
  {| customers := customers w; transactions := transactions w; active := active w;
     clock := t; faults := faults w; replies := replies w;
     calls := calls w; console := console w; unhandled := unhandled w |}.

Definition set_faults (f : list (option Js.Error)) (w : World) : World :=
  {| customers := customers w; transactions := transactions w; active := active w;
     clock := clock w; faults := f; replies := replies w;
     calls := calls w; console := console w; unhandled := unhandled w |}.

Definition set_replies (r : list (string + Js.Value)) (w : World) : World :=
  {| customers := customers w; transactions := transactions w; active := active w;
     clock := clock w; faults := faults w; replies := r;
     calls := calls w; console := console w; unhandled := unhandled w |}.

Definition add_call (c : GatewayCall) (w : World) : World :=
  {| customers := customers w; transactions := transactions w; active := active w;
     clock := clock w; faults := faults w; replies := replies w;
     calls := calls w ++ [c]; console := console w; unhandled := unhandled w |}.

Definition add_line (l : LogLine) (w : World) : World :=
  {| customers := customers w; transactions := transactions w; active := active w;
     clock := clock w; faults := faults w; replies := replies w;
     calls := calls w; console := console w ++ [l]; unhandled := unhandled w |}.

Definition add_unhandled (e : Js.Error) (w : World) : World :=
  {| customers := customers w; transactions := transactions w; active := active w;
     clock := clock w; faults := faults w; replies := replies w;
     calls := calls w; console := console w; unhandled := unhandled w ++ [e] |}.

(** A server with nothing stored, nothing configured, nothing pending. *)
Definition boot : World :=
  {| customers := Mongo.empty; transactions := Mongo.empty; active := Mongo.empty;
     clock := 0; faults := []; replies := []; calls := [];
     console := []; unhandled := [] |}.

(* ================================================================== *)
(** ** Effects: state, exceptions *)

Definition Eff (A : Type) : Type := World -> (Js.Error + A) * World.

Definition ret {A : Type} (a : A) : Eff A := fun w => (inr a, w).

Definition throw {A : Type} (e : Js.Error) : Eff A := fun w => (inl e, w).

Definition bind {A B : Type} (m : Eff A) (k : A -> Eff B) : Eff B :=
  fun w =>
    match m w with
    | (inl e, w') => (inl e, w')
    | (inr a, w') => k a w'
    end.

Declare Scope eff_scope.
Delimit Scope eff_scope with eff.
Notation "x <- m ;; k" := (bind m (fun x => k))
  (at level 61, m at next level, right associativity) : eff_scope.
Notation "m ;; k" := (bind m (fun _ => k))
  (at level 61, right associativity) : eff_scope.
Local Open Scope eff_scope.

(** [try { body } catch (error) { handler }] *)
Definition try_catch {A : Type} (body : Eff A) (handler : Js.Error -> Eff A) : Eff A :=
  fun w =>
    match body w with
    | (inl e, w') => handler e w'
    | (inr a, w') => (inr a, w')
    end.

(** Calling an [async] function without awaiting it: the caller goes on
    whatever becomes of the promise. *)
Definition detach (m : Eff unit) : Eff unit :=
  fun w =>
    match m w with
    | (inl e, w') => (inr tt, add_unhandled e w')
    | (inr _, w') => (inr tt, w')
    end.

Definition lift {A : Type} (r : Js.Error + A) : Eff A :=
  match r with
  | inl e => throw e
  | inr a => ret a
  end.

(** [new Date()] *)
Definition now : Eff JsDate.Date := fun w => (inr (Some (clock w)), w).

Definition console_log (t : string) (a : list Js.Value) : Eff unit :=
  fun w => (inr tt, add_line {| level := Info; text := t; args := a |} w).

Definition console_error (t : string) (a : list Js.Value) : Eff unit :=
  fun w => (inr tt, add_line {| level := Err; text := t; args := a |} w).

(** A database command: the next entry of [faults] decides whether it
    runs. *)
Definition command {A : Type} (run : World -> Js.Error + A * World) : Eff A :=
  fun w =>
    let w1 := set_faults (tl (faults w)) w in
    match hd None (faults w) with
    | Some e => (inl e, w1)
    | None =>
        match run w1 with
        | inl e => (inl e, w1)
        | inr (a, w2) => (inr a, w2)
        end
    end.

(** A collection handle, as the variables [customersCollection],
    [transactionsCollection] and [active_users] of the program. *)
Record Handle (D : Type) : Type := {
  read : World -> Mongo.Collection D;
  write : Mongo.Collection D -> World -> World
}.
Arguments read {D}.
Arguments write {D}.

Definition customersCollection : Handle Customer.t :=
  {| read := customers; write := set_customers |}.
Definition transactionsCollection : Handle Transaction.t :=
  {| read := transactions; write := set_transactions |}.
Definition active_users : Handle ActiveUser.t :=
  {| read := active; write := set_active |}.

(** [h.insertOne(d)]: the document goes through the serializer. *)
Definition insertOne {D : Type} `{Mongo.Keyed D} `{Bson.Serial D}
    (h : Handle D) (d : D) : Eff unit :=
  command (fun w =>
    match Mongo.insert (Bson.serialize d) (read h w) with
    | inl e => inl e
    | inr c => inr (tt, write h c w)
    end).

(** [h.updateOne({ email: e }, { $set: u })], where [set u] puts the
    members of [u] into a document: the filter and the [$set] document go
    through the serializer. *)
Definition updateOne {D U : Type} `{Mongo.Keyed D} `{Bson.Serial U}
    (h : Handle D) (e : Js.Value) (u : U) (set : U -> D -> D) : Eff unit :=
  command (fun w =>
    match Mongo.update (Bson.value e) (set (Bson.serialize u)) (read h w) with
    | inl err => inl err
    | inr c => inr (tt, write h c w)
    end).

(** [h.findOne({ email: e })] *)
Definition findOne {D : Type} `{Mongo.Keyed D} (h : Handle D) (e : Js.Value)
  : Eff (option D) :=
  command (fun w => inr (Mongo.find (Bson.value e) (read h w), w)).

Definition createIndex {D : Type} (h : Handle D) (k : list (string * Z)) (u : bool)
  : Eff unit :=
  command (fun w => inr (tt, write h (Mongo.createIndex k u (read h w)) w)).

(** [db.command({ collMod: ..., validator: ... })] *)
Definition collMod {D : Type} (h : Handle D) (v : D -> bool) : Eff unit :=
  command (fun w =>
    match Mongo.collMod v (read h w) with
    | inl e => inl e
    | inr c => inr (tt, write h c w)
    end).

(* ================================================================== *)
(** ** Start-up: indexes and validators *)

Definition createIndexes : Eff unit :=
  try_catch
    (createIndex customersCollection [("email", 1)] true ;;
     createIndex transactionsCollection [("email", 1)] false ;;
     createIndex transactionsCollection [("paid_on", -1)] false ;;
     createIndex transactionsCollection [("expires_on", 1)] false ;;
     createIndex transactionsCollection [("service", 1)] false ;;
     createIndex transactionsCollection [("email", 1); ("paid_on", -1)] false ;;
     createIndex transactionsCollection [("service", 1); ("expires_on", 1)] false ;;
     createIndex active_users [("email", 1)] false ;;
     createIndex active_users [("paid_on", -1)] false ;;
     createIndex active_users [("expires_on", 1)] false ;;
     createIndex active_users [("service", 1)] false ;;
     createIndex active_users [("email", 1); ("service", 1)] false ;;
     createIndex active_users [("service", 1); ("expires_on", 1)] false ;;
     createIndex active_users [("expires_on", 1); ("paid_on", -1)] false ;;
     console_log "Database indexes created successfully" [])
    (fun error => console_error "Error creating indexes:" [Js.Str (Js.message error)]).

Definition createValidationRules : Eff unit :=
  try_catch
    (collMod customersCollection customer_schema ;;
     collMod transactionsCollection transaction_schema ;;
     collMod active_users active_schema ;;
     console_log "Validation rules created successfully" [])
    (fun error => console_error "Error creating validation rules:" [Js.Str (Js.message error)]).

(** The part of [connectDB] that prepares the collections. *)
Definition connectDB : Eff unit :=
  createIndexes ;;
  createValidationRules ;;
  console_log "Database and collections initialized successfully" [].

(** The server after a start-up in which every command went through. *)
Definition started : World := snd (connectDB boot).

(** Indexes and validators of the three collections. *)
Definition SameSetup (w v : World) : Prop :=
  Mongo.indexes (customers w) = Mongo.indexes (customers v) /\
  Mongo.validator (customers w) = Mongo.validator (customers v) /\
  Mongo.indexes (transactions w) = Mongo.indexes (transactions v) /\
  Mongo.validator (transactions w) = Mongo.validator (transactions v) /\
  Mongo.indexes (active w) = Mongo.indexes (active v) /\
  Mongo.validator (active w) = Mongo.validator (active v).

(** [w] is set up as the program sets its database up. *)
Definition Installed (w : World) : Prop := SameSetup w started.

(* ================================================================== *)
(** ** Database helper functions *)

(** The [$set] document built in [createOrUpdateCustomer]. *)
Module CustomerUpdate.
Record t : Type := mk {
  email : option Js.Value;
  createdAt : option JsDate.Date;
  updatedAt : option JsDate.Date
}.

(** [{ ...customerData, updatedAt: now }] *)
Definition spread (customerData : PartialCustomer.t) (now : JsDate.Date) : t :=
  {| email := Some (PartialCustomer.email customerData);
     createdAt := PartialCustomer.createdAt customerData;
     updatedAt := Some now |}.

Definition delete_email (u : t) : t :=
  {| email := None; createdAt := createdAt u; updatedAt := updatedAt u |}.

Definition delete_createdAt (u : t) : t :=
  {| email := email u; createdAt := None; updatedAt := updatedAt u |}.

Definition or_else {A : Type} (o : option A) (a : A) : A :=
  match o with Some x => x | None => a end.

(** [$set]: the members present replace those of the document. *)
Definition apply (u : t) (c : Customer.t) : Customer.t :=
  {| Customer.email := or_else (email u) (Customer.email c);
     Customer.createdAt := or_else (createdAt u) (Customer.createdAt c);
     Customer.updatedAt := or_else (updatedAt u) (Customer.updatedAt c) |}.
End CustomerUpdate.

#[global] Instance Serial_CustomerUpdate : Bson.Serial CustomerUpdate.t :=
  fun u =>
    {| CustomerUpdate.email := option_map Bson.value (CustomerUpdate.email u);
       CustomerUpdate.createdAt := option_map Bson.date (CustomerUpdate.createdAt u);
       CustomerUpdate.updatedAt := option_map Bson.date (CustomerUpdate.updatedAt u) |}.

(** [error.code === 11000] *)
Definition is_duplicate_key (error : Js.Error) : bool :=
  match Js.code error with
  | Some c => c =? 11000
  | None => false
  end.

Definition createOrUpdateCustomer (customerData : PartialCustomer.t)
  : Eff (option Customer.t) :=
  now <- now ;;
  let customer :=
    {| Customer.email := PartialCustomer.email customerData;
       Customer.createdAt := now;
       Customer.updatedAt := now |} in
  try_catch
    (insertOne customersCollection customer ;;
     console_log "Customer created: " [Customer.email customer] ;;
     ret (Some customer))
    (fun error =>
       if is_duplicate_key error then
         let updateData := CustomerUpdate.spread customerData now in
         let updateData := CustomerUpdate.delete_email updateData in
         let updateData := CustomerUpdate.delete_createdAt updateData in
         updateOne customersCollection (PartialCustomer.email customerData)
           updateData CustomerUpdate.apply ;;
         updatedCustomer <- findOne customersCollection (PartialCustomer.email customerData) ;;
         console_log "Customer updated: " [PartialCustomer.email customerData] ;;
         ret updatedCustomer
       else throw error).

(** [$set: { paid_on, expires_on, service }] on an active-user document;
    the [$set] document is the argument [userData] without its [email]. *)
Definition set_window (userData : ActiveUser.t) (a : ActiveUser.t) : ActiveUser.t :=
  {| ActiveUser.email := ActiveUser.email a;
     ActiveUser.paid_on := ActiveUser.paid_on userData;
     ActiveUser.expires_on := ActiveUser.expires_on userData;
     ActiveUser.service := ActiveUser.service userData |}.

(** The caller supplies every member of [userData]. *)
Definition createOrUpdateActiveUser (userData : ActiveUser.t)
  : Eff (option ActiveUser.t) :=
  _ <- now ;;
  let activeUser :=
    {| ActiveUser.email := ActiveUser.email userData;
       ActiveUser.paid_on := ActiveUser.paid_on userData;
       ActiveUser.expires_on := ActiveUser.expires_on userData;
       ActiveUser.service := ActiveUser.service userData |} in
  try_catch
    (insertOne active_users activeUser ;;
     console_log "Active user created: " [ActiveUser.email activeUser] ;;
     ret (Some activeUser))
    (fun error =>
       if is_duplicate_key error then
         updateOne active_users (ActiveUser.email userData) userData set_window ;;
         updatedUser <- findOne active_users (ActiveUser.email userData) ;;
         console_log "Active user updated: " [ActiveUser.email userData] ;;
         ret updatedUser
       else throw error).

Definition createTransaction (transactionData : TransactionData.t)
  : Eff Transaction.t :=
  now <- now ;;
  let transaction :=
    {| Transaction.email := TransactionData.email transactionData;
       Transaction.paid_on :=
         match TransactionData.paid_on transactionData with
         | Some d => d
         | None => now
         end;
       Transaction.expires_on := TransactionData.expires_on transactionData;
       Transaction.service := TransactionData.service transactionData;
       Transaction.amount := TransactionData.amount transactionData |} in
  insertOne transactionsCollection transaction ;;
  ret transaction.

(* ================================================================== *)
(** ** Webhook handling *)

Record Response : Type := {
  status : Z;
  success : bool;
  message : string;
  data : option Js.Value
}.

Section Server.
Variable rt : Runtime.

(** [paymentData.customer.email] *)
Definition customer_email (paymentData : Js.Value) : Eff Js.Value :=
  customer <- lift (Js.get paymentData "customer") ;;
  lift (Js.get customer "email").

Definition handleSuccessfulPayment (paymentData : Js.Value) : Eff unit :=
  try_catch
    (paid_at <- lift (Js.get paymentData "paid_at") ;;
     let paidDate := newDate rt paid_at in
     amount <- lift (Js.get paymentData "amount") ;;
     let expiryDate := calculateExpiryDate rt amount paidDate in
     email <- customer_email paymentData ;;
     createOrUpdateCustomer
       {| PartialCustomer.email := email;
          PartialCustomer.createdAt := None;
          PartialCustomer.updatedAt := None |} ;;
     email <- customer_email paymentData ;;
     amount <- lift (Js.get paymentData "amount") ;;
     createTransaction
       {| TransactionData.email := email;
          TransactionData.paid_on := Some paidDate;
          TransactionData.expires_on := expiryDate;
          TransactionData.service := "SKYNET";
          TransactionData.amount := amount |} ;;
     email <- customer_email paymentData ;;
     createOrUpdateActiveUser
       {| ActiveUser.email := email;
          ActiveUser.paid_on := paidDate;
          ActiveUser.expires_on := expiryDate;
          ActiveUser.service := "SKYNET" |} ;;
     ret tt)
    (fun error =>
       console_error "Error processing successful payment:" [Js.Str (Js.message error)]).

Definition handleFailedPayment (paymentData : Js.Value) : Eff unit :=
  reference <- lift (Js.get paymentData "reference") ;;
  amount <- lift (Js.get paymentData "amount") ;;
  customer <- customer_email paymentData ;;
  console_log "Processing failed payment:"
    [Js.Obj [("reference", reference); ("amount", amount); ("customer", customer)]].

(** [app.post("/api/webhook/paystack", ...)] on the parsed body. *)
Definition webhook (body : Js.Value) : Eff Response :=
  try_catch
    (let event := body in
     kind <- lift (Js.get event "event") ;;
     (if Js.strict_eq_str kind "charge.success" then
        d <- lift (Js.get event "data") ;;
        console_log "Payment successful:" [d] ;;
        d <- lift (Js.get event "data") ;;
        detach (handleSuccessfulPayment d)
      else if Js.strict_eq_str kind "charge.failed" then
        d <- lift (Js.get event "data") ;;
        console_log "Payment failed:" [d] ;;
        d <- lift (Js.get event "data") ;;
        handleFailedPayment d
      else if Js.strict_eq_str kind "transfer.success" then
        d <- lift (Js.get event "data") ;;
        console_log "Transfer successful:" [d]
      else if Js.strict_eq_str kind "transfer.failed" then
        d <- lift (Js.get event "data") ;;
        console_log "Transfer failed:" [d]
      else
        console_log "Unhandled event:" [kind]) ;;
     ret {| status := 200; success := true;
            message := "Webhook received successfully"; data := None |})
    (fun error =>
       console_error "Webhook error:" [Js.Str (Js.message error)] ;;
       ret {| status := 500; success := false;
              message := Js.message error; data := None |}).

(* ---------------------------------------------------------------- *)
(** ** Payment initialisation *)

(** [typeof amount === "string" ? parseFloat(amount) : amount] *)
Definition numericAmount (amount : Js.Value) : Js.Value :=
  match amount with
  | Js.Str s => Js.Num (parseFloat rt s)
  | _ => amount
  end.

(** [isNaN(v) || v <= 0]: both tests convert [v] to a number, the second
    only when the first is false. *)
Definition not_positive (v : Js.Value) : Eff bool :=
  n <- lift (ToNumber rt v) ;;
  if Js.isNaN n then ret true
  else
    n <- lift (ToNumber rt v) ;;
    ret (Js.le_zero n).

(** [paystackAPI(endpoint, method, data)]: one request to the gateway;
    a failure is rethrown as a plain [Error] with its message. *)
Definition paystackAPI (endpoint method : string) (data : Js.Value) : Eff Js.Value :=
  fun w =>
    let w1 := add_call {| endpoint := endpoint; method := method; payload := data |}
                (set_replies (tl (replies w)) w) in
    match hd (inl "Network Error") (replies w) with
    | inl m => (inl (Js.PlainError m), w1)
    | inr body => (inr body, w1)
    end.

(** [app.post("/api/payment/initialize", ...)] on the parsed body.  The
    body parser delivers an object or an array; of a body that is
    [undefined] or [null] only the TypeError of the destructuring is
    modelled, not its text. *)
Definition initialize (body : Js.Value) : Eff Response :=
  try_catch
    (email <- lift (Js.get body "email") ;;
     amount <- lift (Js.get body "amount") ;;
     if (negb (Js.truthy email) || negb (Js.truthy amount))%bool then
       ret {| status := 400; success := false;
              message := "Email and amount are required"; data := None |}
     else
       let numericAmount := numericAmount amount in
       refused <- not_positive numericAmount ;;
       if refused then
         ret {| status := 400; success := false;
                message := "Amount must be a valid positive number"; data := None |}
       else
         let paymentData :=
           Js.Obj [("email", email); ("amount", numericAmount)] in
         result <- paystackAPI "/transaction/initialize" "POST" paymentData ;;
         d <- lift (Js.get result "data") ;;
         ret {| status := 200; success := true;
                message := "Payment initialized successfully"; data := Some d |})
    (fun error =>
       console_error "Initialize payment error:" [Js.Str (Js.message error)] ;;
       ret {| status := 500; success := false;
              message := Js.message error; data := None |}).
End Server.

(** Two hosts, one in UTC and one in a zone with summer time, for the
    examples.  Their built-ins are those of JavaScript on the inputs the
    examples give them and are not modelled further: [new Date(v)] reads a
    string of the form YYYY-MM-DDTHH:mm:ss[.sss]Z with fields in range, a
    number of milliseconds, [null], a boolean and [undefined], and gives an
    Invalid Date for anything else; [parseFloat] reads a leading run of
    decimal digits; [Number(s)] reads a string of decimal digits and the
    empty string; [String(n)] writes a whole number. *)
Module Host.
Definition digit (c : ascii) : option Z :=
  if EmailPattern.between "0" "9" c
  then Some (Z.of_N (N_of_ascii c) - 48)
  else None.

Fixpoint digits (acc : option Z) (l : list ascii) : option Z :=
  match l with
  | [] => acc
  | c :: rest =>
      match digit c with
      | Some d =>
          digits (Some (10 * match acc with Some a => a | None => 0 end + d)) rest
      | None => acc
      end
  end.

Definition parse_digits (s : string) : Js.Number :=
  match digits None (list_ascii_of_string s) with
  | Some z => Js.Finite (inject_Z z)
  | None => Js.NaN
  end.

(** Exactly [n] digits at the head of [l]. *)
Fixpoint field (n : nat) (acc : Z) (l : list ascii) : option (Z * list ascii) :=
  match n with
  | O => Some (acc, l)
  | S n' =>
      match l with
      | c :: rest =>
          match digit c with
          | Some d => field n' (10 * acc + d) rest
          | None => None
          end
      | [] => None
      end
  end.

Definition expect (x : ascii) (l : list ascii) : option (list ascii) :=
  match l with
  | c :: rest => if Ascii.eqb c x then Some rest else None
  | [] => None
  end.

Definition DaysInMonth (y m : Z) : Z :=
  if m =? 11 then 31
  else JsDate.MonthStart (JsDate.IsLeapYear y) (m + 1)
       - JsDate.MonthStart (JsDate.IsLeapYear y) m.

Definition parse_iso (l : list ascii) : JsDate.Date :=
  match field 4 0 l with None => None | Some (y, l) =>
  match expect "-" l with None => None | Some l =>
  match field 2 0 l with None => None | Some (mo, l) =>
  match expect "-" l with None => None | Some l =>
  match field 2 0 l with None => None | Some (d, l) =>
  match expect "T" l with None => None | Some l =>
  match field 2 0 l with None => None | Some (h, l) =>
  match expect ":" l with None => None | Some l =>
  match field 2 0 l with None => None | Some (mi, l) =>
  match expect ":" l with None => None | Some l =>
  match field 2 0 l with None => None | Some (sec, l) =>
  let fraction :=
    match expect "." l with
    | Some l' => field 3 0 l'
    | None => Some (0, l)
    end in
  match fraction with None => None | Some (ms, l) =>
  match expect "Z" l with
  | Some [] =>
      if ((1 <=? mo) && (mo <=? 12) && (1 <=? d) && (d <=? DaysInMonth y (mo - 1))
          && (h <=? 23) && (mi <=? 59) && (sec <=? 59))%bool
      then JsDate.TimeClip
             (JsDate.MakeDate (JsDate.MakeDay y (mo - 1) d)
                (h * 3600000 + mi * 60000 + sec * 1000 + ms))
      else None
  | _ => None
  end end end end end end end end end end end end end.

Definition date_of (v : Js.Value) : JsDate.Date :=
  match v with
  | Js.Str s => parse_iso (list_ascii_of_string s)
  | Js.Num (Js.Finite q) =>
      JsDate.TimeClip (if Qle_bool 0 q then Qfloor q else Qceiling q)
  | Js.Null => Some 0
  | Js.Bool b => Some (if b then 1 else 0)
  | _ => None
  end.

Definition number_of (s : string) : Js.Number :=
  match list_ascii_of_string s with
  | [] => Js.Finite 0
  | l => if forallb (fun c => match digit c with Some _ => true | None => false end) l
         then parse_digits s
         else Js.NaN
  end.

Fixpoint decimal (fuel : nat) (z : Z) (acc : string) : string :=
  match fuel with
  | O => acc
  | S fuel' =>
      let acc' := String (ascii_of_N (Z.to_N (48 + z mod 10))) acc in
      if z / 10 =? 0 then acc' else decimal fuel' (z / 10) acc'
  end.

Definition string_of (n : Js.Number) : string :=
  match n with
  | Js.NaN => "NaN"
  | Js.Infinity negative => if negative then "-Infinity" else "Infinity"
  | Js.Finite q =>
      if Qfloor q <? 0 then ("-" ++ decimal 400 (- Qfloor q) "")%string
      else decimal 400 (Qfloor q) ""
  end.

Definition utc : Runtime :=
  {| LocalTZA := fun _ _ => 0; newDate := date_of; parseFloat := parse_digits;
     stringToNumber := number_of; numberToString := string_of |}.





End Host.

(* ================================================================== *)
(** ** Vocabulary of the statements *)

(** The value [v] is the number [k]. *)
Definition is_amount (v : Js.Value) (k : Z) : Prop :=
  exists q, v = Js.Num (Js.Finite q) /\ Qeq q (inject_Z k).

(** The price table as the specification words it: three tiers, and one
    day for an amount that matches none. *)
Inductive PriceTable (amount : Js.Value) : Z -> Prop :=
| tier_small : is_amount amount 500 -> PriceTable amount 1
| tier_mid : is_amount amount 11000 -> PriceTable amount 30
| tier_large : is_amount amount 25000 -> PriceTable amount 90
| tier_default :
    ~ is_amount amount 500 -> ~ is_amount amount 11000 -> ~ is_amount amount 25000 ->
    PriceTable amount 1.

(** The instant [n] days after [t] on the calendar of the host: the local
    reading of [t] moved [n] days on and read back as an instant. *)
Definition local_shift (rt : Runtime) (t n : Z) : Z :=
  JsDate.UTC (LocalTZA rt) (JsDate.addDays (JsDate.LocalTime (LocalTZA rt) t) n).

(** The offset of the host at the instant [t] is its offset [n] days on. *)
Definition SameOffset (rt : Runtime) (t n : Z) : Prop :=
  LocalTZA rt (JsDate.addDays (JsDate.LocalTime (LocalTZA rt) t) n) false
  = LocalTZA rt t true.

(** The amount is none of the three of the price table. *)
Definition unlisted (amount : Js.Value) : Prop :=
  ~ is_amount amount 500 /\ ~ is_amount amount 11000 /\ ~ is_amount amount 25000.

(** [n > 0] on a number. *)
Definition gt_zero (n : Js.Number) : Prop :=
  match n with
  | Js.Finite q => Qlt 0 q
  | Js.Infinity negative => negative = false
  | Js.NaN => False
  end.


(** Number of documents of a collection with a given email. *)
Definition count {D : Type} `{Mongo.Keyed D} (e : Js.Value) (c : Mongo.Collection D) : nat :=
  List.length (List.filter (fun d => Mongo.same_key (Mongo.email_of d) e) (Mongo.docs c)).

(** The three collections, without log, clock or pending outcomes. *)
Definition stored (w : World)
  : list Customer.t * list Transaction.t * list ActiveUser.t :=
  (Mongo.docs (customers w), Mongo.docs (transactions w), Mongo.docs (active w)).

(** Indexes and validators as far as the helper functions depend on them;
    [u] tells whether the [active] collection has a unique index on
    [email]. *)
Record Setup (u : bool) (w : World) : Prop := {
  customers_unique : Mongo.unique_email (customers w) = true;
  customers_validator : Mongo.validator (customers w) = Some customer_schema;
  transactions_unique : Mongo.unique_email (transactions w) = false;
  transactions_validator : Mongo.validator (transactions w) = Some transaction_schema;
  active_unique : Mongo.unique_email (active w) = u;
  active_validator : Mongo.validator (active w) = Some active_schema
}.

(** No command is going to fail for a reason outside the program. *)
Definition Quiet (w : World) : Prop := faults w = [].

(** A [charge.success] payload as the gateway sends it. *)
Definition payment (reference email : string) (amount paid_at : Js.Value) : Js.Value :=
  Js.Obj [("reference", Js.Str reference);
          ("amount", amount);
          ("paid_at", paid_at);
          ("customer", Js.Obj [("email", Js.Str email)])].

Definition event (kind : string) (data : Js.Value) : Js.Value :=
  Js.Obj [("event", Js.Str kind); ("data", data)].

(** The integer [t] as a JSON number. *)
Definition jsnum (t : Z) : Js.Value := Js.Num (Js.Finite (inject_Z t)).

(** What the customer update does to a stored customer at clock [t]. *)
Definition touch (t : Z) : Customer.t -> Customer.t :=
  CustomerUpdate.apply
    {| CustomerUpdate.email := None;
       CustomerUpdate.createdAt := None;
       CustomerUpdate.updatedAt := Some (Some t) |}.

Definition line (l : Level) (t : string) (a : list Js.Value) : LogLine :=
  {| level := l; text := t; args := a |}.

(** The payload [d] names customer [s], amount [a] and payment time [p]. *)
Definition Carries (d : Js.Value) (s : string) (a p : Js.Value) : Prop :=
  Js.get d "paid_at" = inr p /\
  Js.get d "amount" = inr a /\
  exists c, Js.get d "customer" = inr c /\ Js.get c "email" = inr (Js.Str s).

(** The customer documents after an upsert of [s] at clock [t]. *)
Definition customers_after (s : string) (t : Z) (c : Mongo.Collection Customer.t)
  : list Customer.t :=
  if Mongo.has_email (Js.Str s) c
  then Mongo.replace_first (Js.Str s) (touch t) (Mongo.docs c)
  else Mongo.docs c ++ [Customer.mk (Js.Str s) (Some t) (Some t)].

(** The active-user documents after an upsert of [a]; [u] tells whether
    [email] is unique in the collection. *)
Definition active_after (u : bool) (s : string) (a : ActiveUser.t)
    (c : Mongo.Collection ActiveUser.t) : list ActiveUser.t :=
  if (u && Mongo.has_email (Js.Str s) c)%bool
  then Mongo.replace_first (Js.Str s) (set_window a) (Mongo.docs c)
  else Mongo.docs c ++ [a].

(** The body [body] is a [charge.success] event for customer [s], amount
    [a], payment time [p]. *)
Definition Succeeded (body : Js.Value) (s : string) (a p : Js.Value) : Prop :=
  Js.get body "event" = inr (Js.Str "charge.success") /\
  exists d, Js.get body "data" = inr d /\ Carries d s a p.

(** The world after the webhook endpoint has handled [body]. *)
Definition deliver (rt : Runtime) (body : Js.Value) (w : World) : World :=
  snd (webhook rt body w).

(** The acknowledgment of the webhook endpoint. *)
Definition acknowledged : Response :=
  {| status := 200; success := true;
     message := "Webhook received successfully"; data := None |}.

(** The line the reconciler logs for an error. *)
Definition reconcile_error (e : Js.Error) : LogLine :=
  line Err "Error processing successful payment:" [Js.Str (Js.message e)].

(** Sample deliveries; 2024-01-01T00:00:00Z is instant 1704067200000. *)
Module Sample.
Definition ada : string := "ada@example.com".
Definition T1 : Z := 1704067200000.
Definition T2 : Z := 1704153600000.

Definition at_T1 : Js.Value := Js.Str "2024-01-01T00:00:00.000Z".
Definition at_T2 : Js.Value := Js.Str "2024-01-02T00:00:00.000Z".

Definition first_payment : Js.Value :=
  event "charge.success" (payment "ref_001" ada (jsnum 500) at_T1).

Definition second_payment : Js.Value :=
  event "charge.success" (payment "ref_002" ada (jsnum 11000) at_T2).

Definition negative_payment : Js.Value :=
  event "charge.success" (payment "ref_003" ada (jsnum (-100)) at_T1).

(** A [charge.failed] event whose data names no customer. *)
Definition failed_without_customer : Js.Value :=
  event "charge.failed" (Js.Obj [("reference", Js.Str "ref_004"); ("amount", jsnum 500)]).

(** The database is unreachable for the next command. *)
Definition unreachable : Js.Error := Js.MongoServerError 6 "HostUnreachable".
End Sample.

(** Whatever [m] does, the world it leaves is [R]-related to the world it
    started in. *)
Definition Keeps (R : World -> World -> Prop) {A : Type} (m : Eff A) : Prop :=
  forall w, R w (snd (m w)).

(** The three collections are the same in both worlds. *)
Definition same_store (w w' : World) : Prop :=
  customers w' = customers w /\ transactions w' = transactions w /\ active w' = active w.

Definition same_ledger_and_active (w w' : World) : Prop :=
  transactions w' = transactions w /\ active w' = active w.


Definition same_unhandled (w w' : World) : Prop := unhandled w' = unhandled w.

(** The server of [connectDB] with a unique index on [active.email] added. *)
Definition started_unique : World :=
  snd (createIndex active_users [("email", 1)] true started).

(* ================================================================== *)
(** ** Payment verification *)

(** [app.get("/api/payment/verify/:reference", ...)] on the route
    parameter. *)
Definition verify (reference : string) : Eff Response :=
  try_catch
    (if String.eqb reference "" then
       ret {| status := 400; success := false;
              message := "Payment reference is required"; data := None |}
     else
       result <- paystackAPI ("/transaction/verify/" ++ reference)%string "GET" Js.Null ;;
       d <- lift (Js.get result "data") ;;
       ret {| status := 200; success := true;
              message := "Payment verification successful"; data := Some d |})
    (fun error =>
       console_error "Verify payment error:" [Js.Str (Js.message error)] ;;
       ret {| status := 500; success := false;
              message := Js.message error; data := None |}).

(* ================================================================== *)
(** ** The server over time *)

(** One thing that happens to a running server: a request to one of its
    endpoints, or a move of its surroundings (the clock, the outcome of
    coming database commands, the answers of the gateway). *)
Inductive Step (rt : Runtime) : World -> World -> Prop :=
| step_webhook body w : Step rt w (deliver rt body w)
| step_initialize body w : Step rt w (snd (initialize rt body w))
| step_verify reference w : Step rt w (snd (verify reference w))
| step_clock t w : Step rt w (set_clock t w)
| step_faults f w : Step rt w (set_faults f w)
| step_replies r w : Step rt w (set_replies r w).

(** The same while the database stays reachable: webhook deliveries and
    the passing of time. *)
Inductive QuietStep (rt : Runtime) : World -> World -> Prop :=
| quiet_webhook body w : QuietStep rt w (deliver rt body w)
| quiet_clock t w : QuietStep rt w (set_clock t w).

Inductive Runs (step : World -> World -> Prop) : World -> World -> Prop :=
| runs_here w : Runs step w w
| runs_then w1 w2 w3 : Runs step w1 w2 -> step w2 w3 -> Runs step w1 w3.

(* ================================================================== *)
(** ** What the store keeps true *)

(** Email is unique in the customers collection. *)
Definition OneCustomerPerEmail (w : World) : Prop :=
  Mongo.unique_email (customers w) = true /\
  forall e, (count e (customers w) <= 1)%nat.

(** The validators are installed and every stored document passes its
    validator. *)
Definition Validated (w : World) : Prop :=
  Mongo.validator (customers w) = Some customer_schema /\
  Mongo.validator (transactions w) = Some transaction_schema /\
  Mongo.validator (active w) = Some active_schema /\
  List.Forall (fun c => customer_schema c = true) (Mongo.docs (customers w)) /\
  List.Forall (fun t => transaction_schema t = true) (Mongo.docs (transactions w)) /\
  List.Forall (fun a => active_schema a = true) (Mongo.docs (active w)).

(** The ledger of [w'] is the ledger of [w] with records added at its end. *)
Definition LedgerExtends (w w' : World) : Prop :=
  exists l, Mongo.docs (transactions w') = Mongo.docs (transactions w) ++ l.

(** What never changes in a customer record. *)
Definition identity (c : Customer.t) : Js.Value * JsDate.Date :=
  (Customer.email c, Customer.createdAt c).

(** The customers of [w] are still in [w'], in their places, with their
    emails and creation dates. *)
Definition CustomersExtend (w w' : World) : Prop :=
  exists l, List.map identity (Mongo.docs (customers w'))
            = List.map identity (Mongo.docs (customers w)) ++ l.

(** Every ledger record belongs to a stored customer. *)
Definition LedgerHasCustomers (w : World) : Prop :=
  forall t, List.In t (Mongo.docs (transactions w)) ->
            Mongo.has_email (Transaction.email t) (customers w) = true.

(** Every active record is the window of some ledger record. *)
Definition ActiveFromLedger (w : World) : Prop :=
  forall a, List.In a (Mongo.docs (active w)) ->
  exists t, List.In t (Mongo.docs (transactions w)) /\
            Transaction.email t = ActiveUser.email a /\
            Transaction.paid_on t = ActiveUser.paid_on a /\
            Transaction.expires_on t = ActiveUser.expires_on a /\
            Transaction.service t = ActiveUser.service a.

(** What the reconciler reads from its payload, in the order it reads it:
    [paid_at], [amount], [customer.email]. *)
Definition read_payment (d : Js.Value) : Js.Error + Js.Value * Js.Value * Js.Value :=
  match Js.get d "paid_at" with
  | inl e => inl e
  | inr p =>
      match Js.get d "amount" with
      | inl e => inl e
      | inr a =>
          match Js.get d "customer" with
          | inl e => inl e
          | inr c =>
              match Js.get c "email" with
              | inl e => inl e
              | inr v => inr (p, a, v)
              end
          end
      end
  end.

(** The active collection has received as many records as the ledger. *)
Definition GrownTogether (w w' : World) : Prop :=
  (List.length (Mongo.docs (active w')) + List.length (Mongo.docs (transactions w))
   = List.length (Mongo.docs (active w)) + List.length (Mongo.docs (transactions w')))%nat.


(** The event kinds the webhook endpoint knows. *)
Definition known_kinds : list string :=
  ["charge.success"; "charge.failed"; "transfer.success"; "transfer.failed"].

(* ================================================================== *)
(** ** The language of the e-mail pattern *)

(** [l] is a local part, [@], a domain, a dot and a top-level label, as the
    pattern of the validators reads from left to right. *)
Definition EmailShape (l : list ascii) : Prop :=
  exists loc dom tld,
    l = loc ++ "@"%char :: dom ++ "."%char :: tld /\
    loc <> [] /\ forallb EmailPattern.local_char loc = true /\
    dom <> [] /\ forallb EmailPattern.domain_char dom = true /\
    (2 <= List.length tld)%nat /\ forallb EmailPattern.alpha tld = true.

(* ================================================================== *)
(** ** Calendar lemmas *)

(** [YearFromTime] is the year ECMA-262 defines: the one whose first day is
    the last first-of-January not after [Day t]. *)
Lemma YearFromTime_bounds t :
  JsDate.DayFromYear (JsDate.YearFromTime t) <= JsDate.Day t
  < JsDate.DayFromYear (JsDate.YearFromTime t + 1).
Proof.
  unfold JsDate.YearFromTime.
  change (JsDate.DayFromYear 1601) with (-134774).
  set (d := JsDate.Day t - -134774).
  assert (JsDate.Day t = d - 134774) as -> by (unfold d; lia).
  clearbody d.
  unfold JsDate.DayFromYear.
  pose proof (Z.div_mod d 146097 ltac:(lia)) as H400.
  pose proof (Z.mod_pos_bound d 146097 ltac:(lia)) as B400.
  set (n400 := d / 146097) in *. set (r400 := d mod 146097) in *.
  clearbody n400 r400.
  assert (0 <= Z.min (r400 / 36524) 3 <= 3 /\
          (Z.min (r400 / 36524) 3) * 36524 <= r400 /\
          r400 - (Z.min (r400 / 36524) 3) * 36524 <= 36524 /\
          (Z.min (r400 / 36524) 3 < 3 -> r400 - (Z.min (r400 / 36524) 3) * 36524 < 36524))
    as [B100 [L100 [U100 V100]]].
  { pose proof (Z.div_mod r400 36524 ltac:(lia)).
    pose proof (Z.mod_pos_bound r400 36524 ltac:(lia)).
    assert (0 <= r400 / 36524 <= 4).
    { split; [apply Z.div_pos; lia |].
      assert (r400 / 36524 < 5) by (apply Z.div_lt_upper_bound; lia). lia. }
    lia. }
  set (n100 := Z.min (r400 / 36524) 3) in *. clearbody n100.
  set (r100 := r400 - n100 * 36524) in *.
  assert (0 <= r100) as P100 by (unfold r100; lia).
  pose proof (Z.div_mod r100 1461 ltac:(lia)) as H4.
  pose proof (Z.mod_pos_bound r100 1461 ltac:(lia)) as B4.
  set (n4 := r100 / 1461) in *. set (r4 := r100 mod 1461) in *.
  assert (0 <= n4 <= 24) as Bn4.
  { unfold n4. split; [apply Z.div_pos; lia |].
    assert (r100 / 1461 < 25) by (apply Z.div_lt_upper_bound; lia). lia. }
  assert (n100 < 3 -> n4 = 24 -> r4 < 1460) as Vn4 by (intros; unfold r100 in *; lia).
  clearbody n4 r4.
  assert (0 <= Z.min (r4 / 365) 3 <= 3 /\
          (Z.min (r4 / 365) 3) * 365 <= r4 /\
          (Z.min (r4 / 365) 3 < 3 -> r4 - (Z.min (r4 / 365) 3) * 365 < 365) /\
          r4 - (Z.min (r4 / 365) 3) * 365 <= 365)
    as [B1 [L1 [V1 U1]]].
  { pose proof (Z.div_mod r4 365 ltac:(lia)).
    pose proof (Z.mod_pos_bound r4 365 ltac:(lia)).
    assert (0 <= r4 / 365 <= 4).
    { split; [apply Z.div_pos; lia |].
      assert (r4 / 365 < 5) by (apply Z.div_lt_upper_bound; lia). lia. }
    lia. }
  set (n1 := Z.min (r4 / 365) 3) in *. clearbody n1.
  unfold r100 in *. clear r100.
  Z.div_mod_to_equations. lia.
Qed.

Lemma MonthFromTime_range t : 0 <= JsDate.MonthFromTime t <= 11.
Proof.
  unfold JsDate.MonthFromTime.
  repeat match goal with |- context [if ?b then _ else _] => destruct b end; lia.
Qed.

Lemma MakeDay_DateFromTime t n :
  JsDate.MakeDay (JsDate.YearFromTime t) (JsDate.MonthFromTime t)
                 (JsDate.DateFromTime t + n)
  = JsDate.Day t + n.
Proof.
  pose proof (MonthFromTime_range t) as Hm.
  unfold JsDate.MakeDay, JsDate.DateFromTime, JsDate.DayWithinYear, JsDate.InLeapYear.
  rewrite (Z.div_small (JsDate.MonthFromTime t) 12) by lia.
  rewrite (Z.mod_small (JsDate.MonthFromTime t) 12) by lia.
  rewrite Z.add_0_r. lia.
Qed.

(** [d.setDate(d.getDate() + n)] moves the local reading of [d] by [n]
    days and reads it back as an instant. *)
Lemma setDate_getDate_shift tza t n :
  JsDate.setDate tza (Some t)
    (option_map (fun d => d + n) (JsDate.getDate tza (Some t)))
  = JsDate.TimeClip (JsDate.UTC tza (JsDate.addDays (JsDate.LocalTime tza t) n)).
Proof.
  unfold JsDate.setDate, JsDate.getDate, option_map.
  rewrite MakeDay_DateFromTime.
  set (lt := JsDate.LocalTime tza t).
  assert (JsDate.MakeDate (JsDate.Day lt + n) (JsDate.TimeWithinDay lt)
          = JsDate.addDays lt n) as ->; [| reflexivity].
  unfold JsDate.MakeDate, JsDate.addDays, JsDate.Day, JsDate.TimeWithinDay.
  pose proof (Z.div_mod lt JsDate.msPerDay) as H.
  assert (JsDate.msPerDay <> 0) as Hne by (unfold JsDate.msPerDay; lia).
  specialize (H Hne). lia.
Qed.

Lemma TimeClip_valid t : JsDate.valid t -> JsDate.TimeClip t = Some t.
Proof.
  unfold JsDate.valid, JsDate.TimeClip. intros H.
  destruct (Z.gtb_spec (Z.abs t) JsDate.maxTime); [lia | reflexivity].
Qed.

(* ================================================================== *)
(** ** The expiry calculator against the price table *)

Lemma strict_eq_int_true v k : Js.strict_eq_int v k = true <-> is_amount v k.
Proof.
  unfold is_amount. split.
  - destruct v as [| | |n| | |]; simpl; try discriminate.
    destruct n as [| |q]; try discriminate.
    intros H. exists q. split; [reflexivity | now apply Qeq_bool_iff].
  - intros [q [-> H]]. simpl. now apply Qeq_bool_iff.
Qed.

Lemma strict_eq_int_false v k : Js.strict_eq_int v k = false <-> ~ is_amount v k.
Proof.
  rewrite <- strict_eq_int_true. destruct (Js.strict_eq_int v k); split; congruence.
Qed.

Lemma is_amount_functional v j k : is_amount v j -> is_amount v k -> j = k.
Proof.
  intros [q [-> Hj]] [q' [E Hk]]. injection E as <-.
  rewrite Hj in Hk. unfold Qeq in Hk. simpl in Hk. lia.
Qed.

Lemma expiryDays_table amount days :
  PriceTable amount days -> expiryDays amount = days.
Proof.
  unfold expiryDays.
  intros [H | H | H | H5 H110 H250].
  - apply strict_eq_int_true in H. now rewrite H.
  - assert (Js.strict_eq_int amount 500 = false) as ->.
    { apply strict_eq_int_false. intros H'.
      pose proof (is_amount_functional _ _ _ H H'). discriminate. }
    apply strict_eq_int_true in H. now rewrite H.
  - assert (Js.strict_eq_int amount 500 = false) as ->.
    { apply strict_eq_int_false. intros H'.
      pose proof (is_amount_functional _ _ _ H H'). discriminate. }
    assert (Js.strict_eq_int amount 11000 = false) as ->.
    { apply strict_eq_int_false. intros H'.
      pose proof (is_amount_functional _ _ _ H H'). discriminate. }
    apply strict_eq_int_true in H. now rewrite H.
  - apply strict_eq_int_false in H5, H110, H250.
    now rewrite H5, H110, H250.
Qed.

Lemma calculateExpiryDate_shift rt amount t :
  calculateExpiryDate rt amount (Some t)
  = JsDate.TimeClip (local_shift rt t (expiryDays amount)).
Proof.
  unfold calculateExpiryDate, JsDate.copy, local_shift. apply setDate_getDate_shift.
Qed.

Lemma calculateExpiryDate_invalid rt amount :
  calculateExpiryDate rt amount None = None.
Proof. reflexivity. Qed.

(** The calendar shift against the shift by whole days: they differ by
    the change of the zone offset. *)
Lemma local_shift_offsets rt t n :
  local_shift rt t n
  = JsDate.addDays t n
    + (LocalTZA rt t true
       - LocalTZA rt (JsDate.addDays (JsDate.LocalTime (LocalTZA rt) t) n) false).
Proof. unfold local_shift, JsDate.UTC, JsDate.LocalTime, JsDate.addDays. lia. Qed.

Lemma local_shift_same_offset rt t n :
  SameOffset rt t n -> local_shift rt t n = JsDate.addDays t n.
Proof. intros H. rewrite local_shift_offsets, H. lia. Qed.

Lemma unlisted_default amount : unlisted amount -> PriceTable amount 1.
Proof. intros [H5 [H110 H250]]. now apply tier_default. Qed.

Lemma calculateExpiryDate_shift_default rt amount t :
  unlisted amount ->
  calculateExpiryDate rt amount (Some t) = JsDate.TimeClip (local_shift rt t 1).
Proof.
  intros H.
  now rewrite calculateExpiryDate_shift, (expiryDays_table amount 1 (unlisted_default _ H)).
Qed.




(** The scenarios of the specification, in a UTC host:
    2024-01-01T00:00:00Z is 1704067200000. *)
Example expiry_small_tier :
  calculateExpiryDate Host.utc (jsnum 500) (Some 1704067200000)
  = Some 1704153600000.
Proof. reflexivity. Qed.

Example expiry_small_tier_iso :
  calculateExpiryDate Host.utc (jsnum 500) (Host.date_of (Js.Str "2024-01-01T00:00:00Z"))
  = Host.date_of (Js.Str "2024-01-02T00:00:00Z").
Proof. reflexivity. Qed.

Example expiry_mid_tier_leap_day :
  calculateExpiryDate Host.utc (jsnum 11000) (Host.date_of (Js.Str "2024-02-01T08:30:00Z"))
  = Host.date_of (Js.Str "2024-03-02T08:30:00Z").
Proof. reflexivity. Qed.

Example expiry_large_tier :
  calculateExpiryDate Host.utc (jsnum 25000) (Some 1704067200000)
  = Some (1704067200000 + 90 * 86400000).
Proof. reflexivity. Qed.

Example expiry_unmatched :
  calculateExpiryDate Host.utc (jsnum 999) (Some 1704067200000)
  = Some 1704153600000.
Proof. reflexivity. Qed.

(* ================================================================== *)
(** ** Running commands in a quiet world *)

Lemma set_faults_quiet w : Quiet w -> set_faults (tl (faults w)) w = w.
Proof. unfold Quiet. destruct w; simpl. intros ->. reflexivity. Qed.

Lemma command_quiet {A : Type} (run : World -> Js.Error + A * World) w :
  Quiet w ->
  command run w =
  match run w with
  | inl e => (inl e, w)
  | inr (a, w2) => (inr a, w2)
  end.
Proof.
  intros Hq. unfold command. rewrite (set_faults_quiet w Hq).
  unfold Quiet in Hq. rewrite Hq. reflexivity.
Qed.

Lemma same_key_str_refl s : Mongo.same_key (Js.Str s) (Js.Str s) = true.
Proof. simpl. apply String.eqb_refl. Qed.

Lemma same_key_str v s : Mongo.same_key v (Js.Str s) = true -> v = Js.Str s.
Proof.
  destruct v as [| | |n|s'| |]; simpl; try discriminate.
  - destruct n as [| |q]; discriminate.
  - intros H. apply String.eqb_eq in H. now subst.
Qed.

Lemma has_email_find {D : Type} `{Mongo.Keyed D} e (c : Mongo.Collection D) :
  Mongo.has_email e c = true ->
  exists d, Mongo.find e c = Some d /\ Mongo.same_key (Mongo.email_of d) e = true.
Proof.
  unfold Mongo.has_email, Mongo.find.
  induction (Mongo.docs c) as [|d l IH]; simpl; [discriminate |].
  destruct (Mongo.same_key (Mongo.email_of d) e) eqn:E; simpl.
  - intros _. exists d. split; [reflexivity | exact E].
  - exact IH.
Qed.

Lemma has_email_count {D : Type} `{Mongo.Keyed D} e (c : Mongo.Collection D) :
  Mongo.has_email e c = false <-> count e c = 0%nat.
Proof.
  unfold Mongo.has_email, count.
  induction (Mongo.docs c) as [|d l IH]; simpl; [tauto |].
  destruct (Mongo.same_key (Mongo.email_of d) e); simpl; [split; discriminate | exact IH].
Qed.

Lemma count_app {D : Type} `{Mongo.Keyed D} e (c : Mongo.Collection D) l :
  count e (Mongo.with_docs (Mongo.docs c ++ l) c)
  = (count e c + List.length (List.filter (fun d => Mongo.same_key (Mongo.email_of d) e) l))%nat.
Proof. unfold count. simpl. now rewrite List.filter_app, List.length_app. Qed.

(** An update that keeps [email] keeps every count. *)
Lemma filter_replace_first {D : Type} `{Mongo.Keyed D} e e' (f : D -> D) l :
  (forall d, Mongo.email_of (f d) = Mongo.email_of d) ->
  List.length (List.filter (fun d => Mongo.same_key (Mongo.email_of d) e')
                 (Mongo.replace_first e f l))
  = List.length (List.filter (fun d => Mongo.same_key (Mongo.email_of d) e') l).
Proof.
  intros Hf. induction l as [|d l IH]; simpl; [reflexivity |].
  destruct (Mongo.same_key (Mongo.email_of d) e).
  - cbn [List.filter]. rewrite Hf.
    destruct (Mongo.same_key (Mongo.email_of d) e'); reflexivity.
  - cbn [List.filter].
    destruct (Mongo.same_key (Mongo.email_of d) e'); cbn [List.length]; now rewrite IH.
Qed.

Lemma find_replace_first {D : Type} `{Mongo.Keyed D} e (f : D -> D) l d :
  (forall x, Mongo.email_of (f x) = Mongo.email_of x) ->
  List.find (fun x => Mongo.same_key (Mongo.email_of x) e) l = Some d ->
  List.find (fun x => Mongo.same_key (Mongo.email_of x) e) (Mongo.replace_first e f l)
  = Some (f d).
Proof.
  intros Hf. induction l as [|x l IH]; simpl; [discriminate |].
  destruct (Mongo.same_key (Mongo.email_of x) e) eqn:E; simpl.
  - intros [= ->]. now rewrite Hf, E.
  - rewrite E. exact IH.
Qed.

(* ================================================================== *)
(** ** The helper functions in a quiet world *)

Lemma accepts_customer u w c :
  Setup u w -> Mongo.accepts (customers w) c = customer_schema c.
Proof. intros S. unfold Mongo.accepts. now rewrite (customers_validator _ _ S). Qed.

Lemma accepts_transaction u w t :
  Setup u w -> Mongo.accepts (transactions w) t = transaction_schema t.
Proof. intros S. unfold Mongo.accepts. now rewrite (transactions_validator _ _ S). Qed.

Lemma accepts_active u w a :
  Setup u w -> Mongo.accepts (active w) a = active_schema a.
Proof. intros S. unfold Mongo.accepts. now rewrite (active_validator _ _ S). Qed.

(** The serializer leaves a document of strings and valid dates as it
    is. *)
Lemma serialize_customer s t1 t2 :
  Bson.serialize (Customer.mk (Js.Str s) (Some t1) (Some t2))
  = Customer.mk (Js.Str s) (Some t1) (Some t2).
Proof. reflexivity. Qed.

Lemma valid_email_value v : valid_email (Bson.value v) = valid_email v.
Proof. destruct v; reflexivity. Qed.

Lemma valid_amount_value v : valid_amount (Bson.value v) = valid_amount v.
Proof. destruct v; reflexivity. Qed.

Lemma value_valid_amount v : valid_amount v = true -> Bson.value v = v.
Proof. destruct v; simpl; try discriminate; reflexivity. Qed.

Lemma createOrUpdateCustomer_fresh u w pc s :
  Setup u w -> Quiet w ->
  PartialCustomer.email pc = Js.Str s ->
  EmailPattern.test s = true ->
  Mongo.has_email (Js.Str s) (customers w) = false ->
  let c := Customer.mk (Js.Str s) (Some (clock w)) (Some (clock w)) in
  createOrUpdateCustomer pc w
  = (inr (Some c),
     add_line (line Info "Customer created: " [Js.Str s])
       (set_customers (Mongo.with_docs (Mongo.docs (customers w) ++ [c]) (customers w)) w)).
Proof.
  intros S Hq He Hs Hfresh c.
  unfold createOrUpdateCustomer, bind, now, try_catch, insertOne.
  rewrite (command_quiet _ w Hq). cbn [read customersCollection].
  rewrite He. rewrite serialize_customer.
  unfold Mongo.insert. rewrite (accepts_customer u w _ S).
  unfold customer_schema. cbn [Customer.email valid_email].
  rewrite Hs. cbn [negb].
  change (Mongo.email_of {| Customer.email := Js.Str s; Customer.createdAt := Some (clock w);
                  Customer.updatedAt := Some (clock w) |}) with (Js.Str s).
  rewrite Hfresh, Bool.andb_false_r.
  reflexivity.
Qed.

Lemma createOrUpdateCustomer_existing u w pc s :
  Setup u w -> Quiet w ->
  PartialCustomer.email pc = Js.Str s ->
  EmailPattern.test s = true ->
  Mongo.has_email (Js.Str s) (customers w) = true ->
  let col := Mongo.with_docs
               (Mongo.replace_first (Js.Str s) (touch (clock w)) (Mongo.docs (customers w)))
               (customers w) in
  createOrUpdateCustomer pc w
  = (inr (Mongo.find (Js.Str s) col),
     add_line (line Info "Customer updated: " [Js.Str s]) (set_customers col w)).
Proof.
  intros S Hq He Hs Hold col.
  destruct (has_email_find _ _ Hold) as [d [Hfind Hkey]].
  apply same_key_str in Hkey.
  unfold createOrUpdateCustomer, bind, now, try_catch, insertOne.
  rewrite (command_quiet _ w Hq). cbn [read customersCollection].
  rewrite He. rewrite serialize_customer.
  unfold Mongo.insert. rewrite (accepts_customer u w _ S).
  unfold customer_schema. cbn [Customer.email valid_email].
  rewrite Hs. cbn [negb].
  change (Mongo.email_of {| Customer.email := Js.Str s; Customer.createdAt := Some (clock w);
                  Customer.updatedAt := Some (clock w) |}) with (Js.Str s).
  rewrite Hold, (customers_unique _ _ S). cbn [andb].
  cbn [is_duplicate_key Mongo.DuplicateKey Js.code Z.eqb Pos.eqb].
  unfold updateOne. rewrite (command_quiet _ w Hq). cbn [read customersCollection].
  cbn [Bson.value].
  unfold Mongo.update. rewrite Hfind, (accepts_customer u w _ S).
  unfold customer_schema.
  replace (valid_email _) with true.
  2:{ unfold CustomerUpdate.apply, CustomerUpdate.delete_createdAt,
        CustomerUpdate.delete_email, CustomerUpdate.spread; cbn.
      change (Customer.email d) with (Mongo.email_of d). rewrite Hkey. cbn. now rewrite Hs. }
  cbn [negb write customersCollection].
  unfold findOne, console_log.
  rewrite command_quiet by exact Hq.
  reflexivity.
Qed.

Lemma createTransaction_accepted u w td s :
  Setup u w -> Quiet w ->
  TransactionData.email td = Js.Str s ->
  EmailPattern.test s = true ->
  valid_amount (TransactionData.amount td) = true ->
  forall paid, TransactionData.paid_on td = Some paid ->
  let t := Transaction.mk (Js.Str s) paid (TransactionData.expires_on td)
             (TransactionData.service td) (TransactionData.amount td) in
  createTransaction td w
  = (inr t,
     set_transactions
       (Mongo.with_docs (Mongo.docs (transactions w) ++ [Bson.serialize t]) (transactions w))
       w).
Proof.
  intros S Hq He Hs Ha paid Hp t.
  unfold createTransaction, bind, now, insertOne.
  rewrite (command_quiet _ w Hq). cbn [read transactionsCollection].
  rewrite He, Hp. fold t.
  unfold Mongo.insert. rewrite (accepts_transaction u w _ S).
  unfold transaction_schema, Bson.serialize, Serial_Transaction.
  cbn [Transaction.email Transaction.amount t Bson.value valid_email].
  rewrite valid_amount_value, Ha, Hs. cbn [negb andb].
  rewrite (transactions_unique _ _ S). cbn [andb].
  reflexivity.
Qed.

Lemma createTransaction_rejected u w td :
  Setup u w -> Quiet w ->
  valid_amount (TransactionData.amount td) = false ->
  createTransaction td w = (inl Mongo.DocumentValidationFailure, w).
Proof.
  intros S Hq Ha.
  unfold createTransaction, bind, now, insertOne.
  rewrite (command_quiet _ w Hq). cbn [read transactionsCollection].
  unfold Mongo.insert. rewrite (accepts_transaction u w _ S).
  unfold transaction_schema, Bson.serialize, Serial_Transaction.
  cbn [Transaction.email Transaction.amount].
  rewrite valid_amount_value, Ha, Bool.andb_false_r. reflexivity.
Qed.

Lemma serialize_active_email a s :
  ActiveUser.email a = Js.Str s ->
  Mongo.email_of (Bson.serialize a) = Js.Str s.
Proof. intros He. cbn. now rewrite He. Qed.

Lemma createOrUpdateActiveUser_insert u w a s :
  Setup u w -> Quiet w ->
  ActiveUser.email a = Js.Str s ->
  EmailPattern.test s = true ->
  (u && Mongo.has_email (Js.Str s) (active w))%bool = false ->
  createOrUpdateActiveUser a w
  = (inr (Some a),
     add_line (line Info "Active user created: " [Js.Str s])
       (set_active (Mongo.with_docs (Mongo.docs (active w) ++ [Bson.serialize a]) (active w))
          w)).
Proof.
  intros S Hq He Hs Hfree.
  assert ({| ActiveUser.email := ActiveUser.email a; ActiveUser.paid_on := ActiveUser.paid_on a;
             ActiveUser.expires_on := ActiveUser.expires_on a;
             ActiveUser.service := ActiveUser.service a |} = a) as Heta by (now destruct a).
  unfold createOrUpdateActiveUser, bind, now, try_catch, insertOne.
  rewrite Heta.
  rewrite (command_quiet _ w Hq). cbn [read active_users].
  unfold Mongo.insert. rewrite (accepts_active u w _ S).
  rewrite (serialize_active_email a s He).
  unfold active_schema.
  change (ActiveUser.email (Bson.serialize a)) with (Mongo.email_of (Bson.serialize a)).
  rewrite (serialize_active_email a s He).
  cbn [valid_email]. rewrite Hs. cbn [negb].
  rewrite (active_unique _ _ S), Hfree. rewrite He.
  reflexivity.
Qed.

Lemma createOrUpdateActiveUser_overwrite w a s :
  Setup true w -> Quiet w ->
  ActiveUser.email a = Js.Str s ->
  EmailPattern.test s = true ->
  Mongo.has_email (Js.Str s) (active w) = true ->
  let col := Mongo.with_docs
               (Mongo.replace_first (Js.Str s) (set_window (Bson.serialize a))
                  (Mongo.docs (active w)))
               (active w) in
  createOrUpdateActiveUser a w
  = (inr (Mongo.find (Js.Str s) col),
     add_line (line Info "Active user updated: " [Js.Str s]) (set_active col w)).
Proof.
  intros S Hq He Hs Hold col.
  destruct (has_email_find _ _ Hold) as [d [Hfind Hkey]].
  apply same_key_str in Hkey.
  assert ({| ActiveUser.email := ActiveUser.email a; ActiveUser.paid_on := ActiveUser.paid_on a;
             ActiveUser.expires_on := ActiveUser.expires_on a;
             ActiveUser.service := ActiveUser.service a |} = a) as Heta by (now destruct a).
  unfold createOrUpdateActiveUser, bind, now, try_catch, insertOne.
  rewrite Heta.
  rewrite (command_quiet _ w Hq). cbn [read active_users].
  unfold Mongo.insert. rewrite (accepts_active true w _ S).
  rewrite (serialize_active_email a s He).
  unfold active_schema.
  change (ActiveUser.email (Bson.serialize a)) with (Mongo.email_of (Bson.serialize a)).
  rewrite (serialize_active_email a s He).
  cbn [valid_email]. rewrite Hs. cbn [negb].
  rewrite (active_unique _ _ S), Hold. cbn [andb].
  cbn [is_duplicate_key Mongo.DuplicateKey Js.code Z.eqb Pos.eqb].
  unfold updateOne. rewrite (command_quiet _ w Hq). cbn [read active_users].
  rewrite He. cbn [Bson.value].
  unfold Mongo.update. rewrite Hfind, (accepts_active true w _ S).
  unfold active_schema.
  replace (valid_email _) with true.
  2:{ unfold set_window; cbn.
      change (ActiveUser.email d) with (Mongo.email_of d). rewrite Hkey. cbn. now rewrite Hs. }
  cbn [negb write active_users].
  unfold findOne, console_log.
  rewrite command_quiet by exact Hq.
  reflexivity.
Qed.

Lemma Setup_frame u w w' :
  Setup u w ->
  Mongo.indexes (customers w') = Mongo.indexes (customers w) ->
  Mongo.validator (customers w') = Mongo.validator (customers w) ->
  Mongo.indexes (transactions w') = Mongo.indexes (transactions w) ->
  Mongo.validator (transactions w') = Mongo.validator (transactions w) ->
  Mongo.indexes (active w') = Mongo.indexes (active w) ->
  Mongo.validator (active w') = Mongo.validator (active w) ->
  Setup u w'.
Proof.
  intros [A B C D E F] Hci Hcv Hti Htv Hai Hav.
  unfold Mongo.unique_email in *.
  constructor; unfold Mongo.unique_email; congruence.
Qed.

Lemma payment_Carries reference s a p : Carries (payment reference s a p) s a p.
Proof.
  unfold Carries, payment. repeat split.
  exists (Js.Obj [("email", Js.Str s)]). split; reflexivity.
Qed.

(** One reconciliation in a quiet world, for a payload the validators
    accept. *)
Lemma handleSuccessfulPayment_quiet rt u w d s a p :
  Setup u w -> Quiet w ->
  Carries d s a p ->
  EmailPattern.test s = true ->
  valid_amount a = true ->
  let paid := Bson.date (newDate rt p) in
  let expiry := Bson.date (calculateExpiryDate rt a (newDate rt p)) in
  let w' := snd (handleSuccessfulPayment rt d w) in
  Setup u w' /\ Quiet w' /\ clock w' = clock w /\
  Mongo.docs (customers w') = customers_after s (clock w) (customers w) /\
  Mongo.docs (transactions w')
  = Mongo.docs (transactions w) ++ [Transaction.mk (Js.Str s) paid expiry "SKYNET" a] /\
  Mongo.docs (active w')
  = active_after u s (ActiveUser.mk (Js.Str s) paid expiry "SKYNET") (active w).
Proof.
  intros S Hq [Hp [Ha [c [Hc He]]]] Hs Hva paid expiry.
  unfold handleSuccessfulPayment, try_catch, bind, customer_email, bind.
  rewrite Hp, Ha, Hc. cbn [lift ret]. rewrite He. cbn [lift ret].
  set (paid0 := newDate rt p) in *. set (expiry0 := calculateExpiryDate rt a paid0) in *.
  set (pc := {| PartialCustomer.email := Js.Str s; PartialCustomer.createdAt := None;
                PartialCustomer.updatedAt := None |}).
  set (td := {| TransactionData.email := Js.Str s; TransactionData.paid_on := Some paid0;
                TransactionData.expires_on := expiry0; TransactionData.service := "SKYNET";
                TransactionData.amount := a |}).
  set (au := {| ActiveUser.email := Js.Str s; ActiveUser.paid_on := paid0;
                ActiveUser.expires_on := expiry0; ActiveUser.service := "SKYNET" |}).
  assert (Bson.serialize au = ActiveUser.mk (Js.Str s) paid expiry "SKYNET") as Hau
    by reflexivity.
  assert (exists r w1, createOrUpdateCustomer pc w = (inr r, w1) /\
            Setup u w1 /\ Quiet w1 /\ clock w1 = clock w /\
            Mongo.docs (customers w1) = customers_after s (clock w) (customers w) /\
            transactions w1 = transactions w /\ active w1 = active w)
    as [r [w1 [E1 [S1 [Q1 [K1 [C1 [T1 A1]]]]]]]].
  { unfold customers_after.
    destruct (Mongo.has_email (Js.Str s) (customers w)) eqn:Hhas.
    - eexists; eexists; split.
      + apply (createOrUpdateCustomer_existing u w pc s S Hq eq_refl Hs Hhas).
      + split; [eapply Setup_frame; [exact S | reflexivity ..] |].
        repeat split; try reflexivity; exact Hq.
    - eexists; eexists; split.
      + apply (createOrUpdateCustomer_fresh u w pc s S Hq eq_refl Hs Hhas).
      + split; [eapply Setup_frame; [exact S | reflexivity ..] |].
        repeat split; try reflexivity; exact Hq. }
  rewrite E1.
  rewrite (createTransaction_accepted u w1 td s S1 Q1 eq_refl Hs Hva paid0 eq_refl).
  cbn [TransactionData.expires_on TransactionData.service TransactionData.amount td].
  assert (Bson.serialize (Transaction.mk (Js.Str s) paid0 expiry0 "SKYNET" a)
          = Transaction.mk (Js.Str s) paid expiry "SKYNET" a) as ->.
  { unfold Bson.serialize, Serial_Transaction. cbn.
    now rewrite (value_valid_amount a Hva). }
  set (w2 := set_transactions _ w1).
  assert (Setup u w2) as S2 by (eapply Setup_frame; [exact S1 | reflexivity ..]).
  assert (Quiet w2) as Q2 by exact Q1.
  assert (exists r3 w3, createOrUpdateActiveUser au w2 = (inr r3, w3) /\
            Setup u w3 /\ Quiet w3 /\ clock w3 = clock w2 /\
            customers w3 = customers w2 /\ transactions w3 = transactions w2 /\
            Mongo.docs (active w3) = active_after u s (Bson.serialize au) (active w2))
    as [r3 [w3 [E3 [S3 [Q3 [K3 [C3 [T3 A3]]]]]]]].
  { unfold active_after.
    destruct (u && Mongo.has_email (Js.Str s) (active w2))%bool eqn:Hhas.
    - apply Bool.andb_true_iff in Hhas. destruct Hhas as [-> Hhas].
      eexists; eexists; split.
      + apply (createOrUpdateActiveUser_overwrite w2 au s S2 Q2 eq_refl Hs Hhas).
      + split; [eapply Setup_frame; [exact S2 | reflexivity ..] |].
        repeat split; try reflexivity; exact Q2.
    - eexists; eexists; split.
      + apply (createOrUpdateActiveUser_insert u w2 au s S2 Q2 eq_refl Hs Hhas).
      + split; [eapply Setup_frame; [exact S2 | reflexivity ..] |].
        repeat split; try reflexivity; exact Q2. }
  rewrite E3. cbn [snd ret].
  split; [exact S3 |]. split; [exact Q3 |].
  repeat split.
  - rewrite K3. exact K1.
  - rewrite C3. exact C1.
  - rewrite T3. subst w2. cbn. rewrite T1. reflexivity.
  - rewrite A3, Hau. subst w2. cbn. rewrite A1. reflexivity.
Qed.

(* ================================================================== *)
(** ** The set-up of [connectDB] *)

Lemma Installed_Setup w : Installed w -> Setup false w.
Proof.
  intros [Hci [Hcv [Hti [Htv [Hai Hav]]]]].
  constructor; unfold Mongo.unique_email;
    rewrite ?Hci, ?Hcv, ?Hti, ?Htv, ?Hai, ?Hav; reflexivity.
Qed.

Lemma Installed_started : Installed started.
Proof. repeat split. Qed.

Lemma Setup_started_unique : Setup true started_unique.
Proof. constructor; reflexivity. Qed.

(* ================================================================== *)
(** ** The reconciler never throws *)

Lemma handleSuccessfulPayment_returns rt d w :
  fst (handleSuccessfulPayment rt d w) = inr tt.
Proof.
  unfold handleSuccessfulPayment, try_catch.
  match goal with |- context [match ?m w with _ => _ end] => destruct (m w) as [[e | []] w1] end;
    reflexivity.
Qed.

Lemma detach_handleSuccessfulPayment rt d w :
  detach (handleSuccessfulPayment rt d) w = (inr tt, snd (handleSuccessfulPayment rt d w)).
Proof.
  pose proof (handleSuccessfulPayment_returns rt d w) as H.
  unfold detach. destruct (handleSuccessfulPayment rt d w) as [[e | []] w1]; simpl in *.
  - discriminate.
  - reflexivity.
Qed.

Lemma webhook_charge_success rt body d w :
  Js.get body "event" = inr (Js.Str "charge.success") ->
  Js.get body "data" = inr d ->
  webhook rt body w
  = (inr acknowledged,
     snd (handleSuccessfulPayment rt d (add_line (line Info "Payment successful:" [d]) w))).
Proof.
  intros He Hd.
  unfold webhook, try_catch, bind. rewrite He. cbn [lift ret Js.strict_eq_str].
  cbn [String.eqb Ascii.eqb Bool.eqb]. rewrite Hd. cbn [lift ret console_log].
  rewrite detach_handleSuccessfulPayment. reflexivity.
Qed.

(** One delivery of a [charge.success] event in a quiet world. *)
Lemma deliver_quiet rt u w body s a p :
  Setup u w -> Quiet w ->
  Succeeded body s a p ->
  EmailPattern.test s = true ->
  valid_amount a = true ->
  let paid := Bson.date (newDate rt p) in
  let expiry := Bson.date (calculateExpiryDate rt a (newDate rt p)) in
  let w' := deliver rt body w in
  Setup u w' /\ Quiet w' /\ clock w' = clock w /\
  Mongo.docs (customers w') = customers_after s (clock w) (customers w) /\
  Mongo.docs (transactions w')
  = Mongo.docs (transactions w) ++ [Transaction.mk (Js.Str s) paid expiry "SKYNET" a] /\
  Mongo.docs (active w')
  = active_after u s (ActiveUser.mk (Js.Str s) paid expiry "SKYNET") (active w).
Proof.
  intros S Hq [He [d [Hd Hc]]] Hs Ha paid expiry w'.
  subst w'. unfold deliver. rewrite (webhook_charge_success rt body d w He Hd). cbn [snd].
  set (w0 := add_line _ w).
  assert (Setup u w0) as S0 by (eapply Setup_frame; [exact S | reflexivity ..]).
  exact (handleSuccessfulPayment_quiet rt u w0 d s a p S0 Hq Hc Hs Ha).
Qed.

(* ================================================================== *)
(** ** Customer upsert *)

Lemma find_app_fresh {D : Type} `{Mongo.Keyed D} e (c : Mongo.Collection D) d :
  Mongo.has_email e c = false ->
  Mongo.same_key (Mongo.email_of d) e = true ->
  Mongo.find e (Mongo.with_docs (Mongo.docs c ++ [d]) c) = Some d.
Proof.
  unfold Mongo.has_email, Mongo.find. cbn [Mongo.docs Mongo.with_docs].
  induction (Mongo.docs c) as [|x l IH]; simpl; intros Hf Hk.
  - now rewrite Hk.
  - destruct (Mongo.same_key (Mongo.email_of x) e); [discriminate | now apply IH].
Qed.

Lemma Setup_set_clock u t w : Setup u w -> Setup u (set_clock t w).
Proof. intros S. eapply Setup_frame; [exact S | reflexivity ..]. Qed.

(** C6.  A customer upsert for an email that is not stored yet creates
    exactly one record, with [createdAt] equal to [updatedAt]; a second
    upsert for the same email, at a later clock reading, leaves [email] and
    [createdAt] as they were and sets [updatedAt] to the later reading. *)
Theorem createOrUpdateCustomer_write_once w s pc pc' t2 :
  Installed w -> Quiet w ->
  EmailPattern.test s = true ->
  PartialCustomer.email pc = Js.Str s ->
  PartialCustomer.email pc' = Js.Str s ->
  count (Js.Str s) (customers w) = 0%nat ->
  clock w < t2 ->
  let t1 := clock w in
  let w1 := snd (createOrUpdateCustomer pc w) in
  let w2 := snd (createOrUpdateCustomer pc' (set_clock t2 w1)) in
  count (Js.Str s) (customers w1) = 1%nat /\
  Mongo.find (Js.Str s) (customers w1) = Some (Customer.mk (Js.Str s) (Some t1) (Some t1)) /\
  count (Js.Str s) (customers w2) = 1%nat /\
  Mongo.find (Js.Str s) (customers w2) = Some (Customer.mk (Js.Str s) (Some t1) (Some t2)).
Proof.
  intros I Hq Hs He He' Hcount Hlater t1 w1 w2.
  pose proof (Installed_Setup w I) as S.
  apply has_email_count in Hcount.
  pose proof (createOrUpdateCustomer_fresh false w pc s S Hq He Hs Hcount) as E1.
  cbv zeta in E1. fold t1 in E1.
  set (c1 := Customer.mk (Js.Str s) (Some t1) (Some t1)) in *.
  assert (customers w1 = Mongo.with_docs (Mongo.docs (customers w) ++ [c1]) (customers w))
    as Hc1 by (subst w1; rewrite E1; reflexivity).
  assert (count (Js.Str s) (customers w1) = 1%nat) as Hn1.
  { rewrite Hc1, count_app. apply has_email_count in Hcount. rewrite Hcount.
    cbn. now rewrite String.eqb_refl. }
  assert (Mongo.find (Js.Str s) (customers w1) = Some c1) as Hf1.
  { rewrite Hc1. apply find_app_fresh; [exact Hcount | apply same_key_str_refl]. }
  assert (Setup false w1) as S1.
  { subst w1. rewrite E1. eapply Setup_frame; [exact S | reflexivity ..]. }
  assert (Quiet w1) as Q1 by (subst w1; rewrite E1; exact Hq).
  set (v := set_clock t2 w1).
  assert (Mongo.has_email (Js.Str s) (customers v) = true) as Hhas.
  { destruct (Mongo.has_email (Js.Str s) (customers v)) eqn:E; [reflexivity |].
    apply has_email_count in E. change (customers v) with (customers w1) in E.
    rewrite Hn1 in E. discriminate. }
  pose proof (createOrUpdateCustomer_existing false v pc' s
                (Setup_set_clock _ _ _ S1) Q1 He' Hs Hhas) as E2.
  cbv zeta in E2. change (clock v) with t2 in E2.
  assert (Mongo.docs (customers w2)
          = Mongo.replace_first (Js.Str s) (touch t2) (Mongo.docs (customers w1))) as Hc2.
  { subst w2. fold v. rewrite E2. reflexivity. }
  split; [exact Hn1 |]. split; [exact Hf1 |]. split.
  - unfold count. rewrite Hc2.
    rewrite filter_replace_first by (intros d; reflexivity). exact Hn1.
  - unfold Mongo.find. rewrite Hc2.
    rewrite (find_replace_first (Js.Str s) (touch t2) _ c1) by
      (try (intros x; reflexivity); exact Hf1).
    reflexivity.
Qed.

Lemma createOrUpdateCustomer_write_once_witness :
  let pc := PartialCustomer.mk (Js.Str "ada@example.com") None None in
  let w1 := snd (createOrUpdateCustomer pc (set_clock 1000 started)) in
  let w2 := snd (createOrUpdateCustomer pc (set_clock 2000 w1)) in
  count (Js.Str "ada@example.com") (customers w1) = 1%nat /\
  Mongo.find (Js.Str "ada@example.com") (customers w1)
  = Some (Customer.mk (Js.Str "ada@example.com") (Some 1000) (Some 1000)) /\
  count (Js.Str "ada@example.com") (customers w2) = 1%nat /\
  Mongo.find (Js.Str "ada@example.com") (customers w2)
  = Some (Customer.mk (Js.Str "ada@example.com") (Some 1000) (Some 2000)).
Proof.
  apply (createOrUpdateCustomer_write_once (set_clock 1000 started) "ada@example.com").
  - repeat split.
  - reflexivity.
  - reflexivity.
  - reflexivity.
  - reflexivity.
  - reflexivity.
  - simpl. lia.
Defined.

(* ================================================================== *)
(** ** Replayed and repeated deliveries *)

Lemma has_email_true_count {D : Type} `{Mongo.Keyed D} e (c : Mongo.Collection D) :
  Mongo.has_email e c = true <-> (1 <= count e c)%nat.
Proof.
  pose proof (has_email_count e c) as H0.
  destruct (Mongo.has_email e c); split; intros H1; try reflexivity; try discriminate.
  - destruct (count e c); [destruct H0 as [_ H0]; discriminate H0; reflexivity | lia].
  - destruct H0 as [H0 _]. rewrite H0 in H1 by reflexivity. lia.
Qed.





(** C2 fails on the program: [createIndexes] gives [active.email] no
    unique index, so [insertOne] never raises the duplicate key that the
    update branch of [createOrUpdateActiveUser] waits for, and a second
    successful payment of one email appends a second record. *)
Theorem second_payment_appends_active_record :
  let w2 := deliver Host.utc Sample.second_payment
              (deliver Host.utc Sample.first_payment started) in
  Mongo.unique_email (active started) = false /\
  count (Js.Str Sample.ada) (active w2) = 2%nat /\
  List.map ActiveUser.paid_on (Mongo.docs (active w2)) = [Some Sample.T1; Some Sample.T2].
Proof. vm_compute. repeat split. Qed.

(** The same on every world set up by [connectDB]: a delivery appends. *)
Lemma delivery_appends_active_record rt w body s a p :
  Installed w -> Quiet w ->
  Succeeded body s a p ->
  EmailPattern.test s = true ->
  valid_amount a = true ->
  count (Js.Str s) (active (deliver rt body w)) = S (count (Js.Str s) (active w)).
Proof.
  intros I Hq Hb Hs Ha.
  destruct (deliver_quiet rt false w body s a p (Installed_Setup w I) Hq Hb Hs Ha)
    as [_ [_ [_ [_ [_ A1]]]]].
  unfold count. rewrite A1. unfold active_after. cbn [andb].
  rewrite List.filter_app, List.length_app. cbn.
  rewrite String.eqb_refl. cbn. lia.
Qed.

(* ================================================================== *)
(** ** Arrival order *)

Lemma count_active_after s au (c c' : Mongo.Collection ActiveUser.t) :
  Mongo.docs c' = active_after true s au c ->
  ActiveUser.email au = Js.Str s ->
  (count (Js.Str s) c <= 1)%nat ->
  count (Js.Str s) c' = 1%nat.
Proof.
  intros Hd He Hle. unfold count. rewrite Hd. unfold active_after. cbn [andb].
  destruct (Mongo.has_email (Js.Str s) c) eqn:E.
  - rewrite filter_replace_first by (intros d; reflexivity).
    apply has_email_true_count in E. fold (count (Js.Str s) c). lia.
  - apply has_email_count in E. rewrite List.filter_app, List.length_app.
    fold (count (Js.Str s) c). rewrite E. cbn.
    change (Mongo.email_of au) with (ActiveUser.email au). rewrite He.
    cbn. now rewrite String.eqb_refl.
Qed.

Lemma find_active_after s au (c c' : Mongo.Collection ActiveUser.t) :
  Mongo.docs c' = active_after true s au c ->
  ActiveUser.email au = Js.Str s ->
  Mongo.find (Js.Str s) c' = Some au.
Proof.
  intros Hd He. unfold Mongo.find. rewrite Hd. unfold active_after. cbn [andb].
  destruct (Mongo.has_email (Js.Str s) c) eqn:E.
  - destruct (has_email_find _ _ E) as [d [Hf Hk]].
    rewrite (find_replace_first (Js.Str s) (set_window au) _ d) by
      (try (intros x; reflexivity); exact Hf).
    apply same_key_str in Hk. change (Mongo.email_of d) with (ActiveUser.email d) in Hk.
    unfold set_window. rewrite Hk, <- He. now destruct au.
  - change (Mongo.docs c ++ [au]) with (Mongo.docs (Mongo.with_docs (Mongo.docs c ++ [au]) c)).
    apply (find_app_fresh (Js.Str s) c au E).
    change (Mongo.email_of au) with (ActiveUser.email au). rewrite He.
    apply same_key_str_refl.
Qed.

(** C3, as the program has it.  The ActiveSubscription upsert compares no
    timestamps: where the collection keeps one record per email, the
    record carries the window of the event reconciled last, which is the
    later payment when the two events arrive in order and the earlier
    payment when they arrive in the opposite order. *)
Theorem last_delivery_wins rt w b1 b2 s a1 a2 p1 p2 t1 t2 :
  Setup true w -> Quiet w ->
  Succeeded b1 s a1 p1 -> Succeeded b2 s a2 p2 ->
  EmailPattern.test s = true ->
  valid_amount a1 = true -> valid_amount a2 = true ->
  newDate rt p1 = Some t1 -> newDate rt p2 = Some t2 -> t1 < t2 ->
  (count (Js.Str s) (active w) <= 1)%nat ->
  let in_order := deliver rt b2 (deliver rt b1 w) in
  let reversed := deliver rt b1 (deliver rt b2 w) in
  (count (Js.Str s) (active in_order) = 1%nat /\
   option_map ActiveUser.paid_on (Mongo.find (Js.Str s) (active in_order)) = Some (Some t2)) /\
  (count (Js.Str s) (active reversed) = 1%nat /\
   option_map ActiveUser.paid_on (Mongo.find (Js.Str s) (active reversed)) = Some (Some t1)).
Proof.
  intros S Hq Hb1 Hb2 Hs Ha1 Ha2 Hp1 Hp2 Hlt Hone in_order reversed.
  assert (forall b b' a a' p p' t',
            Succeeded b s a p -> Succeeded b' s a' p' ->
            valid_amount a = true -> valid_amount a' = true ->
            newDate rt p' = Some t' ->
            count (Js.Str s) (active (deliver rt b' (deliver rt b w))) = 1%nat /\
            option_map ActiveUser.paid_on
              (Mongo.find (Js.Str s) (active (deliver rt b' (deliver rt b w))))
            = Some (Some t')) as Hlast.
  { intros b b' a a' p p' t' Hb Hb' Ha Ha' Hp'.
    destruct (deliver_quiet rt true w b s a p S Hq Hb Hs Ha)
      as [S1 [Q1 [_ [_ [_ A1]]]]].
    destruct (deliver_quiet rt true _ b' s a' p' S1 Q1 Hb' Hs Ha')
      as [_ [_ [_ [_ [_ A2]]]]].
    pose proof (count_active_after _ _ _ _ A1 eq_refl Hone) as Hn1.
    split.
    - apply (count_active_after _ _ _ _ A2 eq_refl). lia.
    - rewrite (find_active_after _ _ _ _ A2 eq_refl). cbn. now rewrite Hp'. }
  split.
  - exact (Hlast b1 b2 a1 a2 p1 p2 t2 Hb1 Hb2 Ha1 Ha2 Hp2).
  - exact (Hlast b2 b1 a2 a1 p2 p1 t1 Hb2 Hb1 Ha2 Ha1 Hp1).
Qed.

Lemma last_delivery_wins_witness :
  let in_order := deliver Host.utc Sample.second_payment
                    (deliver Host.utc Sample.first_payment started_unique) in
  let reversed := deliver Host.utc Sample.first_payment
                    (deliver Host.utc Sample.second_payment started_unique) in
  (count (Js.Str Sample.ada) (active in_order) = 1%nat /\
   option_map ActiveUser.paid_on (Mongo.find (Js.Str Sample.ada) (active in_order))
   = Some (Some Sample.T2)) /\
  (count (Js.Str Sample.ada) (active reversed) = 1%nat /\
   option_map ActiveUser.paid_on (Mongo.find (Js.Str Sample.ada) (active reversed))
   = Some (Some Sample.T1)).
Proof.
  apply (last_delivery_wins Host.utc started_unique
           Sample.first_payment Sample.second_payment Sample.ada
           (jsnum 500) (jsnum 11000) Sample.at_T1 Sample.at_T2).
  - exact Setup_started_unique.
  - reflexivity.
  - split; [reflexivity |]. eexists. split; [reflexivity |]. apply payment_Carries.
  - split; [reflexivity |]. eexists. split; [reflexivity |]. apply payment_Carries.
  - vm_compute. reflexivity.
  - vm_compute. reflexivity.
  - vm_compute. reflexivity.
  - vm_compute. reflexivity.
  - vm_compute. reflexivity.
  - vm_compute. reflexivity.
  - vm_compute. lia.
Defined.

(** C3 as stated fails on the program as it is set up: whichever way
    the two events arrive, the collection ends with two records for the
    email, one of them with the earlier [paid_on]; after the reversed
    arrival the last record written is the earlier payment, and after the
    in-order arrival a lookup by email finds the earlier payment. *)
Lemma arrival_order_shows :
  let in_order := deliver Host.utc Sample.second_payment
                    (deliver Host.utc Sample.first_payment started) in
  let reversed := deliver Host.utc Sample.first_payment
                    (deliver Host.utc Sample.second_payment started) in
  List.map ActiveUser.paid_on (Mongo.docs (active reversed))
  = [Some Sample.T2; Some Sample.T1] /\
  List.map ActiveUser.paid_on (Mongo.docs (active in_order))
  = [Some Sample.T1; Some Sample.T2] /\
  option_map ActiveUser.paid_on (Mongo.find (Js.Str Sample.ada) (active in_order))
  = Some (Some Sample.T1) /\
  ~ (forall r, List.In r (Mongo.docs (active reversed)) ->
               ActiveUser.paid_on r = Some Sample.T2).
Proof.
  split; [vm_compute; reflexivity |].
  split; [vm_compute; reflexivity |].
  split; [vm_compute; reflexivity |].
  intros H.
  specialize (H (ActiveUser.mk (Js.Str Sample.ada) (Some Sample.T1) (Some Sample.T2) "SKYNET")).
  assert (Some Sample.T1 = Some Sample.T2) as E.
  { apply H. vm_compute. right. left. reflexivity. }
  discriminate E.
Qed.

Lemma strict_eq_str_false v s : v <> Js.Str s -> Js.strict_eq_str v s = false.
Proof.
  destruct v as [| | | |s'| |]; simpl; try reflexivity.
  intros H. apply String.eqb_neq. congruence.
Qed.

Lemma strict_eq_str_true v s : Js.strict_eq_str v s = true -> v = Js.Str s.
Proof.
  destruct v as [| | | |s'| |]; simpl; try discriminate.
  intros H. apply String.eqb_eq in H. congruence.
Qed.

(* ================================================================== *)
(** ** Frames: what a computation leaves alone *)

Section Frame.
Variable R : World -> World -> Prop.
Hypothesis R_refl : forall w, R w w.
Hypothesis R_trans : forall a b c, R a b -> R b c -> R a c.
Hypothesis R_line : forall l w, R w (add_line l w).
Hypothesis R_faults : forall f w, R w (set_faults f w).

Lemma Keeps_ret {A : Type} (a : A) : Keeps R (ret a).
Proof. intros w. apply R_refl. Qed.

Lemma Keeps_throw {A : Type} e : Keeps R (@throw A e).
Proof. intros w. apply R_refl. Qed.

Lemma Keeps_lift {A : Type} (r : Js.Error + A) : Keeps R (lift r).
Proof. destruct r; [apply Keeps_throw | apply Keeps_ret]. Qed.

Lemma Keeps_now : Keeps R now.
Proof. intros w. apply R_refl. Qed.

Lemma Keeps_console_log t a : Keeps R (console_log t a).
Proof. intros w. apply R_line. Qed.

Lemma Keeps_console_error t a : Keeps R (console_error t a).
Proof. intros w. apply R_line. Qed.

Lemma Keeps_bind {A B : Type} (m : Eff A) (k : A -> Eff B) :
  Keeps R m -> (forall a, Keeps R (k a)) -> Keeps R (bind m k).
Proof.
  intros Hm Hk w. unfold bind. specialize (Hm w).
  destruct (m w) as [[e | a] w1]; cbn in *; [exact Hm |].
  exact (R_trans _ _ _ Hm (Hk a w1)).
Qed.

Lemma Keeps_bind_lift {A B : Type} (r : Js.Error + A) (k : A -> Eff B) :
  (forall a, r = inr a -> Keeps R (k a)) -> Keeps R (bind (lift r) k).
Proof.
  intros Hk w. unfold bind. destruct r as [e | a]; cbn; [apply R_refl |].
  exact (Hk a eq_refl w).
Qed.

Lemma Keeps_try_catch {A : Type} (body : Eff A) (handler : Js.Error -> Eff A) :
  Keeps R body -> (forall e, Keeps R (handler e)) -> Keeps R (try_catch body handler).
Proof.
  intros Hb Hh w. unfold try_catch. specialize (Hb w).
  destruct (body w) as [[e | a] w1]; cbn in *; [| exact Hb].
  exact (R_trans _ _ _ Hb (Hh e w1)).
Qed.

Lemma Keeps_if {A : Type} (b : bool) (m n : Eff A) :
  Keeps R m -> Keeps R n -> Keeps R (if b then m else n).
Proof. destruct b; tauto. Qed.

Lemma Keeps_detach (m : Eff unit) :
  Keeps R m -> (forall w, fst (m w) = inr tt) -> Keeps R (detach m).
Proof.
  intros Hm Hr w. unfold detach. specialize (Hm w). specialize (Hr w).
  destruct (m w) as [[e | []] w1]; cbn in *; [discriminate | exact Hm].
Qed.

Lemma Keeps_command {A : Type} (run : World -> Js.Error + A * World) :
  (forall w a w2, run w = inr (a, w2) -> R w w2) -> Keeps R (command run).
Proof.
  intros Hrun w. unfold command.
  destruct (hd None (faults w)) as [e |]; cbn; [apply R_faults |].
  destruct (run (set_faults (tl (faults w)) w)) as [e | [a w2]] eqn:E; cbn;
    [apply R_faults |].
  exact (R_trans _ _ _ (R_faults _ w) (Hrun _ _ _ E)).
Qed.

Lemma Keeps_insertOne {D : Type} `{Mongo.Keyed D} `{Bson.Serial D} (h : Handle D) d :
  (forall c w, R w (write h c w)) -> Keeps R (insertOne h d).
Proof.
  intros Hw. apply Keeps_command. intros w a w2.
  destruct (Mongo.insert _ (read h w)); [discriminate |].
  intros [= _ <-]. apply Hw.
Qed.

Lemma Keeps_updateOne {D U : Type} `{Mongo.Keyed D} `{Bson.Serial U}
    (h : Handle D) e (u : U) (set : U -> D -> D) :
  (forall c w, R w (write h c w)) -> Keeps R (updateOne h e u set).
Proof.
  intros Hw. apply Keeps_command. intros w a w2.
  destruct (Mongo.update _ _ (read h w)); [discriminate |].
  intros [= _ <-]. apply Hw.
Qed.

Lemma Keeps_findOne {D : Type} `{Mongo.Keyed D} (h : Handle D) e :
  Keeps R (findOne h e).
Proof. apply Keeps_command. intros w a w2 [= _ <-]. apply R_refl. Qed.

Lemma Keeps_createOrUpdateCustomer pc :
  (forall c w, R w (set_customers c w)) -> Keeps R (createOrUpdateCustomer pc).
Proof.
  intros Hw. unfold createOrUpdateCustomer.
  apply Keeps_bind; [apply Keeps_now | intros t].
  apply Keeps_try_catch.
  - apply Keeps_bind; [apply Keeps_insertOne; exact Hw | intros _].
    apply Keeps_bind; [apply Keeps_console_log | intros _; apply Keeps_ret].
  - intros e. apply Keeps_if; [| apply Keeps_throw].
    apply Keeps_bind; [apply Keeps_updateOne; exact Hw | intros _].
    apply Keeps_bind; [apply Keeps_findOne | intros r].
    apply Keeps_bind; [apply Keeps_console_log | intros _; apply Keeps_ret].
Qed.

Lemma Keeps_createOrUpdateActiveUser a :
  (forall c w, R w (set_active c w)) -> Keeps R (createOrUpdateActiveUser a).
Proof.
  intros Hw. unfold createOrUpdateActiveUser.
  apply Keeps_bind; [apply Keeps_now | intros t].
  apply Keeps_try_catch.
  - apply Keeps_bind; [apply Keeps_insertOne; exact Hw | intros _].
    apply Keeps_bind; [apply Keeps_console_log | intros _; apply Keeps_ret].
  - intros e. apply Keeps_if; [| apply Keeps_throw].
    apply Keeps_bind; [apply Keeps_updateOne; exact Hw | intros _].
    apply Keeps_bind; [apply Keeps_findOne | intros r].
    apply Keeps_bind; [apply Keeps_console_log | intros _; apply Keeps_ret].
Qed.

Lemma Keeps_createTransaction td :
  (forall c w, R w (set_transactions c w)) -> Keeps R (createTransaction td).
Proof.
  intros Hw. unfold createTransaction.
  apply Keeps_bind; [apply Keeps_now | intros t].
  apply Keeps_bind; [apply Keeps_insertOne; exact Hw | intros _; apply Keeps_ret].
Qed.

Lemma Keeps_customer_email d : Keeps R (customer_email d).
Proof.
  unfold customer_email. apply Keeps_bind; [apply Keeps_lift | intros c; apply Keeps_lift].
Qed.

Lemma Keeps_handleSuccessfulPayment rt d :
  (forall c w, R w (set_customers c w)) ->
  (forall c w, R w (set_transactions c w)) ->
  (forall c w, R w (set_active c w)) ->
  Keeps R (handleSuccessfulPayment rt d).
Proof.
  intros Hc Ht Ha. unfold handleSuccessfulPayment.
  apply Keeps_try_catch; [| intros e; apply Keeps_console_error].
  apply Keeps_bind; [apply Keeps_lift | intros p].
  apply Keeps_bind; [apply Keeps_lift | intros a].
  apply Keeps_bind; [apply Keeps_customer_email | intros s].
  apply Keeps_bind; [apply Keeps_createOrUpdateCustomer; exact Hc | intros _].
  apply Keeps_bind; [apply Keeps_customer_email | intros s'].
  apply Keeps_bind; [apply Keeps_lift | intros a'].
  apply Keeps_bind; [apply Keeps_createTransaction; exact Ht | intros _].
  apply Keeps_bind; [apply Keeps_customer_email | intros s''].
  apply Keeps_bind; [apply Keeps_createOrUpdateActiveUser; exact Ha | intros _].
  apply Keeps_ret.
Qed.

Lemma Keeps_handleFailedPayment d : Keeps R (handleFailedPayment d).
Proof.
  unfold handleFailedPayment.
  apply Keeps_bind; [apply Keeps_lift | intros r].
  apply Keeps_bind; [apply Keeps_lift | intros a].
  apply Keeps_bind; [apply Keeps_customer_email | intros c].
  apply Keeps_console_log.
Qed.

(** The branches of the webhook endpoint for everything but a
    successful charge. *)
Lemma Keeps_other_events body kind :
  Keeps R
    (if Js.strict_eq_str kind "charge.failed" then
       d <- lift (Js.get body "data") ;;
       console_log "Payment failed:" [d] ;;
       d <- lift (Js.get body "data") ;;
       handleFailedPayment d
     else if Js.strict_eq_str kind "transfer.success" then
       d <- lift (Js.get body "data") ;;
       console_log "Transfer successful:" [d]
     else if Js.strict_eq_str kind "transfer.failed" then
       d <- lift (Js.get body "data") ;;
       console_log "Transfer failed:" [d]
     else
       console_log "Unhandled event:" [kind]).
Proof.
  repeat apply Keeps_if.
  - apply Keeps_bind; [apply Keeps_lift | intros d].
    apply Keeps_bind; [apply Keeps_console_log | intros _].
    apply Keeps_bind; [apply Keeps_lift | intros d'].
    apply Keeps_handleFailedPayment.
  - apply Keeps_bind; [apply Keeps_lift | intros d]. apply Keeps_console_log.
  - apply Keeps_bind; [apply Keeps_lift | intros d]. apply Keeps_console_log.
  - apply Keeps_console_log.
Qed.

Lemma Keeps_webhook rt body :
  (Js.get body "event" = inr (Js.Str "charge.success") ->
   forall d, Keeps R (handleSuccessfulPayment rt d)) ->
  Keeps R (webhook rt body).
Proof.
  intros Hs. unfold webhook.
  apply Keeps_try_catch.
  2:{ intros e. apply Keeps_bind; [apply Keeps_console_error | intros _; apply Keeps_ret]. }
  apply Keeps_bind_lift. intros kind Hk.
  apply Keeps_bind; [| intros _; apply Keeps_ret].
  destruct (Js.strict_eq_str kind "charge.success") eqn:K.
  - apply strict_eq_str_true in K. subst kind.
    apply Keeps_bind; [apply Keeps_lift | intros d].
    apply Keeps_bind; [apply Keeps_console_log | intros _].
    apply Keeps_bind; [apply Keeps_lift | intros d'].
    apply Keeps_detach; [apply (Hs Hk) |].
    intros w. apply handleSuccessfulPayment_returns.
  - apply Keeps_other_events.
Qed.
End Frame.

(* ================================================================== *)
(** ** Events other than a successful charge *)

(** C8.  Handling a payment-failed event, a transfer event or an event
    of a kind the endpoint does not know leaves the Customer, Transaction
    and ActiveSubscription collections as they were: only a
    payment-succeeded event changes the store. *)
Theorem other_events_leave_store rt body w :
  Js.get body "event" <> inr (Js.Str "charge.success") ->
  customers (deliver rt body w) = customers w /\
  transactions (deliver rt body w) = transactions w /\
  active (deliver rt body w) = active w.
Proof.
  intros Hk.
  apply (Keeps_webhook same_store); unfold same_store.
  - intros v. repeat split.
  - intros a b c [A1 [A2 A3]] [B1 [B2 B3]]. repeat split; congruence.
  - intros l v. repeat split.
  - intros He. contradiction.
Qed.

Lemma other_events_leave_store_witness :
  customers (deliver Host.utc Sample.failed_without_customer started) = customers started /\
  transactions (deliver Host.utc Sample.failed_without_customer started) = transactions started /\
  active (deliver Host.utc Sample.failed_without_customer started) = active started.
Proof.
  apply (other_events_leave_store Host.utc Sample.failed_without_customer started).
  vm_compute. discriminate.
Defined.

(* ================================================================== *)
(** ** Acknowledgment *)

Lemma get_defined v k : nullish v = false -> exists x, Js.get v k = inr x.
Proof. destruct v; simpl; try discriminate; intros _; eexists; reflexivity. Qed.

Lemma webhook_keeps_unhandled rt body : Keeps same_unhandled (webhook rt body).
Proof.
  apply Keeps_webhook; unfold same_unhandled; try reflexivity.
  - intros a b c H1 H2. congruence.
  - intros _ d. apply Keeps_handleSuccessfulPayment; unfold same_unhandled; try reflexivity.
    intros a b c H1 H2. congruence.
Qed.

(** C5, as the program has it.  A webhook body with an [event] member is
    answered 200 with the success acknowledgment when the event is a
    payment-succeeded event (whatever its data, and whatever becomes of
    the reconciliation writes), a transfer event or an event of unknown
    kind, and when it is a payment-failed event whose data names a
    customer; the reconciler of payment-succeeded events never throws and
    its promise never rejects. *)
Theorem webhook_acknowledges rt body w kind :
  Js.get body "event" = inr kind ->
  (kind = Js.Str "charge.failed" ->
   exists d c, Js.get body "data" = inr d /\ nullish d = false /\
               Js.get d "customer" = inr c /\ nullish c = false) ->
  fst (webhook rt body w) = inr acknowledged /\
  unhandled (deliver rt body w) = unhandled w /\
  (forall d v, fst (handleSuccessfulPayment rt d v) = inr tt).
Proof.
  intros He Hfailed.
  split; [| split; [apply (webhook_keeps_unhandled rt body w)
                   | intros d v; apply handleSuccessfulPayment_returns]].
  assert (exists d, Js.get body "data" = inr d) as [d Hd].
  { destruct body; simpl in He |- *; try discriminate; eexists; reflexivity. }
  unfold webhook, try_catch, bind. rewrite He, Hd. cbn [lift ret].
  destruct (Js.strict_eq_str kind "charge.success") eqn:K1.
  { cbn [lift ret console_log]. rewrite detach_handleSuccessfulPayment. reflexivity. }
  destruct (Js.strict_eq_str kind "charge.failed") eqn:K2.
  { destruct (Hfailed (strict_eq_str_true _ _ K2)) as [d' [c [Hd' [Nd [Hc Nc]]]]].
    rewrite Hd in Hd'. injection Hd' as <-.
    cbn [lift ret console_log].
    unfold handleFailedPayment, customer_email, bind.
    destruct (get_defined d "reference" Nd) as [x ->].
    destruct (get_defined d "amount" Nd) as [y ->].
    cbn [lift ret]. rewrite Hc. cbn [lift ret].
    destruct (get_defined c "email" Nc) as [z ->].
    reflexivity. }
  destruct (Js.strict_eq_str kind "transfer.success"); [reflexivity |].
  destruct (Js.strict_eq_str kind "transfer.failed"); reflexivity.
Qed.

Lemma webhook_acknowledges_witness :
  let w := set_faults [None; Some Sample.unreachable] started in
  fst (webhook Host.utc Sample.first_payment w) = inr acknowledged /\
  unhandled (deliver Host.utc Sample.first_payment w) = unhandled w /\
  (forall d v, fst (handleSuccessfulPayment Host.utc d v) = inr tt).
Proof.
  apply (webhook_acknowledges Host.utc Sample.first_payment
           (set_faults [None; Some Sample.unreachable] started)
           (Js.Str "charge.success")).
  - reflexivity.
  - intros H. discriminate H.
Defined.

(** C5 as stated fails: a payment-failed event whose data names no
    customer is a JSON object with an [event] member, and it is answered
    500. *)
Lemma failed_event_without_customer_gets_500 :
  option_map status
    (match fst (webhook Host.utc Sample.failed_without_customer started) with
     | inr r => Some r
     | inl _ => None
     end) = Some 500 /\
  fst (webhook Host.utc Sample.failed_without_customer started) <> inr acknowledged.
Proof. split; [vm_compute; reflexivity | vm_compute; discriminate]. Qed.

(* ================================================================== *)
(** ** Failure of a write step *)


Lemma same_ledger_and_active_trans a b c :
  same_ledger_and_active a b -> same_ledger_and_active b c -> same_ledger_and_active a c.
Proof. unfold same_ledger_and_active. intros [A1 A2] [B1 B2]. split; congruence. Qed.


Lemma createOrUpdateCustomer_frame pc :
  Keeps same_ledger_and_active (createOrUpdateCustomer pc).
Proof.
  apply Keeps_createOrUpdateCustomer;
    try (intros; split; reflexivity); apply same_ledger_and_active_trans.
Qed.


(** With its payload read, the reconciler is the three write steps in
    one [try] block. *)
Lemma handleSuccessfulPayment_steps rt d s a p w :
  Carries d s a p ->
  let paid := newDate rt p in
  let expiry := calculateExpiryDate rt a paid in
  handleSuccessfulPayment rt d w
  = try_catch
      (createOrUpdateCustomer (PartialCustomer.mk (Js.Str s) None None) ;;
       createTransaction (TransactionData.mk (Js.Str s) (Some paid) expiry "SKYNET" a) ;;
       createOrUpdateActiveUser (ActiveUser.mk (Js.Str s) paid expiry "SKYNET") ;;
       ret tt)
      (fun error =>
         console_error "Error processing successful payment:"
           [Js.Str (Js.message error)]) w.
Proof.
  intros [Hp [Ha [c [Hc Hm]]]] paid expiry.
  assert (customer_email d = ret (Js.Str s)) as Hemail.
  { unfold customer_email. rewrite Hc. unfold bind. cbn [lift ret]. rewrite Hm. reflexivity. }
  unfold handleSuccessfulPayment, try_catch.
  rewrite Hemail, Hp, Ha. reflexivity.
Qed.




(* ================================================================== *)
(** ** Validation of an initialise request *)


Lemma gt_zero_passes n : gt_zero n -> (Js.isNaN n || Js.le_zero n)%bool = false.
Proof.
  destruct n as [| negative | q]; simpl; intros H.
  - contradiction.
  - now subst.
  - destruct (Qle_bool q 0) eqn:E; [| reflexivity].
    apply Qle_bool_iff in E. exfalso. exact (Qlt_not_le _ _ H E).
Qed.


Lemma not_positive_number rt v n w :
  ToNumber rt v = inr n ->
  not_positive rt v w = (inr (Js.isNaN n || Js.le_zero n)%bool, w).
Proof.
  intros H. unfold not_positive, bind. rewrite H. cbn [lift ret].
  destruct (Js.isNaN n); reflexivity.
Qed.








(** The other direction: with an email and an amount that count, the
    request goes to the gateway as it came, a string amount as the number
    [parseFloat] reads. *)
Lemma initialize_forwards rt body email amount n w :
  Js.get body "email" = inr email -> Js.truthy email = true ->
  Js.get body "amount" = inr amount -> Js.truthy amount = true ->
  ToNumber rt (numericAmount rt amount) = inr n -> gt_zero n ->
  calls (snd (initialize rt body w))
  = calls w ++ [{| endpoint := "/transaction/initialize"; method := "POST";
                   payload := Js.Obj [("email", email);
                                      ("amount", numericAmount rt amount)] |}].
Proof.
  intros He Hte Ha Hta Hn Hg. unfold initialize, try_catch, bind.
  rewrite He, Ha. cbn [lift ret]. rewrite Hte, Hta. cbn [negb orb].
  rewrite (not_positive_number rt _ n w Hn), (gt_zero_passes _ Hg).
  unfold paystackAPI.
  destruct (hd (inl "Network Error") (replies w)) as [m | result]; [reflexivity |].
  destruct (Js.get result "data"); reflexivity.
Qed.

Example initialize_forwards_positive :
  List.map payload
    (calls (snd (initialize Host.utc
                   (Js.Obj [("email", Js.Str "ada@example.com"); ("amount", Js.Str "500")])
                   started)))
  = [Js.Obj [("email", Js.Str "ada@example.com"); ("amount", jsnum 500)]].
Proof. vm_compute. reflexivity. Qed.

Example initialize_array_amount :
  List.map payload
    (calls (snd (initialize Host.utc
                   (Js.Obj [("email", Js.Str "ada@example.com");
                            ("amount", Js.Arr [jsnum 5])])
                   started)))
  = [Js.Obj [("email", Js.Str "ada@example.com"); ("amount", Js.Arr [jsnum 5])]].
Proof. vm_compute. reflexivity. Qed.

(* ================================================================== *)
(** ** Amounts that are not positive *)

(** A delivery whose amount the ledger validator refuses: the customer is
    upserted, the Transaction insert throws, the ActiveSubscription step is
    not reached. *)
Lemma deliver_refused rt u w body s a p :
  Setup u w -> Quiet w ->
  Succeeded body s a p ->
  EmailPattern.test s = true ->
  valid_amount a = false ->
  let w' := deliver rt body w in
  Mongo.docs (customers w') = customers_after s (clock w) (customers w) /\
  transactions w' = transactions w /\ active w' = active w /\
  List.In (reconcile_error Mongo.DocumentValidationFailure) (console w').
Proof.
  intros S Hq [He [d [Hd Hc]]] Hs Ha w'.
  pose proof Hc as [_ [Hamount _]].
  set (w0 := add_line (line Info "Payment successful:" [d]) w).
  assert (Setup u w0) as S0 by (eapply Setup_frame; [exact S | reflexivity ..]).
  set (pc := PartialCustomer.mk (Js.Str s) None None).
  assert (exists r w1, createOrUpdateCustomer pc w0 = (inr r, w1) /\
            Setup u w1 /\ Quiet w1 /\
            Mongo.docs (customers w1) = customers_after s (clock w) (customers w))
    as [r [w1 [E1 [S1 [Q1 C1]]]]].
  { unfold customers_after.
    destruct (Mongo.has_email (Js.Str s) (customers w)) eqn:Hhas.
    - eexists; eexists; split.
      + apply (createOrUpdateCustomer_existing u w0 pc s S0 Hq eq_refl Hs Hhas).
      + split; [eapply Setup_frame; [exact S0 | reflexivity ..] |].
        split; [exact Hq | reflexivity].
    - eexists; eexists; split.
      + apply (createOrUpdateCustomer_fresh u w0 pc s S0 Hq eq_refl Hs Hhas).
      + split; [eapply Setup_frame; [exact S0 | reflexivity ..] |].
        split; [exact Hq | reflexivity]. }
  set (td := TransactionData.mk (Js.Str s) (Some (newDate rt p))
               (calculateExpiryDate rt a (newDate rt p)) "SKYNET" a).
  pose proof (createTransaction_rejected u w1 td S1 Q1 Ha) as E2.
  pose proof (createOrUpdateCustomer_frame pc w0) as F. rewrite E1 in F.
  destruct F as [Ft Fa].
  subst w'. unfold deliver.
  rewrite (webhook_charge_success rt body d w He Hd). fold w0.
  rewrite (handleSuccessfulPayment_steps rt d s a p w0 Hc).
  unfold try_catch, bind. fold pc td. rewrite E1, E2. cbn [snd console_error].
  split; [exact C1 |]. split; [exact Ft |]. split; [exact Fa |].
  cbn. apply List.in_or_app. right. left. reflexivity.
Qed.

Lemma valid_amount_finite q : valid_amount (Js.Num (Js.Finite q)) = Qle_bool 0 q.
Proof. reflexivity. Qed.

Lemma nonpositive_unlisted q : Qle q 0 -> unlisted (Js.Num (Js.Finite q)).
Proof.
  intros Hle.
  assert (forall k, 0 < k -> ~ is_amount (Js.Num (Js.Finite q)) k) as H.
  { intros k Hk [q' [E Hq']]. injection E as <-.
    rewrite Hq' in Hle. unfold Qle in Hle. simpl in Hle. lia. }
  repeat split; apply H; lia.
Qed.

(** C10, as the program has it.  The calculator is total: every amount
    outside the three tiers, zero and negative amounts included, gives the
    paid-on instant moved one day on the calendar of the host, which is the
    paid-on instant plus one day where the offset of the host is the same
    at both.  A payment-succeeded event with amount zero is reconciled into
    that one-day window for its email.  One with a negative amount is
    refused by the validator of the Transaction collection (minimum 0): its
    Transaction is not stored and the ActiveSubscription step is not
    reached. *)
Theorem nonpositive_amounts rt :
  (forall amount t,
      unlisted amount ->
      calculateExpiryDate rt amount (Some t) = JsDate.TimeClip (local_shift rt t 1) /\
      (SameOffset rt t 1 -> JsDate.valid (JsDate.addDays t 1) ->
       calculateExpiryDate rt amount (Some t) = Some (JsDate.addDays t 1))) /\
  (forall q, Qle q 0 -> unlisted (Js.Num (Js.Finite q))) /\
  (forall w body s a p t,
      Installed w -> Quiet w ->
      Succeeded body s a p ->
      EmailPattern.test s = true ->
      newDate rt p = Some t ->
      let w' := deliver rt body w in
      (is_amount a 0 ->
       List.In (ActiveUser.mk (Js.Str s) (Some t)
                  (Bson.date (JsDate.TimeClip (local_shift rt t 1))) "SKYNET")
               (Mongo.docs (active w'))) /\
      (forall q, a = Js.Num (Js.Finite q) -> Qlt q 0 ->
       transactions w' = transactions w /\ active w' = active w /\
       List.In (reconcile_error Mongo.DocumentValidationFailure) (console w'))).
Proof.
  split; [| split].
  - intros amount t Hun.
    pose proof (calculateExpiryDate_shift_default rt amount t Hun) as Hexp.
    split; [exact Hexp |].
    intros Hsame Hv. rewrite Hexp, (local_shift_same_offset rt t 1 Hsame).
    now apply TimeClip_valid.
  - exact nonpositive_unlisted.
  - intros w body s a p t I Hq Hb Hs Hp w'.
    pose proof (Installed_Setup w I) as S. split.
    + intros [q [-> H0]].
      assert (valid_amount (Js.Num (Js.Finite q)) = true) as Hva.
      { rewrite valid_amount_finite. apply Qle_bool_iff. rewrite H0. apply Qle_refl. }
      assert (unlisted (Js.Num (Js.Finite q))) as Hun.
      { apply nonpositive_unlisted. rewrite H0. apply Qle_refl. }
      destruct (deliver_quiet rt false w body s _ p S Hq Hb Hs Hva)
        as [_ [_ [_ [_ [_ A1]]]]].
      fold w' in A1. rewrite A1. unfold active_after. cbn [andb].
      apply List.in_or_app. right. left.
      rewrite Hp, (calculateExpiryDate_shift_default rt _ t Hun). reflexivity.
    + intros q -> Hneg.
      assert (valid_amount (Js.Num (Js.Finite q)) = false) as Hva.
      { rewrite valid_amount_finite. destruct (Qle_bool 0 q) eqn:E; [| reflexivity].
        apply Qle_bool_iff in E. exfalso. exact (Qlt_not_le _ _ Hneg E). }
      destruct (deliver_refused rt false w body s _ p S Hq Hb Hs Hva) as [_ [Ht [Ha Hl]]].
      repeat split; assumption.
Qed.

Lemma nonpositive_amounts_witness :
  let w' := deliver Host.utc Sample.negative_payment started in
  calculateExpiryDate Host.utc (jsnum (-100)) (Some Sample.T1) = Some Sample.T2 /\
  transactions w' = transactions started /\ active w' = active started /\
  List.In (reconcile_error Mongo.DocumentValidationFailure) (console w').
Proof.
  intros w'.
  destruct (nonpositive_amounts Host.utc) as [Hcalc [Hunlisted Hdeliver]].
  split.
  - assert (unlisted (jsnum (-100))) as Hun.
    { apply Hunlisted. unfold Qle. simpl. lia. }
    destruct (Hcalc (jsnum (-100)) Sample.T1 Hun) as [_ H].
    apply H; [reflexivity | unfold JsDate.valid; vm_compute; discriminate].
  - assert (Succeeded Sample.negative_payment Sample.ada (jsnum (-100)) Sample.at_T1) as Hb.
    { split; [reflexivity |]. eexists. split; [reflexivity |]. apply payment_Carries. }
    assert (EmailPattern.test Sample.ada = true) as Hs by (vm_compute; reflexivity).
    destruct (Hdeliver started Sample.negative_payment Sample.ada (jsnum (-100))
                Sample.at_T1 Sample.T1 Installed_started eq_refl Hb Hs eq_refl) as [_ H].
    apply (H (inject_Z (-100)) eq_refl). reflexivity.
Defined.

(** C10 as stated fails: a payment-succeeded event with a negative
    amount leaves no entitlement window for its email. *)
Lemma negative_amount_yields_no_window :
  let w' := deliver Host.utc Sample.negative_payment started in
  Mongo.find (Js.Str Sample.ada) (active w') = None /\
  Mongo.docs (active w') = [] /\
  Mongo.docs (transactions w') = [] /\
  List.map text (List.filter (fun l => match level l with Err => true | Info => false end)
                   (console w'))
  = ["Error processing successful payment:"].
Proof. vm_compute. repeat split. Qed.

(* ================================================================== *)
(** ** Every window is between one and ninety days *)




(* ================================================================== *)
(** ** The matcher of the e-mail pattern against its language *)

Lemma split_first_app x l a b :
  EmailPattern.split_first x l = Some (a, b) -> l = a ++ x :: b.
Proof.
  revert a b. induction l as [|c l IH]; simpl; intros a b; [discriminate |].
  destruct (Ascii.eqb c x) eqn:E.
  - intros [= <- <-]. apply Ascii.eqb_eq in E. now subst.
  - destruct (EmailPattern.split_first x l) as [[a' b'] |]; [| discriminate].
    intros [= <- <-]. simpl. f_equal. now apply IH.
Qed.

Lemma split_first_absent x l a b :
  EmailPattern.split_first x l = Some (a, b) ->
  forallb (fun c => negb (Ascii.eqb c x)) a = true.
Proof.
  revert a b. induction l as [|c l IH]; simpl; intros a b; [discriminate |].
  destruct (Ascii.eqb c x) eqn:E.
  - intros [= <- <-]. reflexivity.
  - destruct (EmailPattern.split_first x l) as [[a' b'] |]; [| discriminate].
    intros [= <- <-]. simpl. rewrite E. simpl. now apply (IH a' b').
Qed.

Lemma split_first_found x a b :
  forallb (fun c => negb (Ascii.eqb c x)) a = true ->
  EmailPattern.split_first x (a ++ x :: b) = Some (a, b).
Proof.
  induction a as [|c a IH]; simpl.
  - intros _. now rewrite Ascii.eqb_refl.
  - intros H. apply Bool.andb_true_iff in H. destruct H as [Hc Ha].
    apply Bool.negb_true_iff in Hc. rewrite Hc, (IH Ha). reflexivity.
Qed.

Lemma split_last_app x l a b :
  EmailPattern.split_last x l = Some (a, b) -> l = a ++ x :: b.
Proof.
  unfold EmailPattern.split_last.
  destruct (EmailPattern.split_first x (rev l)) as [[a' b'] |] eqn:E; [| discriminate].
  intros [= <- <-]. apply split_first_app in E.
  apply (f_equal (@rev ascii)) in E. rewrite rev_involutive in E.
  rewrite E, rev_app_distr. simpl. now rewrite <- app_assoc.
Qed.

Lemma forallb_rev {A : Type} (p : A -> bool) l : forallb p (rev l) = forallb p l.
Proof.
  induction l as [|c l IH]; simpl; [reflexivity |].
  rewrite forallb_app, IH. simpl. rewrite Bool.andb_true_r. apply Bool.andb_comm.
Qed.

Lemma split_last_found x a b :
  forallb (fun c => negb (Ascii.eqb c x)) b = true ->
  EmailPattern.split_last x (a ++ x :: b) = Some (a, b).
Proof.
  intros H. unfold EmailPattern.split_last.
  rewrite rev_app_distr. simpl. rewrite <- app_assoc. simpl.
  rewrite split_first_found by (now rewrite forallb_rev).
  now rewrite !rev_involutive.
Qed.

Lemma forallb_weaken {A : Type} (p q : A -> bool) l :
  (forall c, p c = true -> q c = true) -> forallb p l = true -> forallb q l = true.
Proof.
  intros Hpq. induction l as [|c l IH]; simpl; [reflexivity |].
  intros H. apply Bool.andb_true_iff in H. destruct H as [Hc Hl].
  now rewrite (Hpq c Hc), (IH Hl).
Qed.

Lemma local_char_not_at c :
  EmailPattern.local_char c = true -> negb (Ascii.eqb c "@") = true.
Proof.
  intros H. destruct (Ascii.eqb c "@") eqn:E; [| reflexivity].
  apply Ascii.eqb_eq in E. subst. discriminate H.
Qed.

Lemma alpha_not_dot c :
  EmailPattern.alpha c = true -> negb (Ascii.eqb c ".") = true.
Proof.
  intros H. destruct (Ascii.eqb c ".") eqn:E; [| reflexivity].
  apply Ascii.eqb_eq in E. subst. discriminate H.
Qed.

Lemma nonempty_all_iff p l :
  EmailPattern.nonempty_all p l = true <-> l <> [] /\ forallb p l = true.
Proof.
  unfold EmailPattern.nonempty_all. destruct l as [|c l]; simpl.
  - split; [discriminate | intros [H _]; now elim H].
  - split; [intros H; split; [discriminate | exact H] | tauto].
Qed.

Lemma matches_exact_iff l :
  EmailPattern.matches_exact l = true <-> EmailShape l.
Proof.
  unfold EmailPattern.matches_exact, EmailShape. split.
  - destruct (EmailPattern.split_first "@" l) as [[loc rest] |] eqn:E1; [| discriminate].
    destruct (EmailPattern.split_last "." rest) as [[dom tld] |] eqn:E2; [| discriminate].
    intros H.
    apply Bool.andb_true_iff in H. destruct H as [H Htc].
    apply Bool.andb_true_iff in H. destruct H as [H Ht].
    apply Bool.andb_true_iff in H. destruct H as [Hl Hd].
    apply nonempty_all_iff in Hl. apply nonempty_all_iff in Hd.
    apply Nat.leb_le in Ht.
    exists loc, dom, tld.
    rewrite (split_first_app _ _ _ _ E1), (split_last_app _ _ _ _ E2). tauto.
  - intros [loc [dom [tld [-> [Hl [Hlc [Hd [Hdc [Ht Htc]]]]]]]]].
    rewrite split_first_found
      by (exact (forallb_weaken _ _ loc local_char_not_at Hlc)).
    rewrite split_last_found
      by (exact (forallb_weaken _ _ tld alpha_not_dot Htc)).
    rewrite (proj2 (nonempty_all_iff _ loc) (conj Hl Hlc)).
    rewrite (proj2 (nonempty_all_iff _ dom) (conj Hd Hdc)).
    rewrite (proj2 (Nat.leb_le _ _) Ht), Htc. reflexivity.
Qed.

Lemma drop_final_newline_cases l :
  (exists l', l = l' ++ ["010"%char] /\ EmailPattern.drop_final_newline l = l') \/
  EmailPattern.drop_final_newline l = l.
Proof.
  unfold EmailPattern.drop_final_newline.
  destruct (rev l) as [|c r] eqn:E; [right; reflexivity |].
  destruct (Ascii.eqb c "010") eqn:Ec; [left | right; reflexivity].
  apply Ascii.eqb_eq in Ec. subst c. exists (rev r). split; [| reflexivity].
  apply (f_equal (@rev ascii)) in E. rewrite rev_involutive in E. exact E.
Qed.

Lemma drop_final_newline_app l :
  EmailPattern.drop_final_newline (l ++ ["010"%char]) = l.
Proof.
  unfold EmailPattern.drop_final_newline.
  rewrite rev_app_distr. simpl. apply rev_involutive.
Qed.

(** X2.  The validators' e-mail test accepts exactly the language of the
    pattern [^[a-zA-Z0-9._%+-]+@[a-zA-Z0-9.-]+\.[a-zA-Z]{2,}$]: a
    non-empty local part, [@], a non-empty domain, a dot and two or more
    letters, optionally followed by one final line feed. *)
Theorem email_pattern_language s :
  EmailPattern.test s = true <->
  EmailShape (list_ascii_of_string s) \/
  exists l, list_ascii_of_string s = l ++ ["010"%char] /\ EmailShape l.
Proof.
  unfold EmailPattern.test. set (l := list_ascii_of_string s).
  rewrite Bool.orb_true_iff, !matches_exact_iff. split.
  - intros [H | H]; [left; exact H |].
    destruct (drop_final_newline_cases l) as [[l' [E D]] | D]; rewrite D in H.
    + right. exists l'. split; assumption.
    + left. exact H.
  - intros [H | [l' [E H]]]; [left; exact H |].
    right. rewrite E, drop_final_newline_app. exact H.
Qed.

(* ================================================================== *)
(** ** Relations every move of the server respects *)

Section Moves.
Variable R : World -> World -> Prop.
Hypothesis R_refl : forall w, R w w.
Hypothesis R_trans : forall a b c, R a b -> R b c -> R a c.
Hypothesis R_line : forall l w, R w (add_line l w).
Hypothesis R_pop : forall w, R w (set_faults (tl (faults w)) w).
Hypothesis R_faults : forall f w, R w (set_faults f w).
Hypothesis R_clock : forall t w, R w (set_clock t w).
Hypothesis R_replies : forall r w, R w (set_replies r w).
Hypothesis R_call : forall c w, R w (add_call c w).
Hypothesis R_insert_customer :
  forall w d c, Mongo.insert d (customers w) = inr c -> R w (set_customers c w).
Hypothesis R_update_customer :
  forall w pc t c,
    Mongo.update (Bson.value (PartialCustomer.email pc))
      (CustomerUpdate.apply
         (Bson.serialize
            (CustomerUpdate.delete_createdAt
               (CustomerUpdate.delete_email (CustomerUpdate.spread pc t)))))
      (customers w) = inr c ->
    R w (set_customers c w).
Hypothesis R_insert_transaction :
  forall w d c, Mongo.insert d (transactions w) = inr c -> R w (set_transactions c w).
Hypothesis R_insert_active :
  forall w d c, Mongo.insert d (active w) = inr c -> R w (set_active c w).
Hypothesis R_update_active :
  forall w a c,
    Mongo.update (Bson.value (ActiveUser.email a)) (set_window (Bson.serialize a))
      (active w) = inr c ->
    R w (set_active c w).

Lemma command_respects {A : Type} (run : World -> Js.Error + A * World) :
  (forall w a w2, run w = inr (a, w2) -> R w w2) -> Keeps R (command run).
Proof.
  intros Hrun w. unfold command.
  destruct (hd None (faults w)) as [e |]; cbn; [apply R_pop |].
  destruct (run (set_faults (tl (faults w)) w)) as [e | [a w2]] eqn:E; cbn;
    [apply R_pop |].
  exact (R_trans _ _ _ (R_pop w) (Hrun _ _ _ E)).
Qed.

Lemma findOne_respects {D : Type} `{Mongo.Keyed D} (h : Handle D) e :
  Keeps R (findOne h e).
Proof. apply command_respects. intros w a w2 [= _ <-]. apply R_refl. Qed.

Lemma createOrUpdateCustomer_respects pc : Keeps R (createOrUpdateCustomer pc).
Proof.
  unfold createOrUpdateCustomer.
  apply Keeps_bind; [assumption | apply Keeps_now; assumption | intros t].
  apply Keeps_try_catch; [assumption | |].
  - apply Keeps_bind; [assumption | | intros _].
    + apply command_respects. intros w a w2. cbn [read write customersCollection].
      destruct (Mongo.insert _ (customers w)) as [e | c] eqn:E; [discriminate |].
      intros [= _ <-]. exact (R_insert_customer _ _ _ E).
    + apply Keeps_bind; [assumption | apply Keeps_console_log; assumption |].
      intros _. apply Keeps_ret; assumption.
  - intros e. apply Keeps_if; [| apply Keeps_throw; assumption].
    apply Keeps_bind; [assumption | | intros _].
    + apply command_respects. intros w a w2. cbn [read write customersCollection].
      destruct (Mongo.update _ _ (customers w)) as [e' | c] eqn:E; [discriminate |].
      intros [= _ <-]. exact (R_update_customer _ _ _ _ E).
    + apply Keeps_bind; [assumption | apply findOne_respects | intros r].
      apply Keeps_bind; [assumption | apply Keeps_console_log; assumption |].
      intros _. apply Keeps_ret; assumption.
Qed.

Lemma createTransaction_respects td : Keeps R (createTransaction td).
Proof.
  unfold createTransaction.
  apply Keeps_bind; [assumption | apply Keeps_now; assumption | intros t].
  apply Keeps_bind; [assumption | | intros _; apply Keeps_ret; assumption].
  apply command_respects. intros w a w2. cbn [read write transactionsCollection].
  destruct (Mongo.insert _ (transactions w)) as [e | c] eqn:E; [discriminate |].
  intros [= _ <-]. exact (R_insert_transaction _ _ _ E).
Qed.

Lemma createOrUpdateActiveUser_respects a : Keeps R (createOrUpdateActiveUser a).
Proof.
  unfold createOrUpdateActiveUser.
  apply Keeps_bind; [assumption | apply Keeps_now; assumption | intros t].
  apply Keeps_try_catch; [assumption | |].
  - apply Keeps_bind; [assumption | | intros _].
    + apply command_respects. intros w x w2. cbn [read write active_users].
      destruct (Mongo.insert _ (active w)) as [e | c] eqn:E; [discriminate |].
      intros [= _ <-]. exact (R_insert_active _ _ _ E).
    + apply Keeps_bind; [assumption | apply Keeps_console_log; assumption |].
      intros _. apply Keeps_ret; assumption.
  - intros e. apply Keeps_if; [| apply Keeps_throw; assumption].
    apply Keeps_bind; [assumption | | intros _].
    + apply command_respects. intros w x w2. cbn [read write active_users].
      destruct (Mongo.update _ _ (active w)) as [e' | c] eqn:E; [discriminate |].
      intros [= _ <-]. exact (R_update_active _ _ _ E).
    + apply Keeps_bind; [assumption | apply findOne_respects | intros r].
      apply Keeps_bind; [assumption | apply Keeps_console_log; assumption |].
      intros _. apply Keeps_ret; assumption.
Qed.

Lemma handleSuccessfulPayment_respects rt d : Keeps R (handleSuccessfulPayment rt d).
Proof.
  unfold handleSuccessfulPayment.
  apply Keeps_try_catch; [assumption | | intros e; apply Keeps_console_error; assumption].
  apply Keeps_bind; [assumption | apply Keeps_lift; assumption | intros p].
  apply Keeps_bind; [assumption | apply Keeps_lift; assumption | intros a].
  apply Keeps_bind; [assumption | apply Keeps_customer_email; assumption | intros s].
  apply Keeps_bind; [assumption | apply createOrUpdateCustomer_respects | intros _].
  apply Keeps_bind; [assumption | apply Keeps_customer_email; assumption | intros s'].
  apply Keeps_bind; [assumption | apply Keeps_lift; assumption | intros a'].
  apply Keeps_bind; [assumption | apply createTransaction_respects | intros _].
  apply Keeps_bind; [assumption | apply Keeps_customer_email; assumption | intros s''].
  apply Keeps_bind; [assumption | apply createOrUpdateActiveUser_respects | intros _].
  apply Keeps_ret; assumption.
Qed.

Lemma webhook_respects rt body : Keeps R (webhook rt body).
Proof.
  apply Keeps_webhook; try assumption.
  intros _ d. apply handleSuccessfulPayment_respects.
Qed.

Lemma paystackAPI_respects endpoint method data :
  Keeps R (paystackAPI endpoint method data).
Proof.
  intros w. unfold paystackAPI.
  destruct (hd _ (replies w)); cbn [snd];
    exact (R_trans _ _ _ (R_replies _ w) (R_call _ _)).
Qed.

Lemma not_positive_respects rt v : Keeps R (not_positive rt v).
Proof.
  unfold not_positive.
  apply Keeps_bind; [assumption | apply Keeps_lift; assumption | intros n].
  apply Keeps_if; [apply Keeps_ret; assumption |].
  apply Keeps_bind; [assumption | apply Keeps_lift; assumption | intros m].
  apply Keeps_ret; assumption.
Qed.

Lemma initialize_respects rt body : Keeps R (initialize rt body).
Proof.
  unfold initialize.
  apply Keeps_try_catch; [assumption | |].
  - apply Keeps_bind; [assumption | apply Keeps_lift; assumption | intros email].
    apply Keeps_bind; [assumption | apply Keeps_lift; assumption | intros amount].
    apply Keeps_if; [apply Keeps_ret; assumption |].
    apply Keeps_bind; [assumption | apply not_positive_respects | intros refused].
    apply Keeps_if; [apply Keeps_ret; assumption |].
    apply Keeps_bind; [assumption | apply paystackAPI_respects | intros r].
    apply Keeps_bind; [assumption | apply Keeps_lift; assumption | intros d].
    apply Keeps_ret; assumption.
  - intros e.
    apply Keeps_bind; [assumption | apply Keeps_console_error; assumption |].
    intros _. apply Keeps_ret; assumption.
Qed.

Lemma verify_respects reference : Keeps R (verify reference).
Proof.
  unfold verify.
  apply Keeps_try_catch; [assumption | |].
  - apply Keeps_if; [apply Keeps_ret; assumption |].
    apply Keeps_bind; [assumption | apply paystackAPI_respects | intros r].
    apply Keeps_bind; [assumption | apply Keeps_lift; assumption | intros d].
    apply Keeps_ret; assumption.
  - intros e.
    apply Keeps_bind; [assumption | apply Keeps_console_error; assumption |].
    intros _. apply Keeps_ret; assumption.
Qed.

Lemma Step_respects rt w w' : Step rt w w' -> R w w'.
Proof.
  intros [body v | request v | reference v | t v | f v | r v].
  - apply webhook_respects.
  - apply initialize_respects.
  - apply verify_respects.
  - apply R_clock.
  - apply R_faults.
  - apply R_replies.
Qed.

Lemma Runs_respects rt w w' : Runs (Step rt) w w' -> R w w'.
Proof.
  induction 1 as [v | w1 w2 w3 _ IH Hs]; [apply R_refl |].
  exact (R_trans _ _ _ IH (Step_respects rt _ _ Hs)).
Qed.

Lemma QuietStep_respects rt w w' : QuietStep rt w w' -> R w w'.
Proof.
  intros [body v | t v]; [apply webhook_respects | apply R_clock].
Qed.

Lemma QuietRuns_respects rt w w' : Runs (QuietStep rt) w w' -> R w w'.
Proof.
  induction 1 as [v | w1 w2 w3 _ IH Hs]; [apply R_refl |].
  exact (R_trans _ _ _ IH (QuietStep_respects rt _ _ Hs)).
Qed.
End Moves.

(* ================================================================== *)
(** ** What a successful insert or update has done *)

Lemma insert_done {D : Type} `{Mongo.Keyed D} (d : D) (c c' : Mongo.Collection D) :
  Mongo.insert d c = inr c' ->
  Mongo.accepts c d = true /\
  (Mongo.unique_email c && Mongo.has_email (Mongo.email_of d) c)%bool = false /\
  c' = Mongo.with_docs (Mongo.docs c ++ [d]) c.
Proof.
  unfold Mongo.insert.
  destruct (Mongo.accepts c d); cbn [negb]; [| discriminate].
  destruct (Mongo.unique_email c && Mongo.has_email (Mongo.email_of d) c)%bool;
    [discriminate |].
  intros [= <-]. repeat split.
Qed.

Lemma update_done {D : Type} `{Mongo.Keyed D} e (f : D -> D) (c c' : Mongo.Collection D) :
  Mongo.update e f c = inr c' ->
  (Mongo.find e c = None /\ c' = c) \/
  (exists d, Mongo.find e c = Some d /\ Mongo.accepts c (f d) = true /\
             c' = Mongo.with_docs (Mongo.replace_first e f (Mongo.docs c)) c).
Proof.
  unfold Mongo.update.
  destruct (Mongo.find e c) as [d |]; [| intros [= <-]; left; split; reflexivity].
  destruct (Mongo.accepts c (f d)) eqn:E; cbn [negb]; [| discriminate].
  intros [= <-]. right. exists d. repeat split. exact E.
Qed.

Lemma same_key_meet a b e :
  Mongo.same_key a e = true -> Mongo.same_key b e = true -> Mongo.same_key a b = true.
Proof.
  destruct a as [| | ? | [| ? | ?] | ? | |], b as [| | ? | [| ? | ?] | ? | |],
           e as [| | ? | [| ? | ?] | ? | |];
    simpl; try discriminate; try reflexivity; intros H1 H2.
  - apply Bool.eqb_prop in H1, H2. subst. apply Bool.eqb_reflx.
  - apply Bool.eqb_prop in H1, H2. subst. apply Bool.eqb_reflx.
  - apply Qeq_bool_iff in H1, H2. apply Qeq_bool_iff. rewrite H1, H2. reflexivity.
  - apply String.eqb_eq in H1, H2. subst. apply String.eqb_refl.
Qed.

Lemma count_zero_of_fresh {D : Type} `{Mongo.Keyed D} (d : D) e (c : Mongo.Collection D) :
  Mongo.has_email (Mongo.email_of d) c = false ->
  Mongo.same_key (Mongo.email_of d) e = true ->
  count e c = 0%nat.
Proof.
  unfold Mongo.has_email, count.
  induction (Mongo.docs c) as [|x l IH]; simpl; [reflexivity |].
  intros Hf Hk. apply Bool.orb_false_iff in Hf. destruct Hf as [Hx Hl].
  destruct (Mongo.same_key (Mongo.email_of x) e) eqn:E.
  - rewrite (same_key_meet _ _ _ E Hk) in Hx. discriminate.
  - now apply IH.
Qed.

Lemma insert_keeps_unique {D : Type} `{Mongo.Keyed D} (d : D) (c c' : Mongo.Collection D) :
  Mongo.unique_email c = true ->
  (forall e, (count e c <= 1)%nat) ->
  Mongo.insert d c = inr c' ->
  Mongo.unique_email c' = true /\ forall e, (count e c' <= 1)%nat.
Proof.
  intros Hu Hc Hi. destruct (insert_done d c c' Hi) as [_ [Hfree ->]].
  rewrite Hu in Hfree. cbn [andb] in Hfree.
  split; [exact Hu |]. intros e. rewrite count_app. cbn [List.filter].
  destruct (Mongo.same_key (Mongo.email_of d) e) eqn:E; cbn [List.length].
  - rewrite (count_zero_of_fresh d e c Hfree E). lia.
  - specialize (Hc e). lia.
Qed.

Lemma update_keeps_count {D : Type} `{Mongo.Keyed D} e (f : D -> D)
    (c c' : Mongo.Collection D) :
  (forall d, Mongo.email_of (f d) = Mongo.email_of d) ->
  Mongo.update e f c = inr c' ->
  Mongo.unique_email c' = Mongo.unique_email c /\ forall e', count e' c' = count e' c.
Proof.
  intros Hf Hu. destruct (update_done e f c c' Hu) as [[_ ->] | [d [_ [_ ->]]]].
  - split; reflexivity.
  - split; [reflexivity |]. intros e'. unfold count. cbn [Mongo.docs Mongo.with_docs].
    now apply filter_replace_first.
Qed.

(** X3.  Once email is unique in the customers collection it stays so:
    whatever requests arrive, whatever the clock, the database failures
    and the gateway answers, no email ever has more than one Customer
    record. *)
Theorem one_customer_per_email rt w w' :
  Runs (Step rt) w w' ->
  OneCustomerPerEmail w -> OneCustomerPerEmail w'.
Proof.
  apply (Runs_respects (fun v v' => OneCustomerPerEmail v -> OneCustomerPerEmail v'));
    unfold OneCustomerPerEmail; try (intros; assumption); try tauto.
  - intros v d c Hi [Hu Hc]. cbn [customers set_customers].
    exact (insert_keeps_unique d (customers v) c Hu Hc Hi).
  - intros v pc t c Hupd [Hu Hc]. cbn [customers set_customers].
    pose proof Hupd as Hupd'.
    apply update_keeps_count in Hupd'; [| intros d; reflexivity].
    destruct Hupd' as [Hu' Hc'].
    split; [now rewrite Hu' |]. intros e. rewrite Hc'. apply Hc.
Qed.

Lemma one_customer_per_email_witness :
  OneCustomerPerEmail
    (deliver Host.utc Sample.first_payment
       (set_faults [None; Some Sample.unreachable]
          (deliver Host.utc Sample.first_payment started))).
Proof.
  apply (one_customer_per_email Host.utc started).
  - eapply runs_then; [eapply runs_then; [eapply runs_then; [apply runs_here |] |] |].
    + apply (step_webhook Host.utc Sample.first_payment).
    + apply (step_faults Host.utc [None; Some Sample.unreachable]).
    + apply (step_webhook Host.utc Sample.first_payment).
  - split; [reflexivity |]. intros e. vm_compute. lia.
Defined.

Lemma Forall_replace_first {D : Type} `{Mongo.Keyed D} (P : D -> Prop) e (f : D -> D) l d :
  List.Forall P l ->
  List.find (fun x => Mongo.same_key (Mongo.email_of x) e) l = Some d ->
  P (f d) ->
  List.Forall P (Mongo.replace_first e f l).
Proof.
  intros Hl. induction Hl as [|x l Hx Hl IH]; simpl; [discriminate |].
  destruct (Mongo.same_key (Mongo.email_of x) e).
  - intros [= ->] Hf. constructor; assumption.
  - intros Hfind Hf. constructor; [exact Hx | now apply IH].
Qed.

Lemma insert_keeps_valid {D : Type} `{Mongo.Keyed D} (schema : D -> bool) d
    (c c' : Mongo.Collection D) :
  Mongo.validator c = Some schema ->
  List.Forall (fun x => schema x = true) (Mongo.docs c) ->
  Mongo.insert d c = inr c' ->
  Mongo.validator c' = Some schema /\
  List.Forall (fun x => schema x = true) (Mongo.docs c').
Proof.
  intros Hv Hall Hi. destruct (insert_done d c c' Hi) as [Hacc [_ ->]].
  split; [exact Hv |]. cbn [Mongo.docs Mongo.with_docs].
  apply List.Forall_app. split; [exact Hall |].
  constructor; [| constructor]. unfold Mongo.accepts in Hacc. now rewrite Hv in Hacc.
Qed.

Lemma update_keeps_valid {D : Type} `{Mongo.Keyed D} (schema : D -> bool) e (f : D -> D)
    (c c' : Mongo.Collection D) :
  Mongo.validator c = Some schema ->
  List.Forall (fun x => schema x = true) (Mongo.docs c) ->
  Mongo.update e f c = inr c' ->
  Mongo.validator c' = Some schema /\
  List.Forall (fun x => schema x = true) (Mongo.docs c').
Proof.
  intros Hv Hall Hu.
  destruct (update_done e f c c' Hu) as [[_ ->] | [d [Hfind [Hacc ->]]]].
  - split; assumption.
  - split; [exact Hv |]. cbn [Mongo.docs Mongo.with_docs].
    apply (Forall_replace_first _ e f _ d Hall Hfind).
    unfold Mongo.accepts in Hacc. now rewrite Hv in Hacc.
Qed.

(** X4.  With the validators of [createValidationRules] installed, every
    document the server ever stores passes its validator: whatever
    requests arrive and whatever fails, no customer, ledger or active
    record with a malformed email is stored, and no ledger record with a
    negative or non-numeric amount. *)
Theorem stored_documents_stay_valid rt w w' :
  Runs (Step rt) w w' ->
  Validated w -> Validated w'.
Proof.
  apply (Runs_respects (fun v v' => Validated v -> Validated v'));
    unfold Validated; try (intros; assumption); try tauto.
  - intros v d c Hi [Vc [Vt [Va [Fc [Ft Fa]]]]]. cbn.
    destruct (insert_keeps_valid _ d (customers v) c Vc Fc Hi). tauto.
  - intros v pc t c Hu [Vc [Vt [Va [Fc [Ft Fa]]]]]. cbn.
    destruct (update_keeps_valid _ _ _ (customers v) c Vc Fc Hu). tauto.
  - intros v d c Hi [Vc [Vt [Va [Fc [Ft Fa]]]]]. cbn.
    destruct (insert_keeps_valid _ d (transactions v) c Vt Ft Hi). tauto.
  - intros v d c Hi [Vc [Vt [Va [Fc [Ft Fa]]]]]. cbn.
    destruct (insert_keeps_valid _ d (active v) c Va Fa Hi). tauto.
  - intros v a c Hu [Vc [Vt [Va [Fc [Ft Fa]]]]]. cbn.
    destruct (update_keeps_valid _ _ _ (active v) c Va Fa Hu). tauto.
Qed.

Lemma stored_documents_stay_valid_witness :
  Validated (deliver Host.utc Sample.second_payment
               (deliver Host.utc Sample.negative_payment started)).
Proof.
  apply (stored_documents_stay_valid Host.utc started).
  - eapply runs_then; [eapply runs_then; [apply runs_here |] |].
    + apply (step_webhook Host.utc Sample.negative_payment).
    + apply (step_webhook Host.utc Sample.second_payment).
  - repeat split; constructor.
Defined.

(** What [Validated] says of a ledger record. *)
Lemma Validated_ledger w t :
  Validated w -> List.In t (Mongo.docs (transactions w)) ->
  valid_email (Transaction.email t) = true /\ valid_amount (Transaction.amount t) = true.
Proof.
  intros [_ [_ [_ [_ [Ft _]]]]] Hin.
  rewrite List.Forall_forall in Ft. specialize (Ft t Hin).
  now apply Bool.andb_true_iff in Ft.
Qed.

(** X5.  The ledger is append-only: whatever requests arrive and
    whatever fails, the Transaction records stored before are still
    there, unchanged and in their places; records are only added at the
    end. *)
Theorem ledger_is_append_only rt w w' :
  Runs (Step rt) w w' -> LedgerExtends w w'.
Proof.
  apply (Runs_respects LedgerExtends); unfold LedgerExtends;
    try (intros; exists []; cbn; now rewrite List.app_nil_r).
  - intros a b c [l1 H1] [l2 H2]. exists (l1 ++ l2). now rewrite H2, H1, List.app_assoc.
  - intros v d c Hi. destruct (insert_done d (transactions v) c Hi) as [_ [_ ->]].
    exists [d]. reflexivity.
Qed.

Lemma ledger_is_append_only_witness :
  LedgerExtends
    (deliver Host.utc Sample.first_payment started)
    (deliver Host.utc Sample.first_payment
       (set_faults [Some Sample.unreachable]
          (deliver Host.utc Sample.second_payment
             (deliver Host.utc Sample.first_payment started)))).
Proof.
  apply (ledger_is_append_only Host.utc).
  eapply runs_then; [eapply runs_then; [eapply runs_then; [apply runs_here |] |] |].
  - apply (step_webhook Host.utc Sample.second_payment).
  - apply (step_faults Host.utc [Some Sample.unreachable]).
  - apply (step_webhook Host.utc Sample.first_payment).
Defined.

Lemma map_identity_replace_first e (f : Customer.t -> Customer.t) l :
  (forall c, identity (f c) = identity c) ->
  List.map identity (Mongo.replace_first e f l) = List.map identity l.
Proof.
  intros Hf. induction l as [|x l IH]; simpl; [reflexivity |].
  destruct (Mongo.same_key (Mongo.email_of x) e); simpl.
  - now rewrite Hf.
  - now rewrite IH.
Qed.

(** X6.  A Customer record is never removed and its [email] and
    [createdAt] are never rewritten: whatever requests arrive and whatever
    fails, the customers stored before are still there, in their places,
    with the email and creation date they had. *)
Theorem customers_are_write_once rt w w' :
  Runs (Step rt) w w' -> CustomersExtend w w'.
Proof.
  apply (Runs_respects CustomersExtend); unfold CustomersExtend;
    try (intros; exists []; cbn; now rewrite List.app_nil_r).
  - intros a b c [l1 H1] [l2 H2]. exists (l1 ++ l2). now rewrite H2, H1, List.app_assoc.
  - intros v d c Hi. destruct (insert_done d (customers v) c Hi) as [_ [_ ->]].
    exists [identity d]. cbn. now rewrite List.map_app.
  - intros v pc t c Hu.
    destruct (update_done _ _ (customers v) c Hu) as [[_ ->] | [d [_ [_ ->]]]];
      exists []; cbn; rewrite List.app_nil_r; [reflexivity |].
    apply map_identity_replace_first. intros x. reflexivity.
Qed.

Lemma customers_are_write_once_witness :
  CustomersExtend
    (deliver Host.utc Sample.first_payment started)
    (deliver Host.utc Sample.second_payment
       (set_clock 5000 (deliver Host.utc Sample.first_payment started))).
Proof.
  apply (customers_are_write_once Host.utc).
  eapply runs_then; [eapply runs_then; [apply runs_here |] |].
  - apply (step_clock Host.utc 5000).
  - apply (step_webhook Host.utc Sample.second_payment).
Defined.

(* ================================================================== *)
(** ** A delivery while the database is reachable *)

Lemma insert_same_setup {D : Type} `{Mongo.Keyed D} (d : D) (c c' : Mongo.Collection D) :
  Mongo.insert d c = inr c' ->
  Mongo.indexes c' = Mongo.indexes c /\ Mongo.validator c' = Mongo.validator c.
Proof. intros Hi. destruct (insert_done d c c' Hi) as [_ [_ ->]]. split; reflexivity. Qed.

Lemma update_same_setup {D : Type} `{Mongo.Keyed D} e (f : D -> D)
    (c c' : Mongo.Collection D) :
  Mongo.update e f c = inr c' ->
  Mongo.indexes c' = Mongo.indexes c /\ Mongo.validator c' = Mongo.validator c.
Proof.
  intros Hu. destruct (update_done e f c c' Hu) as [[_ ->] | [d [_ [_ ->]]]];
    split; reflexivity.
Qed.

Lemma webhook_keeps_Setup rt u body w : Setup u w -> Setup u (deliver rt body w).
Proof.
  apply (webhook_respects (fun v v' => Setup u v -> Setup u v')); try tauto;
    try (intros; eapply Setup_frame; [eassumption | reflexivity ..]).
  - intros v d c Hi S. destruct (insert_same_setup d _ c Hi).
    eapply Setup_frame; [exact S | assumption .. | reflexivity | reflexivity
                        | reflexivity | reflexivity].
  - intros v pc t c Hu S. destruct (update_same_setup _ _ _ c Hu).
    eapply Setup_frame; [exact S | assumption .. | reflexivity | reflexivity
                        | reflexivity | reflexivity].
  - intros v d c Hi S. destruct (insert_same_setup d _ c Hi).
    eapply Setup_frame; [exact S | reflexivity | reflexivity | assumption ..
                        | reflexivity | reflexivity].
  - intros v d c Hi S. destruct (insert_same_setup d _ c Hi).
    eapply Setup_frame; [exact S | reflexivity | reflexivity | reflexivity | reflexivity
                        | assumption ..].
  - intros v a c Hu S. destruct (update_same_setup _ _ _ c Hu).
    eapply Setup_frame; [exact S | reflexivity | reflexivity | reflexivity | reflexivity
                        | assumption ..].
Qed.

Lemma webhook_keeps_Quiet rt body w : Quiet w -> Quiet (deliver rt body w).
Proof.
  apply (webhook_respects (fun v v' => Quiet v -> Quiet v')); unfold Quiet;
    try tauto; try (intros; assumption).
  intros v H. cbn. now rewrite H.
Qed.

Lemma createOrUpdateCustomer_rejected u w pc :
  Setup u w -> Quiet w ->
  valid_email (PartialCustomer.email pc) = false ->
  createOrUpdateCustomer pc w = (inl Mongo.DocumentValidationFailure, w).
Proof.
  intros S Hq Hv.
  unfold createOrUpdateCustomer, bind, now, try_catch, insertOne.
  rewrite (command_quiet _ w Hq). cbn [read customersCollection].
  unfold Mongo.insert. rewrite (accepts_customer u w _ S).
  unfold customer_schema, Bson.serialize, Serial_Customer. cbn [Customer.email].
  rewrite valid_email_value, Hv. reflexivity.
Qed.

Lemma valid_email_Str v :
  valid_email v = true -> exists s, v = Js.Str s /\ EmailPattern.test s = true.
Proof.
  destruct v; simpl; try discriminate. intros H. eexists. split; [reflexivity | exact H].
Qed.



Lemma handleSuccessfulPayment_unreadable rt d w e :
  read_payment d = inl e ->
  handleSuccessfulPayment rt d w = (inr tt, add_line (reconcile_error e) w).
Proof.
  unfold read_payment, handleSuccessfulPayment, try_catch, customer_email, bind.
  destruct (Js.get d "paid_at") as [e1 | p]; cbn [lift ret throw].
  { intros [= ->]. reflexivity. }
  destruct (Js.get d "amount") as [e1 | a]; cbn [lift ret throw].
  { intros [= ->]. reflexivity. }
  destruct (Js.get d "customer") as [e1 | c]; cbn [lift ret throw].
  { intros [= ->]. reflexivity. }
  destruct (Js.get c "email") as [e1 | v]; cbn [lift ret throw].
  { intros [= ->]. reflexivity. }
  discriminate.
Qed.

Lemma read_payment_Carries d p a s :
  read_payment d = inr (p, a, Js.Str s) -> Carries d s a p.
Proof.
  unfold read_payment, Carries.
  destruct (Js.get d "paid_at") as [e1 | p']; [discriminate |].
  destruct (Js.get d "amount") as [e1 | a']; [discriminate |].
  destruct (Js.get d "customer") as [e1 | c] eqn:Hc; [discriminate |].
  destruct (Js.get c "email") as [e1 | v] eqn:Hv; [discriminate |].
  intros [= -> -> ->]. repeat split. exists c. split; [reflexivity | exact Hv].
Qed.

Lemma handleSuccessfulPayment_refused_email rt u d w p a v :
  Setup u w -> Quiet w ->
  read_payment d = inr (p, a, v) ->
  valid_email v = false ->
  handleSuccessfulPayment rt d w
  = (inr tt, add_line (reconcile_error Mongo.DocumentValidationFailure) w).
Proof.
  intros S Hq Hr Hv.
  unfold read_payment in Hr.
  destruct (Js.get d "paid_at") as [e1 | p'] eqn:Hp; [discriminate |].
  destruct (Js.get d "amount") as [e1 | a'] eqn:Ha; [discriminate |].
  destruct (Js.get d "customer") as [e1 | c] eqn:Hc; [discriminate |].
  destruct (Js.get c "email") as [e1 | v'] eqn:Hm; [discriminate |].
  injection Hr as -> -> ->.
  assert (customer_email d = ret v) as Hemail.
  { unfold customer_email. rewrite Hc. unfold bind. cbn [lift ret]. rewrite Hm. reflexivity. }
  unfold handleSuccessfulPayment, try_catch.
  rewrite Hp, Ha, Hemail. unfold bind. cbn [lift ret].
  rewrite (createOrUpdateCustomer_rejected u w (PartialCustomer.mk v None None) S Hq Hv).
  reflexivity.
Qed.

Lemma not_success_same_store rt body w :
  Js.get body "event" <> inr (Js.Str "charge.success") ->
  same_store w (deliver rt body w).
Proof.
  intros Hk. apply (Keeps_webhook same_store); unfold same_store.
  - intros v. repeat split.
  - intros a b c [A1 [A2 A3]] [B1 [B2 B3]]. repeat split; congruence.
  - intros l v. repeat split.
  - intros He. contradiction.
Qed.

(** What one delivery does to the store of a quiet server set up by
    [connectDB]: nothing, or a customer upsert alone (the amount is
    refused), or a customer upsert and one record more in the ledger and in
    the active collection. *)
Lemma deliver_quiet_cases rt w body :
  Setup false w -> Quiet w ->
  let w' := deliver rt body w in
  same_store w w' \/
  exists s a p,
    EmailPattern.test s = true /\
    Mongo.docs (customers w') = customers_after s (clock w) (customers w) /\
    ((valid_amount a = false /\
      transactions w' = transactions w /\ active w' = active w) \/
     (valid_amount a = true /\
      Mongo.docs (transactions w')
      = Mongo.docs (transactions w)
        ++ [Transaction.mk (Js.Str s) (Bson.date (newDate rt p))
              (Bson.date (calculateExpiryDate rt a (newDate rt p))) "SKYNET" a] /\
      Mongo.docs (active w')
      = Mongo.docs (active w)
        ++ [ActiveUser.mk (Js.Str s) (Bson.date (newDate rt p))
              (Bson.date (calculateExpiryDate rt a (newDate rt p))) "SKYNET"])).
Proof.
  intros S Hq w'.
  destruct (Js.get body "event") as [e | kind] eqn:He.
  { left. apply not_success_same_store. rewrite He. discriminate. }
  destruct (Js.strict_eq_str kind "charge.success") eqn:K.
  2:{ left. apply not_success_same_store. rewrite He. intros [= ->].
      simpl in K. discriminate. }
  apply strict_eq_str_true in K. subst kind.
  assert (exists d, Js.get body "data" = inr d) as [d Hd].
  { destruct body; simpl in He |- *; try discriminate; eexists; reflexivity. }
  set (w0 := add_line (line Info "Payment successful:" [d]) w).
  assert (Setup false w0) as S0 by (eapply Setup_frame; [exact S | reflexivity ..]).
  assert (w' = snd (handleSuccessfulPayment rt d w0)) as Hw'.
  { subst w'. unfold deliver. now rewrite (webhook_charge_success rt body d w He Hd). }
  destruct (read_payment d) as [e | [[p a] v]] eqn:Hr.
  { left. rewrite Hw', (handleSuccessfulPayment_unreadable rt d w0 e Hr). repeat split. }
  destruct (valid_email v) eqn:Hv.
  2:{ left. rewrite Hw', (handleSuccessfulPayment_refused_email rt false d w0 p a v S0 Hq Hr Hv).
      repeat split. }
  destruct (valid_email_Str v Hv) as [s [-> Hs]].
  pose proof (read_payment_Carries d p a s Hr) as Hc.
  assert (Succeeded body s a p) as Hb by (split; [exact He | exists d; split; assumption]).
  right. exists s, a, p. split; [exact Hs |].
  destruct (valid_amount a) eqn:Ha.
  - destruct (deliver_quiet rt false w body s a p S Hq Hb Hs Ha)
      as [_ [_ [_ [C1 [T1 A1]]]]].
    split; [exact C1 |]. right. split; [reflexivity |]. split; [exact T1 | exact A1].
  - destruct (deliver_refused rt false w body s a p S Hq Hb Hs Ha) as [C1 [T1 [A1 _]]].
    split; [exact C1 |]. left. split; [reflexivity |]. split; assumption.
Qed.

(* ================================================================== *)
(** ** What holds as long as the database stays reachable *)

Lemma QuietRuns_keep_server rt w w' :
  Runs (QuietStep rt) w w' -> Setup false w -> Quiet w -> Setup false w' /\ Quiet w'.
Proof.
  induction 1 as [v | w1 w2 w3 _ IH Hs]; [tauto |].
  intros S Hq. destruct (IH S Hq) as [S2 Q2].
  destruct Hs as [body v | t v].
  - split; [now apply webhook_keeps_Setup | now apply webhook_keeps_Quiet].
  - split; [now apply Setup_set_clock | exact Q2].
Qed.

Lemma has_email_customers_after e s t (c c' : Mongo.Collection Customer.t) :
  Mongo.docs c' = customers_after s t c ->
  Mongo.has_email e c = true -> Mongo.has_email e c' = true.
Proof.
  intros Hd He. apply has_email_true_count. apply has_email_true_count in He.
  unfold count in *. rewrite Hd. unfold customers_after.
  destruct (Mongo.has_email (Js.Str s) c).
  - rewrite filter_replace_first by (intros d; reflexivity). exact He.
  - rewrite List.filter_app, List.length_app. lia.
Qed.

Lemma has_own_email_customers_after s t (c c' : Mongo.Collection Customer.t) :
  Mongo.docs c' = customers_after s t c ->
  Mongo.has_email (Js.Str s) c' = true.
Proof.
  intros Hd. destruct (Mongo.has_email (Js.Str s) c) eqn:E.
  - exact (has_email_customers_after _ s t c c' Hd E).
  - apply has_email_true_count. unfold count. rewrite Hd. unfold customers_after.
    rewrite E, List.filter_app, List.length_app. cbn.
    rewrite String.eqb_refl. cbn. lia.
Qed.

Lemma has_email_same_docs {D : Type} `{Mongo.Keyed D} e (c c' : Mongo.Collection D) :
  c' = c -> Mongo.has_email e c' = Mongo.has_email e c.
Proof. now intros ->. Qed.

(** X8.  As long as the database stays reachable, every ledger record
    belongs to a stored customer: the Customer upsert comes first, so no
    sequence of webhook deliveries leaves a Transaction whose email has no
    Customer record. *)
Theorem ledger_records_have_customers rt w w' :
  Runs (QuietStep rt) w w' ->
  Installed w -> Quiet w ->
  LedgerHasCustomers w -> LedgerHasCustomers w'.
Proof.
  intros Hruns I Hq. pose proof (Installed_Setup w I) as S. clear I.
  induction Hruns as [v | w1 w2 w3 Hruns IH Hs]; [tauto |].
  intros L1. specialize (IH Hq S L1).
  destruct (QuietRuns_keep_server rt _ _ Hruns S Hq) as [S2 Q2].
  destruct Hs as [body v | t v]; [| exact IH].
  destruct (deliver_quiet_cases rt v body S2 Q2)
    as [[Hc [Ht Ha]] | [s [a [p [Hs [Hc [[_ [Ht Ha]] | [_ [Ht Ha]]]]]]]]];
    unfold LedgerHasCustomers in *.
  - rewrite Ht, Hc. exact IH.
  - rewrite Ht. intros x Hx. exact (has_email_customers_after _ _ _ _ _ Hc (IH x Hx)).
  - rewrite Ht. intros x Hx. apply List.in_app_or in Hx. destruct Hx as [Hx | [<- | []]].
    + exact (has_email_customers_after _ _ _ _ _ Hc (IH x Hx)).
    + exact (has_own_email_customers_after _ _ _ _ Hc).
Qed.

Lemma ledger_records_have_customers_witness :
  LedgerHasCustomers
    (deliver Host.utc Sample.second_payment
       (set_clock 5000 (deliver Host.utc Sample.first_payment started))).
Proof.
  apply (ledger_records_have_customers Host.utc started).
  - eapply runs_then; [eapply runs_then; [eapply runs_then; [apply runs_here |] |] |].
    + apply (quiet_webhook Host.utc Sample.first_payment).
    + apply (quiet_clock Host.utc 5000).
    + apply (quiet_webhook Host.utc Sample.second_payment).
  - exact Installed_started.
  - reflexivity.
  - intros t H. vm_compute in H. elim H.
Defined.

(** X9.  As long as the database stays reachable, every active record is
    the window of a ledger record: for each record of the active
    collection the ledger holds a Transaction with the same email, paid_on,
    expires_on and service. *)
Theorem active_records_come_from_ledger rt w w' :
  Runs (QuietStep rt) w w' ->
  Installed w -> Quiet w ->
  ActiveFromLedger w -> ActiveFromLedger w'.
Proof.
  intros Hruns I Hq. pose proof (Installed_Setup w I) as S. clear I.
  induction Hruns as [v | w1 w2 w3 Hruns IH Hs]; [tauto |].
  intros L1. specialize (IH Hq S L1).
  destruct (QuietRuns_keep_server rt _ _ Hruns S Hq) as [S2 Q2].
  destruct Hs as [body v | t v]; [| exact IH].
  destruct (deliver_quiet_cases rt v body S2 Q2)
    as [[Hc [Ht Ha]] | [s [a [p [Hs [Hc [[_ [Ht Ha]] | [_ [Ht Ha]]]]]]]]];
    unfold ActiveFromLedger in *.
  - rewrite Ht, Ha. exact IH.
  - rewrite Ht, Ha. exact IH.
  - rewrite Ht, Ha. intros x Hx. apply List.in_app_or in Hx.
    destruct Hx as [Hx | [<- | []]].
    + destruct (IH x Hx) as [t [Hin Heq]]. exists t. split; [| exact Heq].
      apply List.in_or_app. now left.
    + eexists. split; [apply List.in_or_app; right; left; reflexivity |].
      repeat split.
Qed.

Lemma active_records_come_from_ledger_witness :
  ActiveFromLedger
    (deliver Host.utc Sample.second_payment
       (deliver Host.utc Sample.first_payment started)).
Proof.
  apply (active_records_come_from_ledger Host.utc started).
  - eapply runs_then; [eapply runs_then; [apply runs_here |] |].
    + apply (quiet_webhook Host.utc Sample.first_payment).
    + apply (quiet_webhook Host.utc Sample.second_payment).
  - exact Installed_started.
  - reflexivity.
  - intros t H. vm_compute in H. elim H.
Defined.

(** X10.  On the server as [connectDB] sets it up, and as long as the
    database stays reachable, the active collection grows with the ledger:
    over any sequence of webhook deliveries it receives exactly as many
    records as the ledger does, none of them replacing an earlier one. *)
Theorem active_grows_with_ledger rt w w' :
  Runs (QuietStep rt) w w' ->
  Installed w -> Quiet w ->
  GrownTogether w w'.
Proof.
  intros Hruns I Hq. pose proof (Installed_Setup w I) as S. clear I.
  unfold GrownTogether.
  induction Hruns as [v | w1 w2 w3 Hruns IH Hs]; [reflexivity |].
  specialize (IH Hq S).
  destruct (QuietRuns_keep_server rt _ _ Hruns S Hq) as [S2 Q2].
  destruct Hs as [body v | t v]; [| exact IH].
  destruct (deliver_quiet_cases rt v body S2 Q2)
    as [[Hc [Ht Ha]] | [s [a [p [Hs [Hc [[_ [Ht Ha]] | [_ [Ht Ha]]]]]]]]].
  - rewrite Ht, Ha. exact IH.
  - rewrite Ht, Ha. exact IH.
  - rewrite Ht, Ha, !List.length_app. cbn. lia.
Qed.

Lemma active_grows_with_ledger_witness :
  GrownTogether started
    (deliver Host.utc Sample.first_payment
       (deliver Host.utc Sample.negative_payment
          (deliver Host.utc Sample.first_payment started))).
Proof.
  apply (active_grows_with_ledger Host.utc started).
  - eapply runs_then; [eapply runs_then; [eapply runs_then; [apply runs_here |] |] |].
    + apply (quiet_webhook Host.utc Sample.first_payment).
    + apply (quiet_webhook Host.utc Sample.negative_payment).
    + apply (quiet_webhook Host.utc Sample.first_payment).
  - exact Installed_started.
  - reflexivity.
Defined.



(* ================================================================== *)
(** ** Unknown events *)

(** X12.  A body whose [event] member is missing, is no string, or names
    a kind the endpoint does not know is acknowledged with 200; the only
    trace it leaves is one log line, "Unhandled event:", with the kind it
    carried. *)
Theorem unknown_event_is_acknowledged rt body w kind :
  Js.get body "event" = inr kind ->
  (forall k, List.In k known_kinds -> kind <> Js.Str k) ->
  webhook rt body w
  = (inr acknowledged, add_line (line Info "Unhandled event:" [kind]) w).
Proof.
  intros He Hk. unfold webhook, try_catch, bind. rewrite He. cbn [lift ret].
  rewrite !strict_eq_str_false by (apply Hk; simpl; tauto).
  reflexivity.
Qed.

Lemma unknown_event_is_acknowledged_witness :
  webhook Host.utc (Js.Obj [("data", Js.Null)]) started
  = (inr acknowledged, add_line (line Info "Unhandled event:" [Js.Undefined]) started).
Proof.
  apply (unknown_event_is_acknowledged Host.utc (Js.Obj [("data", Js.Null)]) started
           Js.Undefined).
  - reflexivity.
  - intros k _ H. discriminate H.
Defined.

(* ================================================================== *)
(** ** The gateway endpoints *)

Lemma same_store_trans a b c : same_store a b -> same_store b c -> same_store a c.
Proof. unfold same_store. intros [A1 [A2 A3]] [B1 [B2 B3]]. repeat split; congruence. Qed.

Lemma paystackAPI_same_store endpoint method data :
  Keeps same_store (paystackAPI endpoint method data).
Proof.
  intros w. unfold paystackAPI. destruct (hd _ (replies w)); repeat split.
Qed.

(** X13.  A well-formed initialise request (an email, an amount greater
    than zero) makes exactly one gateway request, a POST to
    /transaction/initialize with the email and the amount (a string amount
    as the number [parseFloat] reads), and uses up one gateway answer.  The
    answer decides the response: the [data] of a success comes back with
    200, the message of a failure with 500.  The store is not touched. *)
Theorem initialize_round_trip rt body email amount n w :
  Js.get body "email" = inr email -> Js.truthy email = true ->
  Js.get body "amount" = inr amount -> Js.truthy amount = true ->
  ToNumber rt (numericAmount rt amount) = inr n -> gt_zero n ->
  let out := initialize rt body w in
  calls (snd out)
  = calls w ++ [{| endpoint := "/transaction/initialize"; method := "POST";
                   payload := Js.Obj [("email", email);
                                      ("amount", numericAmount rt amount)] |}] /\
  replies (snd out) = tl (replies w) /\
  same_store w (snd out) /\
  (forall reply d, hd (inl "Network Error") (replies w) = inr reply ->
                   Js.get reply "data" = inr d ->
                   fst out = inr {| status := 200; success := true;
                                    message := "Payment initialized successfully";
                                    data := Some d |}) /\
  (forall m, hd (inl "Network Error") (replies w) = inl m ->
             fst out = inr {| status := 500; success := false;
                              message := m; data := None |}).
Proof.
  intros He Hte Ha Hta Hn Hg out. subst out. unfold initialize, try_catch, bind.
  rewrite He, Ha. cbn [lift ret]. rewrite Hte, Hta. cbn [negb orb].
  rewrite (not_positive_number rt _ n w Hn), (gt_zero_passes _ Hg).
  unfold paystackAPI.
  destruct (hd (inl "Network Error") (replies w)) as [m | reply].
  - cbn. repeat split; try discriminate. intros m' [= <-]. reflexivity.
  - destruct (Js.get reply "data") as [e | d] eqn:Hd; cbn; repeat split;
      try discriminate; intros b d' [= <-]; rewrite Hd; try discriminate.
    intros [= <-]. reflexivity.
Qed.

Lemma initialize_round_trip_witness :
  let w := set_replies [inr (Js.Obj [("status", Js.Bool true);
                                     ("data", Js.Obj [("reference", Js.Str "ref_001")])])]
             started in
  let out := initialize Host.utc
               (Js.Obj [("email", Js.Str "ada@example.com"); ("amount", Js.Str "500")]) w in
  calls (snd out)
  = calls w ++ [{| endpoint := "/transaction/initialize"; method := "POST";
                   payload := Js.Obj [("email", Js.Str "ada@example.com");
                                      ("amount", jsnum 500)] |}] /\
  replies (snd out) = tl (replies w) /\
  same_store w (snd out) /\
  (forall reply d, hd (inl "Network Error") (replies w) = inr reply ->
                   Js.get reply "data" = inr d ->
                   fst out = inr {| status := 200; success := true;
                                    message := "Payment initialized successfully";
                                    data := Some d |}) /\
  (forall m, hd (inl "Network Error") (replies w) = inl m ->
             fst out = inr {| status := 500; success := false;
                              message := m; data := None |}).
Proof.
  intros w.
  apply (initialize_round_trip Host.utc
           (Js.Obj [("email", Js.Str "ada@example.com"); ("amount", Js.Str "500")])
           (Js.Str "ada@example.com") (Js.Str "500") (Js.Finite (inject_Z 500)) w).
  - reflexivity.
  - reflexivity.
  - reflexivity.
  - reflexivity.
  - reflexivity.
  - vm_compute. reflexivity.
Defined.

(** X14.  Verifying a payment reference makes exactly one gateway
    request, a GET to /transaction/verify/ followed by the reference, and
    uses up one gateway answer.  The [data] of a success comes back with
    200, the message of a failure with 500.  The store is not touched. *)
Theorem verify_round_trip reference w :
  reference <> "" ->
  let out := verify reference w in
  calls (snd out)
  = calls w ++ [{| endpoint := ("/transaction/verify/" ++ reference)%string;
                   method := "GET"; payload := Js.Null |}] /\
  replies (snd out) = tl (replies w) /\
  same_store w (snd out) /\
  (forall body d, hd (inl "Network Error") (replies w) = inr body ->
                  Js.get body "data" = inr d ->
                  fst out = inr {| status := 200; success := true;
                                   message := "Payment verification successful";
                                   data := Some d |}) /\
  (forall m, hd (inl "Network Error") (replies w) = inl m ->
             fst out = inr {| status := 500; success := false;
                              message := m; data := None |}).
Proof.
  intros Hr out. subst out. unfold verify, try_catch.
  apply String.eqb_neq in Hr. rewrite Hr.
  unfold bind, paystackAPI.
  destruct (hd (inl "Network Error") (replies w)) as [m | body].
  - cbn. repeat split; try discriminate. intros m' [= <-]. reflexivity.
  - destruct (Js.get body "data") as [e | d] eqn:Hd; cbn; repeat split;
      try discriminate; intros b d' [= <-]; rewrite Hd; try discriminate.
    intros [= <-]. reflexivity.
Qed.

Lemma verify_round_trip_witness :
  let w := set_replies [inl "Transaction reference not found"] started in
  let out := verify "ref_404" w in
  calls (snd out)
  = calls w ++ [{| endpoint := "/transaction/verify/ref_404";
                   method := "GET"; payload := Js.Null |}] /\
  replies (snd out) = tl (replies w) /\
  same_store w (snd out) /\
  (forall body d, hd (inl "Network Error") (replies w) = inr body ->
                  Js.get body "data" = inr d ->
                  fst out = inr {| status := 200; success := true;
                                   message := "Payment verification successful";
                                   data := Some d |}) /\
  (forall m, hd (inl "Network Error") (replies w) = inl m ->
             fst out = inr {| status := 500; success := false;
                              message := m; data := None |}).
Proof.
  intros w. apply (verify_round_trip "ref_404" w). discriminate.
Defined.

(* ================================================================== *)
(** ** Start-up *)

Section Startup.
Variable R : World -> World -> Prop.
Hypothesis R_refl : forall w, R w w.
Hypothesis R_trans : forall a b c, R a b -> R b c -> R a c.
Hypothesis R_line : forall l w, R w (add_line l w).
Hypothesis R_faults : forall f w, R w (set_faults f w).
Hypothesis R_index_customers :
  forall k u w, R w (set_customers (Mongo.createIndex k u (customers w)) w).
Hypothesis R_index_transactions :
  forall k u w, R w (set_transactions (Mongo.createIndex k u (transactions w)) w).
Hypothesis R_index_active :
  forall k w, R w (set_active (Mongo.createIndex k false (active w)) w).
Hypothesis R_validator_customers :
  forall v w c, Mongo.collMod v (customers w) = inr c -> R w (set_customers c w).
Hypothesis R_validator_transactions :
  forall v w c, Mongo.collMod v (transactions w) = inr c -> R w (set_transactions c w).
Hypothesis R_validator_active :
  forall v w c, Mongo.collMod v (active w) = inr c -> R w (set_active c w).

Lemma index_customers_respects k u : Keeps R (createIndex customersCollection k u).
Proof.
  apply Keeps_command; try assumption. intros w a w2 [= _ <-]. apply R_index_customers.
Qed.

Lemma index_transactions_respects k u : Keeps R (createIndex transactionsCollection k u).
Proof.
  apply Keeps_command; try assumption. intros w a w2 [= _ <-]. apply R_index_transactions.
Qed.

Lemma index_active_respects k : Keeps R (createIndex active_users k false).
Proof.
  apply Keeps_command; try assumption. intros w a w2 [= _ <-]. apply R_index_active.
Qed.

(** What [createIndexes] does after its first command. *)
Lemma later_indexes_respect (handler : Js.Error -> Eff unit) :
  (forall e, Keeps R (handler e)) ->
  Keeps R
    (try_catch
       (createIndex transactionsCollection [("email", 1)] false ;;
        createIndex transactionsCollection [("paid_on", -1)] false ;;
        createIndex transactionsCollection [("expires_on", 1)] false ;;
        createIndex transactionsCollection [("service", 1)] false ;;
        createIndex transactionsCollection [("email", 1); ("paid_on", -1)] false ;;
        createIndex transactionsCollection [("service", 1); ("expires_on", 1)] false ;;
        createIndex active_users [("email", 1)] false ;;
        createIndex active_users [("paid_on", -1)] false ;;
        createIndex active_users [("expires_on", 1)] false ;;
        createIndex active_users [("service", 1)] false ;;
        createIndex active_users [("email", 1); ("service", 1)] false ;;
        createIndex active_users [("service", 1); ("expires_on", 1)] false ;;
        createIndex active_users [("expires_on", 1); ("paid_on", -1)] false ;;
        console_log "Database indexes created successfully" [])
       handler).
Proof.
  intros Hh. apply Keeps_try_catch; [assumption | | exact Hh].
  repeat (apply Keeps_bind;
          [assumption
          | first [apply index_transactions_respects | apply index_active_respects]
          | intros _]).
  apply Keeps_console_log; assumption.
Qed.

Lemma createValidationRules_respects : Keeps R createValidationRules.
Proof.
  unfold createValidationRules.
  apply Keeps_try_catch; [assumption | | intros e; apply Keeps_console_error; assumption].
  apply Keeps_bind; [assumption | | intros _].
  { apply Keeps_command; try assumption. intros w a w2.
    cbn [read write customersCollection].
    destruct (Mongo.collMod _ (customers w)) as [e | c] eqn:E; [discriminate |].
    intros [= _ <-]. exact (R_validator_customers _ _ _ E). }
  apply Keeps_bind; [assumption | | intros _].
  { apply Keeps_command; try assumption. intros w a w2.
    cbn [read write transactionsCollection].
    destruct (Mongo.collMod _ (transactions w)) as [e | c] eqn:E; [discriminate |].
    intros [= _ <-]. exact (R_validator_transactions _ _ _ E). }
  apply Keeps_bind; [assumption | | intros _].
  { apply Keeps_command; try assumption. intros w a w2.
    cbn [read write active_users].
    destruct (Mongo.collMod _ (active w)) as [e | c] eqn:E; [discriminate |].
    intros [= _ <-]. exact (R_validator_active _ _ _ E). }
  apply Keeps_console_log; assumption.
Qed.

Lemma createIndexes_respects : Keeps R createIndexes.
Proof.
  unfold createIndexes.
  apply Keeps_try_catch; [assumption | | intros e; apply Keeps_console_error; assumption].
  apply Keeps_bind; [assumption | apply index_customers_respects | intros _].
  repeat (apply Keeps_bind;
          [assumption
          | first [apply index_transactions_respects | apply index_active_respects]
          | intros _]).
  apply Keeps_console_log; assumption.
Qed.

Lemma connectDB_respects : Keeps R connectDB.
Proof.
  unfold connectDB.
  apply Keeps_bind; [assumption | apply createIndexes_respects | intros _].
  apply Keeps_bind; [assumption | apply createValidationRules_respects | intros _].
  apply Keeps_console_log; assumption.
Qed.
End Startup.

Lemma logged_try_returns (body : Eff unit) t (a : Js.Error -> list Js.Value) w :
  fst (try_catch body (fun e => console_error t (a e)) w) = inr tt.
Proof.
  unfold try_catch. destruct (body w) as [[e | []] w1]; reflexivity.
Qed.

Lemma createIndexes_returns w : fst (createIndexes w) = inr tt.
Proof. unfold createIndexes. apply logged_try_returns. Qed.

Lemma createValidationRules_returns w : fst (createValidationRules w) = inr tt.
Proof. unfold createValidationRules. apply logged_try_returns. Qed.

Lemma connectDB_returns w : fst (connectDB w) = inr tt.
Proof.
  unfold connectDB, bind.
  pose proof (createIndexes_returns w) as H1.
  destruct (createIndexes w) as [[e | []] w1]; [discriminate H1 |].
  pose proof (createValidationRules_returns w1) as H2.
  destruct (createValidationRules w1) as [[e | []] w2]; [discriminate H2 |].
  reflexivity.
Qed.

Lemma unique_email_createIndex_false {D : Type} k (c : Mongo.Collection D) :
  Mongo.unique_email (Mongo.createIndex k false c) = Mongo.unique_email c.
Proof.
  unfold Mongo.unique_email, Mongo.createIndex. cbn [Mongo.indexes].
  rewrite List.existsb_app. cbn. apply Bool.orb_false_r.
Qed.

Lemma unique_email_createIndex_email {D : Type} (c : Mongo.Collection D) :
  Mongo.unique_email (Mongo.createIndex [("email", 1)] true c) = true.
Proof.
  unfold Mongo.unique_email, Mongo.createIndex. cbn [Mongo.indexes].
  rewrite List.existsb_app. cbn. apply Bool.orb_true_r.
Qed.

Lemma try_catch_bind_ok {A B : Type} (c : Eff A) (k : A -> Eff B) h w a w1 :
  c w = (inr a, w1) -> try_catch (bind c k) h w = try_catch (k a) h w1.
Proof. intros E. unfold try_catch, bind. now rewrite E. Qed.

Lemma try_catch_bind_fail {A B : Type} (c : Eff A) (k : A -> Eff B) h w e w1 :
  c w = (inl e, w1) -> try_catch (bind c k) h w = h e w1.
Proof. intros E. unfold try_catch, bind. now rewrite E. Qed.

Lemma collMod_done {D : Type} (v : D -> bool) (c c' : Mongo.Collection D) :
  Mongo.collMod v c = inr c' ->
  Mongo.created c = true /\ Mongo.docs c' = Mongo.docs c /\
  Mongo.indexes c' = Mongo.indexes c /\ Mongo.validator c' = Some v.
Proof.
  unfold Mongo.collMod. destruct (Mongo.created c); [| discriminate].
  intros [= <-]. repeat split.
Qed.

Lemma unique_email_collMod {D : Type} (v : D -> bool) (c c' : Mongo.Collection D) :
  Mongo.collMod v c = inr c' -> Mongo.unique_email c' = Mongo.unique_email c.
Proof.
  intros H. destruct (collMod_done v c c' H) as [_ [_ [Hi _]]].
  unfold Mongo.unique_email. now rewrite Hi.
Qed.

(** The unique index on [customers.email] is the first command of
    [createIndexes]: it is there afterwards when that command went
    through, and otherwise only if it was there before. *)
Lemma createIndexes_customers_index w :
  Mongo.unique_email (customers (snd (createIndexes w)))
  = match hd None (faults w) with
    | None => true
    | Some _ => Mongo.unique_email (customers w)
    end.
Proof.
  unfold createIndexes.
  destruct (createIndex customersCollection [("email", 1)] true w) as [[e | []] w1] eqn:E.
  - rewrite (try_catch_bind_fail _ _ _ w e w1 E).
    unfold createIndex, command in E.
    destruct (hd None (faults w)) as [e' |]; [| discriminate E].
    injection E as _ <-. reflexivity.
  - rewrite (try_catch_bind_ok _ _ _ w tt w1 E).
    unfold createIndex, command in E.
    destruct (hd None (faults w)) as [e' |]; [discriminate E |].
    cbn [read write customersCollection] in E. injection E as <-.
    rewrite (later_indexes_respect
               (fun v v' => Mongo.unique_email (customers v')
                            = Mongo.unique_email (customers v))).
    + apply unique_email_createIndex_email.
    + intros a b c H1 H2. congruence.
    + reflexivity.
    + reflexivity.
    + reflexivity.
    + reflexivity.
    + intros e v. reflexivity.
Qed.

Lemma connectDB_keeps_documents w : stored (snd (connectDB w)) = stored w.
Proof.
  apply (connectDB_respects (fun v v' => stored v' = stored v));
    try reflexivity; try (intros; reflexivity);
    try (intros v x c Hmod; destruct (collMod_done _ _ _ Hmod) as [_ [Hd _]];
         unfold stored; cbn; now rewrite Hd).
  intros a b c H1 H2. congruence.
Qed.

Lemma connectDB_active_index w :
  Mongo.unique_email (active (snd (connectDB w))) = Mongo.unique_email (active w).
Proof.
  apply (connectDB_respects
           (fun v v' => Mongo.unique_email (active v') = Mongo.unique_email (active v)));
    try reflexivity; try (intros; reflexivity).
  - intros a b c H1 H2. congruence.
  - intros k v. cbn [active set_active]. apply unique_email_createIndex_false.
  - intros v x c Hmod. cbn [active set_active].
    exact (unique_email_collMod _ _ _ Hmod).
Qed.

(** X15.  Start-up goes on whatever fails: on any database [connectDB]
    never throws, never changes a stored document and leaves
    [active.email] as unique as it was.  On a fresh database,
    [customers.email] is unique afterwards exactly when the first index
    command went through, and [active.email] is not unique in any case. *)
Theorem startup_goes_on f :
  (forall w, fst (connectDB w) = inr tt /\
             stored (snd (connectDB w)) = stored w /\
             Mongo.unique_email (active (snd (connectDB w)))
             = Mongo.unique_email (active w)) /\
  let out := connectDB (set_faults f boot) in
  fst out = inr tt /\
  stored (snd out) = ([], [], []) /\
  (Mongo.unique_email (customers (snd out)) = true <-> hd None f = None) /\
  Mongo.unique_email (active (snd out)) = false.
Proof.
  split.
  { intros w. split; [apply connectDB_returns |].
    split; [apply connectDB_keeps_documents | apply connectDB_active_index]. }
  intros out. subst out. set (w := set_faults f boot).
  split; [apply connectDB_returns |]. split; [| split].
  - assert (stored (snd (connectDB w)) = stored w) as ->; [| reflexivity].
    apply (connectDB_respects (fun v v' => stored v' = stored v));
      try reflexivity; try (intros; reflexivity);
      try (intros v x c Hmod; destruct (collMod_done _ _ _ Hmod) as [_ [Hd _]];
           unfold stored; cbn; now rewrite Hd).
    intros a b c H1 H2. congruence.
  - pose proof (createIndexes_customers_index w) as Hidx.
    change (faults w) with f in Hidx.
    change (Mongo.unique_email (customers w)) with false in Hidx.
    assert (Mongo.unique_email (customers (snd (connectDB w)))
            = Mongo.unique_email (customers (snd (createIndexes w)))) as ->.
    { unfold connectDB, bind.
      pose proof (createIndexes_returns w) as H1.
      destruct (createIndexes w) as [[e | []] w1]; [discriminate H1 |]. cbn [snd].
      pose proof (createValidationRules_returns w1) as H2.
      assert (Mongo.unique_email (customers (snd (createValidationRules w1)))
              = Mongo.unique_email (customers w1)) as H3.
      { apply (createValidationRules_respects
                 (fun v v' => Mongo.unique_email (customers v')
                              = Mongo.unique_email (customers v)));
          try reflexivity; try (intros; reflexivity).
        - intros a b c A B. congruence.
        - intros v x c Hmod. cbn [customers set_customers].
          exact (unique_email_collMod _ _ _ Hmod). }
      destruct (createValidationRules w1) as [[e | []] w2]; [discriminate H2 |].
      exact H3. }
    rewrite Hidx. destruct (hd None f); split; congruence.
  - assert (Mongo.unique_email (active (snd (connectDB w)))
            = Mongo.unique_email (active w)) as ->; [| reflexivity].
    apply (connectDB_respects
             (fun v v' => Mongo.unique_email (active v') = Mongo.unique_email (active v)));
      try reflexivity; try (intros; reflexivity).
    + intros a b c H1 H2. congruence.
    + intros k v. cbn [active set_active]. apply unique_email_createIndex_false.
    + intros v x c Hmod. cbn [active set_active].
      exact (unique_email_collMod _ _ _ Hmod).
Qed.

Lemma startup_goes_on_witness :
  (forall w, fst (connectDB w) = inr tt /\
             stored (snd (connectDB w)) = stored w /\
             Mongo.unique_email (active (snd (connectDB w)))
             = Mongo.unique_email (active w)) /\
  let out := connectDB (set_faults [Some Sample.unreachable] boot) in
  fst out = inr tt /\
  stored (snd out) = ([], [], []) /\
  (Mongo.unique_email (customers (snd out)) = true
   <-> hd None [Some Sample.unreachable] = None) /\
  Mongo.unique_email (active (snd out)) = false.
Proof. exact (startup_goes_on [Some Sample.unreachable]). Defined.

(** X16.  The customer upsert is only as good as the index: in a
    collection without the unique index on [email] the insert never meets
    a duplicate key, so an upsert for an email the validator accepts adds
    one more Customer record for that email, stored or not. *)
Theorem upsert_without_index_appends w pc s :
  Quiet w ->
  Mongo.validator (customers w) = Some customer_schema ->
  Mongo.unique_email (customers w) = false ->
  PartialCustomer.email pc = Js.Str s ->
  EmailPattern.test s = true ->
  count (Js.Str s) (customers (snd (createOrUpdateCustomer pc w)))
  = S (count (Js.Str s) (customers w)).
Proof.
  intros Hq Hv Hu He Hs.
  unfold createOrUpdateCustomer, bind, now, try_catch, insertOne.
  rewrite (command_quiet _ w Hq). cbn [read customersCollection].
  rewrite He, serialize_customer.
  unfold Mongo.insert, Mongo.accepts. rewrite Hv, Hu.
  unfold customer_schema. cbn [Customer.email valid_email].
  rewrite Hs. cbn [negb andb write customersCollection console_log ret snd].
  cbn [customers add_line set_customers].
  rewrite count_app. cbn. rewrite String.eqb_refl. cbn. lia.
Qed.

(** A database that held a customer before the server started, and a
    start-up whose first index command failed: the customers collection
    has its validator and no unique index. *)
Lemma upsert_without_index_appends_witness :
  let pc := PartialCustomer.mk (Js.Str Sample.ada) None None in
  let before := snd (createOrUpdateCustomer pc boot) in
  let w := snd (connectDB (set_faults [Some Sample.unreachable] before)) in
  count (Js.Str Sample.ada) (customers w) = 1%nat /\
  count (Js.Str Sample.ada) (customers (snd (createOrUpdateCustomer pc w)))
  = S (count (Js.Str Sample.ada) (customers w)).
Proof.
  intros pc before w. split; [reflexivity |].
  apply (upsert_without_index_appends w pc Sample.ada).
  - reflexivity.
  - reflexivity.
  - reflexivity.
  - reflexivity.
  - vm_compute. reflexivity.
Defined.

(** X17.  What the webhook endpoint answers depends on the body alone:
    not on what is stored, not on the clock, not on whether the database
    commands of the reconciliation succeed. *)
Theorem webhook_answer_depends_on_body_only rt body w1 w2 :
  fst (webhook rt body w1) = fst (webhook rt body w2).
Proof.
  unfold webhook, try_catch, bind.
  destruct (Js.get body "event") as [e | kind]; cbn [lift ret throw]; [reflexivity |].
  destruct (Js.strict_eq_str kind "charge.success").
  { destruct (Js.get body "data") as [e | d]; cbn [lift ret throw console_log];
      [reflexivity |].
    rewrite !detach_handleSuccessfulPayment. reflexivity. }
  destruct (Js.strict_eq_str kind "charge.failed").
  { unfold handleFailedPayment, customer_email, bind.
    destruct (Js.get body "data") as [e | d]; cbn [lift ret throw console_log];
      [reflexivity |].
    destruct (Js.get d "reference"); cbn [lift ret throw]; [reflexivity |].
    destruct (Js.get d "amount"); cbn [lift ret throw]; [reflexivity |].
    destruct (Js.get d "customer") as [e | c]; cbn [lift ret throw]; [reflexivity |].
    destruct (Js.get c "email"); reflexivity. }
  destruct (Js.strict_eq_str kind "transfer.success").
  { destruct (Js.get body "data"); reflexivity. }
  destruct (Js.strict_eq_str kind "transfer.failed").
  { destruct (Js.get body "data"); reflexivity. }
  reflexivity.
Qed.
